(** * wa-proxy: the webhook dispatch-and-handoff orchestrator

    A shallow embedding of the three variants of [server.js] found in the
    repository:

    - [Basic]   : the n8n-only proxy               (src/server.js)
    - [Bridge]  : AI-first proxy with a 3CX bridge (src/unnamed/part_002, first file)
    - [Summary] : AI-first proxy with a summary    (src/unnamed/part_002, second file)

    Conventions of the model.

    - A JS string is represented by the bytes of its UTF-8 encoding, as a
      [string]; a [Buffer] is a byte sequence of the same type, so that
      [Buffer.from(s)] and [buf.toString("utf8")] are both the identity.
    - Values that come out of [JSON.parse] are terms of [json]; [undefined]
      is [None] in [value := option json].
    - Asynchronous code is sequenced as the handler awaits it.  The state
      carries the trace of observable events, in the order in which the
      handler performs them: the response written to the webhook source,
      every outbound call at the moment [fetch] is invoked, and every write
      to the [handoff] map.  The network is an oracle giving the outcome of
      the call recorded at each position of the trace.
    - A JS exception is the [Thrown] result; effects performed before the
      exception stay in the state. *)

From Stdlib Require Import ZArith List String Ascii Bool Lia Floats.
Import ListNotations.
Local Open Scope string_scope.
Local Open Scope Z_scope.

(* ================================================================== *)
(** * Strings and bytes *)

Definition byte_of_ascii (c : ascii) : Z := Z.of_N (N_of_ascii c).
Definition ascii_of_byte (b : Z) : ascii := ascii_of_N (Z.to_N b).

Definition bytes_of_string (s : string) : list Z :=
  map byte_of_ascii (list_ascii_of_string s).

(** The double quote, for writing JSON text inside Rocq string literals. *)
Definition dquote : ascii := ascii_of_nat 34.

(** [json_text s] is [s] with every apostrophe replaced by a double quote. *)
Fixpoint json_text (s : string) : string :=
  match s with
  | EmptyString => EmptyString
  | String c r =>
      String (if Ascii.eqb c "'" then dquote else c) (json_text r)
  end.

Definition LF : string := String (ascii_of_nat 10) EmptyString.

Fixpoint string_rev_onto (s acc : string) : string :=
  match s with
  | EmptyString => acc
  | String c r => string_rev_onto r (String c acc)
  end.

Definition string_rev (s : string) : string := string_rev_onto s EmptyString.

Definition str_truthy (s : string) : bool :=
  match s with EmptyString => false | _ => true end.

(** An environment variable or a header: [None] is [undefined]. *)
Definition opt_truthy (o : option string) : bool :=
  match o with Some s => str_truthy s | None => false end.

(* ------------------------------------------------------------------ *)
(** ** [String.prototype.split], [join], [trim] *)

(** [s.split(sep)] for a one-character separator. *)
Fixpoint split_on (sep : ascii) (s : string) (cur : string) : list string :=
  match s with
  | EmptyString => [string_rev cur]
  | String c r =>
      if Ascii.eqb c sep then string_rev cur :: split_on sep r EmptyString
      else split_on sep r (String c cur)
  end.

Definition str_split (sep : ascii) (s : string) : list string :=
  split_on sep s EmptyString.

Fixpoint str_join (sep : string) (l : list string) : string :=
  match l with
  | [] => EmptyString
  | [x] => x
  | x :: r => x ++ sep ++ str_join sep r
  end.

(** The white space and line terminators that [trim] strips (ECMA-262
    WhiteSpace and LineTerminator), as UTF-8 byte sequences: TAB, LF, VT, FF,
    CR, SP, U+00A0, U+1680, U+2000..U+200A, U+2028, U+2029, U+202F, U+205F,
    U+3000 and U+FEFF. *)
Definition white_space : list (list Z) :=
  [ [9]; [10]; [11]; [12]; [13]; [32]; [0xC2; 0xA0]; [0xE1; 0x9A; 0x80];
    [0xE2; 0x80; 0x80]; [0xE2; 0x80; 0x81]; [0xE2; 0x80; 0x82];
    [0xE2; 0x80; 0x83]; [0xE2; 0x80; 0x84]; [0xE2; 0x80; 0x85];
    [0xE2; 0x80; 0x86]; [0xE2; 0x80; 0x87]; [0xE2; 0x80; 0x88];
    [0xE2; 0x80; 0x89]; [0xE2; 0x80; 0x8A]; [0xE2; 0x80; 0xA8];
    [0xE2; 0x80; 0xA9]; [0xE2; 0x80; 0xAF]; [0xE2; 0x81; 0x9F];
    [0xE3; 0x80; 0x80]; [0xEF; 0xBB; 0xBF] ].

(** [strip_prefix p s] is the rest of [s] after the bytes [p], if [s] starts
    with them. *)
Fixpoint strip_prefix (p : list Z) (s : string) : option string :=
  match p, s with
  | [], _ => Some s
  | b :: p', String c r =>
      if byte_of_ascii c =? b then strip_prefix p' r else None
  | _ :: _, EmptyString => None
  end.

Fixpoint strip_any (ps : list (list Z)) (s : string) : option string :=
  match ps with
  | [] => None
  | p :: r =>
      match strip_prefix p s with
      | Some s' => Some s'
      | None => strip_any r s
      end
  end.

(** Removes leading white space; the fuel is the length of the string. *)
Fixpoint trim_start_fuel (ws : list (list Z)) (n : nat) (s : string) : string :=
  match n with
  | O => s
  | S n' =>
      match strip_any ws s with
      | Some s' => trim_start_fuel ws n' s'
      | None => s
      end
  end.

Definition trimStart (s : string) : string :=
  trim_start_fuel white_space (String.length s) s.

(** Trailing white space is leading white space of the reversed string,
    with each white-space sequence reversed. *)
Definition trimEnd (s : string) : string :=
  let r := string_rev s in
  string_rev (trim_start_fuel (map (@rev Z) white_space) (String.length r) r).

Definition trim (s : string) : string := trimEnd (trimStart s).

(* ------------------------------------------------------------------ *)
(** ** Case-insensitive search *)

(** The canonicalisation of a case-insensitive, non-unicode [RegExp]: an
    ASCII letter is folded with its other case; a byte of a non-ASCII
    character never folds onto an ASCII one. *)
Definition fold_case (c : ascii) : ascii :=
  let n := byte_of_ascii c in
  if (97 <=? n) && (n <=? 122) then ascii_of_byte (n - 32) else c.

Fixpoint prefix_ci (p s : string) : bool :=
  match p, s with
  | EmptyString, _ => true
  | String a p', String b s' =>
      Ascii.eqb (fold_case a) (fold_case b) && prefix_ci p' s'
  | String _ _, EmptyString => false
  end.

(** Is there a position of [s] at which [p] matches? *)
Fixpoint includes_ci (p s : string) : bool :=
  prefix_ci p s ||
  match s with
  | EmptyString => false
  | String _ s' => includes_ci p s'
  end.

(* ================================================================== *)
(** * The [crypto] module: SHA-256 (FIPS 180-4) and HMAC (RFC 2104)

    Words are 32-bit integers held in [Z], reduced modulo [2^32] after each
    addition and left shift; bytes are integers in [0, 255]. *)

Module Crypto.

Definition w32 (x : Z) : Z := x mod 2 ^ 32.

Definition add32 (x y : Z) : Z := w32 (x + y).

Definition rotr (n x : Z) : Z :=
  Z.lor (Z.shiftr x n) (w32 (Z.shiftl x (32 - n))).

Definition not32 (x : Z) : Z := 2 ^ 32 - 1 - x.

Definition Ch (x y z : Z) : Z := Z.lxor (Z.land x y) (Z.land (not32 x) z).

Definition Maj (x y z : Z) : Z :=
  Z.lxor (Z.lxor (Z.land x y) (Z.land x z)) (Z.land y z).

Definition Sigma0 (x : Z) : Z :=
  Z.lxor (Z.lxor (rotr 2 x) (rotr 13 x)) (rotr 22 x).

Definition Sigma1 (x : Z) : Z :=
  Z.lxor (Z.lxor (rotr 6 x) (rotr 11 x)) (rotr 25 x).

Definition sigma0 (x : Z) : Z :=
  Z.lxor (Z.lxor (rotr 7 x) (rotr 18 x)) (Z.shiftr x 3).

Definition sigma1 (x : Z) : Z :=
  Z.lxor (Z.lxor (rotr 17 x) (rotr 19 x)) (Z.shiftr x 10).

(** The constants are defined as FIPS 180-4 defines them, from the first
    prime numbers. *)
Definition is_prime (n : Z) : bool :=
  forallb (fun d => negb (n mod d =? 0))
    (map Z.of_nat (seq 2 (Z.to_nat n - 2))).

Definition primes (count : nat) : list Z :=
  firstn count (filter is_prime (map Z.of_nat (seq 2 400))).

(** The largest [r] below [2^bits] with [r^3 <= n], built bit by bit from
    the bits of [acc]. *)
Fixpoint cube_root (bits : nat) (n acc : Z) : Z :=
  match bits with
  | O => acc
  | S b =>
      let c := acc + 2 ^ Z.of_nat b in
      cube_root b n (if c * c * c <=? n then c else acc)
  end.

(** The first 32 bits of the fractional parts of the cube roots of the
    first 64 primes. *)
Definition K256 : list Z :=
  Eval vm_compute in
    map (fun p => w32 (cube_root 40 (p * 2 ^ 96) 0)) (primes 64).

(** The first 32 bits of the fractional parts of the square roots of the
    first 8 primes. *)
Definition H0 : list Z :=
  Eval vm_compute in map (fun p => w32 (Z.sqrt (p * 2 ^ 64))) (primes 8).

(** Big-endian bytes of an integer, [n] of them. *)
Fixpoint be_bytes (n : nat) (x : Z) : list Z :=
  match n with
  | O => []
  | S n' => (Z.shiftr x (8 * Z.of_nat n')) mod 256 :: be_bytes n' x
  end.

(** The message followed by 0x80, zeros up to 56 modulo 64, and the length
    in bits on 8 bytes. *)
Definition pad (msg : list Z) : list Z :=
  let len := Z.of_nat (List.length msg) in
  let zeros := Z.to_nat ((55 - len) mod 64) in
  (msg ++ [0x80] ++ repeat 0 zeros ++ be_bytes 8 (8 * len))%list.

(** Big-endian words of a byte sequence whose length is a multiple of 4. *)
Fixpoint words (n : nat) (l : list Z) : list Z :=
  match n with
  | O => []
  | S n' =>
      match l with
      | a :: b :: c :: d :: r =>
          (Z.shiftl a 24 + Z.shiftl b 16 + Z.shiftl c 8 + d) :: words n' r
      | _ => []
      end
  end.

(** The message schedule, most recent word first: from [W(t-1) .. W(0)],
    [n] further words. *)
Fixpoint schedule (n : nat) (w : list Z) : list Z :=
  match n with
  | O => w
  | S n' =>
      let wt :=
        add32 (add32 (sigma1 (nth 1 w 0)) (nth 6 w 0))
              (add32 (sigma0 (nth 14 w 0)) (nth 15 w 0)) in
      schedule n' (wt :: w)
  end.

Record regs := mkRegs { ra : Z; rb : Z; rc : Z; rd : Z; re : Z; rf : Z; rg : Z; rh : Z }.

Definition round (r : regs) (kw : Z * Z) : regs :=
  let t1 :=
    add32 (add32 (add32 (rh r) (Sigma1 (re r))) (Ch (re r) (rf r) (rg r)))
          (add32 (fst kw) (snd kw)) in
  let t2 := add32 (Sigma0 (ra r)) (Maj (ra r) (rb r) (rc r)) in
  mkRegs (add32 t1 t2) (ra r) (rb r) (rc r) (add32 (rd r) t1) (re r) (rf r) (rg r).

Definition regs_of (h : list Z) : regs :=
  mkRegs (nth 0 h 0) (nth 1 h 0) (nth 2 h 0) (nth 3 h 0)
         (nth 4 h 0) (nth 5 h 0) (nth 6 h 0) (nth 7 h 0).

Definition list_of (r : regs) : list Z :=
  [ra r; rb r; rc r; rd r; re r; rf r; rg r; rh r].

(** One 64-byte block folded into the hash value. *)
Definition compress (h : list Z) (block : list Z) : list Z :=
  let w := rev (schedule 48 (rev (words 16 block))) in
  let r := fold_left round (combine K256 w) (regs_of h) in
  map (fun p => add32 (fst p) (snd p)) (combine h (list_of r)).

Fixpoint blocks (n : nat) (h : list Z) (l : list Z) : list Z :=
  match n with
  | O => h
  | S n' =>
      match l with
      | [] => h
      | _ => blocks n' (compress h (firstn 64 l)) (skipn 64 l)
      end
  end.

Definition sha256 (msg : list Z) : list Z :=
  let p := pad msg in
  flat_map (be_bytes 4) (blocks (List.length p) H0 p).

(** [crypto.createHmac("sha256", key).update(msg).digest()]. *)
Definition hmac_sha256 (key msg : list Z) : list Z :=
  let k := if (64 <? Z.of_nat (List.length key)) then sha256 key else key in
  let k := (k ++ repeat 0 (64 - List.length k))%list in
  let ipad := map (fun b => Z.lxor b 0x36) k in
  let opad := map (fun b => Z.lxor b 0x5c) k in
  sha256 (opad ++ sha256 (ipad ++ msg))%list.

Definition hex_digit (n : Z) : ascii :=
  if n <? 10 then ascii_of_byte (48 + n) else ascii_of_byte (87 + n).

(** [digest("hex")]: two lower-case digits per byte. *)
Fixpoint hex (l : list Z) : string :=
  match l with
  | [] => EmptyString
  | b :: r => String (hex_digit (b / 16)) (String (hex_digit (b mod 16)) (hex r))
  end.

End Crypto.

(** [Buffer.from(s).toString("base64")]. *)
Definition base64_char (n : Z) : ascii :=
  if n <? 26 then ascii_of_byte (65 + n)
  else if n <? 52 then ascii_of_byte (97 + (n - 26))
  else if n <? 62 then ascii_of_byte (48 + (n - 52))
  else if n =? 62 then "+"%char else "/"%char.

Fixpoint base64 (l : list Z) : string :=
  match l with
  | [] => EmptyString
  | [a] =>
      String (base64_char (a / 4))
        (String (base64_char ((a mod 4) * 16)) "==")
  | [a; b] =>
      String (base64_char (a / 4))
        (String (base64_char ((a mod 4) * 16 + b / 16))
           (String (base64_char ((b mod 16) * 4)) "="))
  | a :: b :: c :: r =>
      String (base64_char (a / 4))
        (String (base64_char ((a mod 4) * 16 + b / 16))
           (String (base64_char ((b mod 16) * 4 + c / 64))
              (String (base64_char (c mod 64)) (base64 r))))
  end.

(* ================================================================== *)
(** * JSON values

    What [JSON.parse] returns.  A number is an IEEE 754 double.  An object
    is the list of its own properties in property order; [JSON.parse] gives
    every key once. *)

Set Warnings "-register-all".

Inductive json : Type :=
| JNull
| JBool (b : bool)
| JNumber (x : float)
| JString (s : string)
| JArray (elems : list json)
| JObject (props : list (string * json)).

(** A JS value as far as this program sees one: [None] is [undefined]. *)
Definition value : Type := option json.

(** [ToBoolean]. *)
Definition truthy (v : value) : bool :=
  match v with
  | None => false
  | Some JNull => false
  | Some (JBool b) => b
  | Some (JNumber x) => negb (PrimFloat.eqb x 0%float || PrimFloat.is_nan x)
  | Some (JString s) => str_truthy s
  | Some (JArray _) => true
  | Some (JObject _) => true
  end.

(** [v === s] for a string literal [s]. *)
Definition is_string (v : value) (s : string) : bool :=
  match v with
  | Some (JString t) => String.eqb t s
  | _ => false
  end.

Fixpoint assoc (k : string) (ps : list (string * json)) : value :=
  match ps with
  | [] => None
  | (k', v) :: r => if String.eqb k' k then Some v else assoc k r
  end.

(** [v.k] on a value that is neither [null] nor [undefined].  The names the
    program reads ([entry], [changes], [value], [messages], [type], [from],
    [text], [body], [reply], [summary]) are properties of no prototype, so
    only an object can have them. *)
Definition member (v : json) (k : string) : value :=
  match v with
  | JObject ps => assoc k ps
  | _ => None
  end.

(** [v[0]]: the first element of an array, the property [0] of an object,
    the first character of a string. *)
Definition index0 (v : json) : value :=
  match v with
  | JArray (x :: _) => Some x
  | JObject ps => assoc "0" ps
  | JString (String c _) => Some (JString (String c EmptyString))
  | _ => None
  end.

(** [v?.k] and [v?.[0]]. *)
Definition opt_member (v : value) (k : string) : value :=
  match v with
  | Some j => member j k
  | None => None
  end.

Definition opt_index0 (v : value) : value :=
  match v with
  | Some j => index0 j
  | None => None
  end.

(** [payload?.entry?.[0]?.changes?.[0]?.value?.messages]. *)
Definition first_change_messages (payload : json) : value :=
  opt_member
    (opt_member
       (opt_index0 (opt_member (opt_index0 (opt_member (Some payload) "entry"))
                      "changes"))
       "value")
    "messages".

(** Assignment to a property that the object already has. *)
Fixpoint assoc_set (k : string) (new : json) (ps : list (string * json))
  : list (string * json) :=
  match ps with
  | [] => []
  | (k', v) :: r =>
      if String.eqb k' k then (k', new) :: r else (k', v) :: assoc_set k new r
  end.

Definition set_member (v : json) (k : string) (new : json) : json :=
  match v with
  | JObject ps => JObject (assoc_set k new ps)
  | _ => v
  end.

Definition set_index0 (v : json) (new : json) : json :=
  match v with
  | JArray (_ :: r) => JArray (new :: r)
  | JObject ps => JObject (assoc_set "0" new ps)
  | _ => v
  end.

(** [SameValueZero], the key equality of [Map].  Two objects or arrays are
    the same key only when they are the same object; every key this program
    uses is the [from] field of a message of a freshly parsed payload, so an
    object or array key is never found again. *)
Definition same_value_zero (a b : json) : bool :=
  match a, b with
  | JNull, JNull => true
  | JBool x, JBool y => Bool.eqb x y
  | JNumber x, JNumber y =>
      PrimFloat.eqb x y || (PrimFloat.is_nan x && PrimFloat.is_nan y)
  | JString x, JString y => String.eqb x y
  | _, _ => false
  end.

(* ================================================================== *)
(** * A reference reading of the runtime parameters

    Used to evaluate the model on concrete payloads.  It reads the JSON
    grammar of ECMA-404 with two limits, beyond which it gives [None]: a
    number must be an integer literal of magnitude at most [2^53], and an
    escape must not denote a surrogate code unit. *)

Module Reference.

Definition is_ws (c : ascii) : bool :=
  let n := byte_of_ascii c in (n =? 32) || (n =? 9) || (n =? 10) || (n =? 13).

Fixpoint skip_ws (s : string) : string :=
  match s with
  | String c r => if is_ws c then skip_ws r else s
  | EmptyString => s
  end.

Definition hex_value (c : ascii) : option Z :=
  let n := byte_of_ascii c in
  if (48 <=? n) && (n <=? 57) then Some (n - 48)
  else if (97 <=? n) && (n <=? 102) then Some (n - 87)
  else if (65 <=? n) && (n <=? 70) then Some (n - 55)
  else None.

(** The UTF-8 bytes of a code point of the basic plane, last byte first. *)
Definition utf8_rev (cp : Z) : list ascii :=
  if cp <? 0x80 then [ascii_of_byte cp]
  else if cp <? 0x800 then
    [ascii_of_byte (0x80 + cp mod 64); ascii_of_byte (0xC0 + cp / 64)]
  else
    [ascii_of_byte (0x80 + cp mod 64); ascii_of_byte (0x80 + (cp / 64) mod 64);
     ascii_of_byte (0xE0 + cp / 4096)].

Definition simple_escape (c : ascii) : option ascii :=
  let n := byte_of_ascii c in
  if n =? 34 then Some dquote
  else if n =? 92 then Some "\"%char
  else if n =? 47 then Some "/"%char
  else if n =? 98 then Some (ascii_of_byte 8)
  else if n =? 102 then Some (ascii_of_byte 12)
  else if n =? 110 then Some (ascii_of_byte 10)
  else if n =? 114 then Some (ascii_of_byte 13)
  else if n =? 116 then Some (ascii_of_byte 9)
  else None.

Fixpoint push_rev (l : list ascii) (acc : string) : string :=
  match l with
  | [] => acc
  | c :: r => String c (push_rev r acc)
  end.

(** The characters of a string literal after its opening quote; [acc] is
    the text read so far, reversed. *)
Fixpoint parse_chars (s : string) (acc : string) : option (string * string) :=
  match s with
  | EmptyString => None
  | String c r =>
      if Ascii.eqb c dquote then Some (string_rev acc, r)
      else if Ascii.eqb c "\" then
        match r with
        | String e r' =>
            match simple_escape e with
            | Some b => parse_chars r' (String b acc)
            | None =>
                if Ascii.eqb e "u" then
                  match r' with
                  | String h1 (String h2 (String h3 (String h4 rest))) =>
                      match hex_value h1, hex_value h2, hex_value h3, hex_value h4 with
                      | Some a, Some b, Some c', Some d =>
                          let cp := ((a * 16 + b) * 16 + c') * 16 + d in
                          if (0xD800 <=? cp) && (cp <=? 0xDFFF) then None
                          else parse_chars rest (push_rev (utf8_rev cp) acc)
                      | _, _, _, _ => None
                      end
                  | _ => None
                  end
                else None
            end
        | EmptyString => None
        end
      else if byte_of_ascii c <? 32 then None
      else parse_chars r (String c acc)
  end.

Definition is_digit (c : ascii) : bool :=
  let n := byte_of_ascii c in (48 <=? n) && (n <=? 57).

Fixpoint parse_digits (s : string) (acc : Z) : Z * string :=
  match s with
  | String c r =>
      if is_digit c then parse_digits r (acc * 10 + (byte_of_ascii c - 48))
      else (acc, s)
  | EmptyString => (acc, s)
  end.

Definition float_of_Z (z : Z) : float :=
  if z <? 0 then PrimFloat.opp (PrimFloat.of_uint63 (Uint63.of_Z (- z)))
  else PrimFloat.of_uint63 (Uint63.of_Z z).

(** An integer literal: an optional minus, then 0 or digits without a
    leading zero, and no fraction or exponent after them. *)
Definition parse_number (s : string) : option (json * string) :=
  let (neg, s1) :=
    match s with
    | String c r => if Ascii.eqb c "-" then (true, r) else (false, s)
    | EmptyString => (false, s)
    end in
  match s1 with
  | String d r =>
      if is_digit d then
        let (n, rest) := if Ascii.eqb d "0" then (0, r) else parse_digits s1 0 in
        let follows :=
          match rest with
          | String c _ =>
              is_digit c || Ascii.eqb c "." || Ascii.eqb c "e" || Ascii.eqb c "E"
          | EmptyString => false
          end in
        if follows || (2 ^ 53 <? n) then None
        else
          Some (JNumber (if neg then PrimFloat.opp (float_of_Z n) else float_of_Z n),
                rest)
      else None
  | EmptyString => None
  end.

(** A canonical array index: it comes before the other keys of an object,
    in ascending order. *)
Definition array_index (k : string) : option Z :=
  match k with
  | EmptyString => None
  | String c r =>
      if forallb is_digit (list_ascii_of_string k)
         && (negb (Ascii.eqb c "0") || match r with EmptyString => true | _ => false end)
      then
        let n := fst (parse_digits k 0) in
        if n <? 2 ^ 32 - 1 then Some n else None
      else None
  end.

Fixpoint insert_index (n : Z) (k : string) (v : json) (ps : list (string * json))
  : list (string * json) :=
  match ps with
  | [] => [(k, v)]
  | (k', v') :: r =>
      match array_index k' with
      | Some n' =>
          if n' <? n then (k', v') :: insert_index n k v r else (k, v) :: ps
      | None => (k, v) :: ps
      end
  end.

(** [CreateDataProperty]: a key already present keeps its place. *)
Definition add_prop (k : string) (v : json) (ps : list (string * json))
  : list (string * json) :=
  match assoc k ps with
  | Some _ => assoc_set k v ps
  | None =>
      match array_index k with
      | Some n => insert_index n k v ps
      | None => (ps ++ [(k, v)])%list
      end
  end.

Definition starts_with (p s : string) : option string :=
  strip_prefix (bytes_of_string p) s.

Fixpoint parse_value (fuel : nat) (s : string) : option (json * string) :=
  match fuel with
  | O => None
  | S f =>
      let s := skip_ws s in
      match s with
      | EmptyString => None
      | String c r =>
          if Ascii.eqb c "{" then
            match skip_ws r with
            | String c' r' =>
                if Ascii.eqb c' "}" then Some (JObject [], r')
                else parse_members f (skip_ws r) []
            | EmptyString => None
            end
          else if Ascii.eqb c "[" then
            match skip_ws r with
            | String c' r' =>
                if Ascii.eqb c' "]" then Some (JArray [], r')
                else parse_elements f r []
            | EmptyString => None
            end
          else if Ascii.eqb c dquote then
            match parse_chars r EmptyString with
            | Some (t, rest) => Some (JString t, rest)
            | None => None
            end
          else
            match starts_with "true" s, starts_with "false" s, starts_with "null" s with
            | Some rest, _, _ => Some (JBool true, rest)
            | _, Some rest, _ => Some (JBool false, rest)
            | _, _, Some rest => Some (JNull, rest)
            | _, _, _ => parse_number s
            end
      end
  end

with parse_members (fuel : nat) (s : string) (acc : list (string * json))
  : option (json * string) :=
  match fuel with
  | O => None
  | S f =>
      match s with
      | String c r =>
          if Ascii.eqb c dquote then
            match parse_chars r EmptyString with
            | Some (k, rest) =>
                match skip_ws rest with
                | String colon rest' =>
                    if Ascii.eqb colon ":" then
                      match parse_value f rest' with
                      | Some (v, rest'') =>
                          let acc' := add_prop k v acc in
                          match skip_ws rest'' with
                          | String d tail =>
                              if Ascii.eqb d "," then parse_members f (skip_ws tail) acc'
                              else if Ascii.eqb d "}" then Some (JObject acc', tail)
                              else None
                          | EmptyString => None
                          end
                      | None => None
                      end
                    else None
                | EmptyString => None
                end
            | None => None
            end
          else None
      | EmptyString => None
      end
  end

with parse_elements (fuel : nat) (s : string) (acc : list json)
  : option (json * string) :=
  match fuel with
  | O => None
  | S f =>
      match parse_value f s with
      | Some (v, rest) =>
          match skip_ws rest with
          | String d tail =>
              if Ascii.eqb d "," then parse_elements f tail (v :: acc)
              else if Ascii.eqb d "]" then Some (JArray (rev (v :: acc)), tail)
              else None
          | EmptyString => None
          end
      | None => None
      end
  end.

Definition JSON_parse (s : string) : option json :=
  match parse_value (2 * String.length s + 2) s with
  | Some (v, rest) =>
      match skip_ws rest with
      | EmptyString => Some v
      | _ => None
      end
  | None => None
  end.

(** Decimal digits of a non-negative integer; the fuel bounds their
    number. *)
Fixpoint digits (fuel : nat) (n : Z) (acc : string) : string :=
  match fuel with
  | O => acc
  | S f =>
      let acc' := String (ascii_of_byte (48 + n mod 10)) acc in
      if n <? 10 then acc' else digits f (n / 10) acc'
  end.

Definition decimal (n : Z) : string :=
  if n <? 0 then String "-" (digits 20 (- n) EmptyString)
  else digits 20 n EmptyString.

(** The integer a double holds, if it holds one. *)
Definition Z_of_float (x : float) : option Z :=
  match FloatOps.Prim2SF x with
  | SpecFloat.S754_zero _ => Some 0
  | SpecFloat.S754_finite sign m e =>
      let abs :=
        if 0 <=? e then Some (Z.pos m * 2 ^ e)
        else if (Z.pos m) mod 2 ^ (- e) =? 0 then Some (Z.pos m / 2 ^ (- e))
        else None in
      match abs with
      | Some a => Some (if sign then - a else a)
      | None => None
      end
  | _ => None
  end.

(** [Number::toString] on the integers of magnitude at most [2^53], and on
    the values that are not finite. *)
Definition Number_toString (x : float) : string :=
  match Z_of_float x with
  | Some n => if Z.abs n <=? 2 ^ 53 then decimal n else EmptyString
  | None =>
      if PrimFloat.is_nan x then "NaN"
      else if PrimFloat.eqb x PrimFloat.infinity then "Infinity"
      else if PrimFloat.eqb x PrimFloat.neg_infinity then "-Infinity"
      else EmptyString
  end.

(** [QuoteJSONString] without its quotes. *)
Fixpoint quote_chars (s : string) : string :=
  match s with
  | EmptyString => EmptyString
  | String c r =>
      let n := byte_of_ascii c in
      let rest := quote_chars r in
      if n =? 34 then String "\" (String dquote rest)
      else if n =? 92 then String "\" (String "\" rest)
      else if n =? 8 then String "\" (String "b" rest)
      else if n =? 12 then String "\" (String "f" rest)
      else if n =? 10 then String "\" (String "n" rest)
      else if n =? 13 then String "\" (String "r" rest)
      else if n =? 9 then String "\" (String "t" rest)
      else if n <? 32 then
        String "\" (String "u" (String "0" (String "0"
          (String (Crypto.hex_digit (n / 16))
             (String (Crypto.hex_digit (n mod 16)) rest)))))
      else String c rest
  end.

Definition quote (s : string) : string :=
  String dquote (quote_chars s ++ String dquote EmptyString).

Fixpoint JSON_stringify (v : json) : string :=
  match v with
  | JNull => "null"
  | JBool true => "true"
  | JBool false => "false"
  | JNumber x =>
      match Z_of_float x with
      | Some _ => Number_toString x
      | None => "null"
      end
  | JString s => quote s
  | JArray l => "[" ++ str_join "," (map JSON_stringify l) ++ "]"
  | JObject ps =>
      "{" ++
      str_join ","
        (map (fun p => quote (fst p) ++ ":" ++ JSON_stringify (snd p)) ps) ++
      "}"
  end.

End Reference.

(* ================================================================== *)
(** * Configuration: [process.env] *)

Record config : Type := mkConfig {
  VERIFY_TOKEN : option string;
  META_APP_SECRET : option string;
  META_PERM_TOKEN : option string;
  META_PHONE_NUMBER_ID : option string;
  CHATWOOT_WEBHOOK_URL : option string;
  CHATWOOT_WEBHOOK_TOKEN : option string;
  OPENAI_ENDPOINT : option string;
  OPENAI_SUMMARY_ENDPOINT : option string;
  N8N_BASIC_USER : option string;
  N8N_BASIC_PASS : option string;
  HANDOFF_KEYWORDS_env : option string;
  THREE_CX_WEBHOOK_URL : option string;
  THREE_CX_META_PHONE_NUMBER_ID : option string;
  THREE_CX_META_PERM_TOKEN : option string;
  HANDOFF_TEMPLATE_NAME_env : option string;
  HANDOFF_TEMPLATE_LANG_env : option string
}.

(** A destructuring default applies when the variable is [undefined]. *)
Definition with_default (o : option string) (d : string) : string :=
  match o with Some s => s | None => d end.

Definition HANDOFF_KEYWORDS (cfg : config) : string :=
  with_default (HANDOFF_KEYWORDS_env cfg) "human,agent,representative,support,help".

Definition HANDOFF_TEMPLATE_NAME (cfg : config) : string :=
  with_default (HANDOFF_TEMPLATE_NAME_env cfg) "".

Definition HANDOFF_TEMPLATE_LANG (cfg : config) : string :=
  with_default (HANDOFF_TEMPLATE_LANG_env cfg) "en".

(** The check at start-up: the process exits unless these five are set. *)
Definition startup_ok (cfg : config) : bool :=
  opt_truthy (VERIFY_TOKEN cfg) && opt_truthy (META_APP_SECRET cfg)
  && opt_truthy (META_PERM_TOKEN cfg) && opt_truthy (META_PHONE_NUMBER_ID cfg)
  && opt_truthy (OPENAI_ENDPOINT cfg).

(** A variable inside a template literal. *)
Definition env_str (o : option string) : string := with_default o "undefined".

(* ================================================================== *)
(** * The intent classifier: [handoffRegex]

    The pattern is the alternation of the configured keywords.  A keyword is
    read literally: the model covers keywords without regular-expression
    metacharacters other than the bar.  An alternative matches wherever it
    occurs in the text, case-insensitively; the empty alternative matches
    at every position. *)

Record RegExp : Type := mkRegExp { source : string; ignoreCase : bool }.

Definition handoffRegex (cfg : config) : RegExp :=
  mkRegExp
    (str_join "|"
       (filter str_truthy (map trim (str_split "," (HANDOFF_KEYWORDS cfg)))))
    true.

(** [re.test(text)] for a pattern of literal alternatives with the [i]
    flag. *)
Definition RegExp_test (re : RegExp) (text : string) : bool :=
  existsb (fun alt => includes_ci alt text) (str_split "|" (source re)).

(* ================================================================== *)
(** * Effects: trace, network, state *)

Record request : Type := mkRequest {
  req_url : string;
  req_headers : list (string * string);
  req_body : string
}.

(** Which call of the program a request is, with the arguments it was
    made for. *)
Inductive purpose : Type :=
| PForward                                   (* forwardRawJSON *)
| PAIReply (waId : json) (text : string)     (* getAIReply *)
| PAISummary (waId : json)                   (* getAISummary *)
| PSendText (to : json) (body : json)        (* sendWaText, sendWaTextFromMain *)
| PSendTemplate (to : json)                  (* sendTemplateFrom3cxNumber, template *)
| PSendWindowText (to : json).               (* sendTemplateFrom3cxNumber, free-form *)

Inductive event : Type :=
| Respond (status : Z)                       (* res.sendStatus(status) *)
| Call (p : purpose) (r : request)           (* fetch(url, { method: POST, ... }) *)
| HandoffSet (waId : json).                  (* handoff.set(waId, true) *)

Record response : Type := mkResponse {
  resp_status : Z;
  resp_text : option string                  (* r.text(); None when it rejects *)
}.

(** [r.ok]. *)
Definition resp_ok (r : response) : bool :=
  (200 <=? resp_status r) && (resp_status r <=? 299).

Inductive fetch_result : Type :=
| NetworkError (message : string)            (* fetch rejects *)
| Response (r : response).

Inductive exn : Type :=
| TypeError (message : string)
| SyntaxError (message : string)
| RangeError (message : string)
| FetchError (message : string).

Definition exn_message (e : exn) : string :=
  match e with
  | TypeError m | SyntaxError m | RangeError m | FetchError m => m
  end.

Inductive result (A : Type) : Type :=
| Ok (a : A)
| Thrown (e : exn).

Arguments Ok {A} a.
Arguments Thrown {A} e.

(** A [Buffer] is a handle into the store of buffer contents. *)
Definition buf : Type := nat.

Record state : Type := mkState {
  handoff : list (json * bool);              (* const handoff = new Map() *)
  buffers : list string;
  trace : list event                         (* oldest first *)
}.

Definition initial_state : state := mkState [] [] [].

(** A computation: a result, or an exception, and the state it leaves. *)
Definition M (A : Type) : Type := state -> result A * state.

Definition ret {A : Type} (a : A) : M A := fun st => (Ok a, st).

Definition throw {A : Type} (e : exn) : M A := fun st => (Thrown e, st).

Definition bind {A B : Type} (m : M A) (k : A -> M B) : M B :=
  fun st =>
    match m st with
    | (Ok a, st') => k a st'
    | (Thrown e, st') => (Thrown e, st')
    end.

(** [try { m } catch (e) { h e }]. *)
Definition try_catch {A : Type} (m : M A) (h : exn -> M A) : M A :=
  fun st =>
    match m st with
    | (Ok a, st') => (Ok a, st')
    | (Thrown e, st') => h e st'
    end.

Definition lift {A : Type} (r : result A) : M A := fun st => (r, st).

Declare Scope js_scope.
Delimit Scope js_scope with js.
Notation "x <- m ;; k" := (bind m (fun x => k))
  (at level 61, m at next level, right associativity) : js_scope.
Notation "m ;;; k" := (bind m (fun _ => k))
  (at level 61, right associativity) : js_scope.
Local Open Scope js_scope.

Definition emit (e : event) : M unit :=
  fun st => (Ok tt, mkState (handoff st) (buffers st) (trace st ++ [e])).

(** [res.sendStatus(status)]. *)
Definition sendStatus (status : Z) : M unit := emit (Respond status).

(** [Buffer.from(...)], and the buffer [bodyParser.raw] makes of a body. *)
Definition Buffer_alloc (contents : string) : M buf :=
  fun st =>
    (Ok (List.length (buffers st)),
     mkState (handoff st) (buffers st ++ [contents]) (trace st)).

Definition Buffer_read (b : buf) : M string :=
  fun st => (Ok (nth b (buffers st) EmptyString), st).

(** [handoff.get(waId)], read as a condition. *)
Fixpoint Map_get (k : json) (m : list (json * bool)) : bool :=
  match m with
  | [] => false
  | (k', v) :: r => if same_value_zero k' k then v else Map_get k r
  end.

Fixpoint Map_set (k : json) (v : bool) (m : list (json * bool))
  : list (json * bool) :=
  match m with
  | [] => [(k, v)]
  | (k', v') :: r =>
      if same_value_zero k' k then (k', v) :: r else (k', v') :: Map_set k v r
  end.

Definition handoff_get (waId : json) : M bool :=
  fun st => (Ok (Map_get waId (handoff st)), st).

Definition handoff_set (waId : json) : M unit :=
  fun st =>
    (Ok tt,
     mkState (Map_set waId true (handoff st)) (buffers st)
       (trace st ++ [HandoffSet waId])).

(** [for (const m of l) { body m }]. *)
Fixpoint for_of {A : Type} (l : list A) (body : A -> M unit) : M unit :=
  match l with
  | [] => ret tt
  | m :: r => body m ;;; for_of r body
  end.

(** A promise as [Promise.allSettled] sees it. *)
Definition settle {A : Type} (m : M A) : M (result A) :=
  fun st => let (r, st') := m st in (Ok r, st').

(** [Promise.allSettled([p1, ..., pn])]: the calls are made in order, each
    one up to its first await. *)
Fixpoint allSettled {A : Type} (ps : list (M A)) : M (list (result A)) :=
  match ps with
  | [] => ret []
  | p :: r => x <- settle p ;; xs <- allSettled r ;; ret (x :: xs)
  end.

(* ================================================================== *)
(** * Signatures *)

(** [crypto.timingSafeEqual]: throws when the lengths differ. *)
Definition timingSafeEqual (a b : string) : result bool :=
  if Nat.eqb (String.length a) (String.length b) then Ok (String.eqb a b)
  else Thrown (RangeError "Input buffers must have the same byte length").

Definition expected_signature (secret rawBody : string) : string :=
  "sha256=" ++
  Crypto.hex (Crypto.hmac_sha256 (bytes_of_string secret) (bytes_of_string rawBody)).

(* ================================================================== *)
(** * Sample configuration, events and networks

    The data on which the model is evaluated below. *)

Module Sample.

(** Every integration configured; the keywords are the default ones. *)
Definition config_all : config :=
  mkConfig
    (Some "verify-token") (Some "app-secret") (Some "perm-token") (Some "1050")
    (Some "https://chatwoot.example/webhooks/whatsapp") (Some "cw-token")
    (Some "https://n8n.example/webhook/ai/reply") None None None
    None
    (Some "https://3cx.example/webhook") (Some "2060") (Some "3cx-token")
    None None.

(** Only the mandatory variables. *)
Definition config_min : config :=
  mkConfig
    (Some "verify-token") (Some "app-secret") (Some "perm-token") (Some "1050")
    None None
    (Some "https://n8n.example/webhook/ai/reply") None None None
    None None None None None None.

(** [HANDOFF_KEYWORDS] set to a comma between two spaces. *)
Definition config_blank_keywords : config :=
  mkConfig
    (Some "verify-token") (Some "app-secret") (Some "perm-token") (Some "1050")
    None None
    (Some "https://n8n.example/webhook/ai/reply") None None None
    (Some " , ")
    None None None None None.

(** One text message, [hello]. *)
Definition hello_body : string :=
  json_text
    "{'entry':[{'changes':[{'value':{'messages':[{'type':'text','from':'15551234567','text':{'body':'hello'}}]}}]}]}".

(** The same first change, followed by a second change and a second entry
    that both hold a text message asking for a human. *)
Definition later_entries_body : string :=
  json_text
    "{'entry':[{'changes':[{'value':{'messages':[{'type':'text','from':'15551234567','text':{'body':'hello'}}]}},{'value':{'messages':[{'type':'text','from':'15550000002','text':{'body':'I need a human'}}]}}]},{'changes':[{'value':{'messages':[{'type':'text','from':'15550000003','text':{'body':'agent please'}}]}}]}]}".

(** A handoff request, then an ordinary message of the same sender. *)
Definition handoff_body : string :=
  json_text
    "{'entry':[{'changes':[{'value':{'messages':[{'type':'text','from':'15551234567','text':{'body':'I need a human'}},{'type':'text','from':'15551234567','text':{'body':'hello again'}}]}}]}]}".

(** Two text messages of two senders. *)
Definition two_senders_body : string :=
  json_text
    "{'entry':[{'changes':[{'value':{'messages':[{'type':'text','from':'15550000001','text':{'body':'first'}},{'type':'text','from':'15550000002','text':{'body':'second'}}]}}]}]}".

Definition signature_of (body : string) : string :=
  expected_signature "app-secret" body.

Definition hello_sig : string := Eval vm_compute in signature_of hello_body.
Definition later_entries_sig : string := Eval vm_compute in signature_of later_entries_body.
Definition handoff_sig : string := Eval vm_compute in signature_of handoff_body.
Definition two_senders_sig : string := Eval vm_compute in signature_of two_senders_body.

Definition ai_reply : string := json_text "{'reply':'hi there'}".

(** Every call is answered 200 with the reply of the AI backend. *)
Definition net_up (n : nat) : fetch_result :=
  Response (mkResponse 200 (Some ai_reply)).

(** As [net_up], but the call at position [n] of the trace meets a
    transport error. *)
Definition net_reset_at (n : nat) (pos : nat) : fetch_result :=
  if Nat.eqb pos n then NetworkError "ECONNRESET" else net_up pos.

(** As [net_up], but the call at position [n] is answered 500. *)
Definition net_500_at (n : nat) (pos : nat) : fetch_result :=
  if Nat.eqb pos n then Response (mkResponse 500 (Some "Internal Server Error"))
  else net_up pos.

(** The outbound calls of a trace, by purpose. *)
Definition calls (t : list event) : list purpose :=
  flat_map (fun e => match e with Call p _ => [p] | _ => [] end) t.

Definition sender1 : json := JString "15550000001".
Definition sender2 : json := JString "15550000002".
Definition user : json := JString "15551234567".


(** A body that is not JSON. *)
Definition plain_body : string := "ping".

(** One message that is not a text message. *)
Definition image_body : string :=
  json_text
    "{'entry':[{'changes':[{'value':{'messages':[{'type':'image','from':'15551234567','image':{'id':'77'}}]}}]}]}".

(** An image message, a [null], and a text message. *)
Definition null_message_body : string :=
  json_text
    "{'entry':[{'changes':[{'value':{'messages':[{'type':'image','from':'15551234567'},null,{'type':'text','from':'15551234567','text':{'body':'hello'}}]}}]}]}".

Definition plain_sig : string := Eval vm_compute in signature_of plain_body.
Definition null_message_sig : string := Eval vm_compute in signature_of null_message_body.
Definition image_sig : string := Eval vm_compute in signature_of image_body.

(** The two messages of [handoff_body]. *)
Definition human_message : json :=
  JObject [("type", JString "text"); ("from", JString "15551234567");
           ("text", JObject [("body", JString "I need a human")])].

Definition again_message : json :=
  JObject [("type", JString "text"); ("from", JString "15551234567");
           ("text", JObject [("body", JString "hello again")])].

(** The mandatory variables and the credentials of the AI backend. *)
Definition config_auth : config :=
  mkConfig
    (Some "verify-token") (Some "app-secret") (Some "perm-token") (Some "1050")
    None None
    (Some "https://n8n.example/webhook/ai/reply") None (Some "user") (Some "pass")
    None None None None None None.

End Sample.

(* ================================================================== *)
(** * The program

    [JSON.parse], [JSON.stringify] and the conversion of a number to a
    string belong to the JS runtime and are parameters of the model, with
    the configuration and the network. *)

Section Program.

Variable JSON_parse : string -> option json.    (* None: SyntaxError *)
Variable JSON_stringify : json -> string.
Variable Number_toString : float -> string.
Variable cfg : config.
Variable net : nat -> fetch_result.

(** [ToString], as a template literal applies it. *)
Fixpoint ToString (v : json) : string :=
  match v with
  | JNull => "null"
  | JBool true => "true"
  | JBool false => "false"
  | JNumber x => Number_toString x
  | JString s => s
  | JArray l =>
      str_join ","
        (map (fun x => match x with JNull => EmptyString | _ => ToString x end) l)
  | JObject _ => "[object Object]"
  end.

Definition parse (s : string) : M json :=
  match JSON_parse s with
  | Some v => ret v
  | None => throw (SyntaxError "Unexpected token in JSON")
  end.

(** [await fetch(url, { method: POST, headers, body })]: the call is
    recorded, and its outcome is the one the network gives to the call at
    this position of the trace. *)
Definition fetch (p : purpose) (r : request) : M response :=
  fun st =>
    let st' := mkState (handoff st) (buffers st) (trace st ++ [Call p r]) in
    match net (List.length (trace st)) with
    | NetworkError m => (Thrown (FetchError m), st')
    | Response resp => (Ok resp, st')
    end.

(** [await r.text()]. *)
Definition text_of (r : response) : M string :=
  match resp_text r with
  | Some t => ret t
  | None => throw (FetchError "body stream error")
  end.

(** [v.k] where [v] may be [null]. *)
Definition strict_member (v : json) (k : string) : M value :=
  match v with
  | JNull => throw (TypeError "Cannot read properties of null")
  | _ => ret (member v k)
  end.

(* ------------------------------------------------------------------ *)
(** ** Signature verification *)

Definition verifySignature (rawBody : string) (headerSig : option string)
  : result bool :=
  if negb (opt_truthy headerSig) || negb (opt_truthy (META_APP_SECRET cfg))
  then Ok false
  else
    let expected := expected_signature (env_str (META_APP_SECRET cfg)) rawBody in
    match timingSafeEqual (env_str headerSig) expected with
    | Ok b => Ok b
    | Thrown _ => Ok false
    end.

(* ------------------------------------------------------------------ *)
(** ** Helpers shared by the three variants *)

Definition content_type : string * string := ("Content-Type", "application/json").

Definition maybeAuthHeader : list (string * string) :=
  if opt_truthy (N8N_BASIC_USER cfg) && opt_truthy (N8N_BASIC_PASS cfg) then
    [("Authorization",
      "Basic " ++
      base64 (bytes_of_string
                (env_str (N8N_BASIC_USER cfg) ++ ":" ++ env_str (N8N_BASIC_PASS cfg))))]
  else [].

(** What [forwardRawJSON] resolves to: [{skipped: true}], [{ok: true}],
    [{ok: false, status}] or [{ok: false, error}]. *)
Inductive forward_result : Type :=
| Skipped
| Delivered
| FailedStatus (status : Z)
| FailedError (message : string).

Definition forwardRawJSON (url : option string) (rawBody : buf)
    (extraHeaders : list (string * string)) : M forward_result :=
  if negb (opt_truthy url) then ret Skipped
  else
    try_catch
      (body <- Buffer_read rawBody ;;
       r <- fetch PForward
              (mkRequest (env_str url) (content_type :: extraHeaders) body) ;;
       if negb (resp_ok r) then
         t <- text_of r ;;
         ret (FailedStatus (resp_status r))
       else ret Delivered)
      (fun e => ret (FailedError (exn_message e))).

Definition graph_url (phoneNumberId : option string) : string :=
  "https://graph.facebook.com/v21.0/" ++ env_str phoneNumberId ++ "/messages".

Definition bearer (token : option string) : string * string :=
  ("Authorization", "Bearer " ++ env_str token).

(** [sendWaText] in [Basic] and [Summary], [sendWaTextFromMain] in
    [Bridge]. *)
Definition sendWaText (waId : json) (body : json) : M unit :=
  let payload :=
    JObject [("messaging_product", JString "whatsapp"); ("to", waId);
             ("type", JString "text"); ("text", JObject [("body", body)])] in
  r <- fetch (PSendText waId body)
         (mkRequest (graph_url (META_PHONE_NUMBER_ID cfg))
            [bearer (META_PERM_TOKEN cfg); content_type]
            (JSON_stringify payload)) ;;
  if negb (resp_ok r) then
    err <- text_of r ;;
    ret tt
  else ret tt.

(** [getAIReply({ waId, text })]: the reply, or [None] for [null]. *)
Definition getAIReply (waId : json) (text : string) : M value :=
  try_catch
    (r <- fetch (PAIReply waId text)
            (mkRequest (env_str (OPENAI_ENDPOINT cfg))
               (content_type :: maybeAuthHeader)
               (JSON_stringify (JObject [("waId", waId); ("text", JString text)]))) ;;
     bodyText <- text_of r ;;
     if negb (resp_ok r) then ret None
     else
       data <- parse bodyText ;;
       reply <- strict_member data "reply" ;;
       ret (if truthy reply then reply else None))
    (fun e => ret None).

(** [(m.text?.body || "").trim()]: only a string has [trim]. *)
Definition message_text (m : json) : M string :=
  let body := opt_member (member m "text") "body" in
  if truthy body then
    match body with
    | Some (JString s) => ret (trim s)
    | _ => throw (TypeError "trim is not a function")
    end
  else ret (trim EmptyString).

(** [payload?.entry?.[0]?.changes?.[0]?.value?.messages || []], then what
    [for ... of] iterates over: the elements of an array, the characters of
    a string; anything else is not iterable. *)
Definition messages_of (payload : json) : M (list json) :=
  let messages := first_change_messages payload in
  if truthy messages then
    match messages with
    | Some (JArray l) => ret l
    | Some (JString s) =>
        ret (map (fun c => JString (String c EmptyString)) (list_ascii_of_string s))
    | _ => throw (TypeError "messages is not iterable")
    end
  else ret [].

(** The start of every loop body: the sender and the text of a text
    message, or [None] when the loop continues with the next message. *)
Definition text_message (m : json) : M (option (json * string)) :=
  type <- strict_member m "type" ;;
  if negb (is_string type "text") then ret None
  else
    let waId := member m "from" in
    text <- message_text m ;;
    if negb (truthy waId) || negb (str_truthy text) then ret None
    else
      match waId with
      | Some w => ret (Some (w, text))
      | None => ret None
      end.

Definition chatwoot_headers : list (string * string) :=
  if opt_truthy (CHATWOOT_WEBHOOK_TOKEN cfg) then
    [("X-Chatwoot-Webhook-Token", env_str (CHATWOOT_WEBHOOK_TOKEN cfg))]
  else [].

(** [if (reply) await sendWaText(waId, reply)]. *)
Definition send_reply (waId : json) (reply : value) : M unit :=
  if truthy reply then
    match reply with
    | Some body => sendWaText waId body
    | None => ret tt
    end
  else ret tt.

(** The AI path of [Bridge] and [Summary]:
    [if (!handoff.get(waId)) { reply = await getAIReply(...); if (reply) ... }]. *)
Definition ai_control_path (waId : json) (text : string) : M unit :=
  in_handoff <- handoff_get waId ;;
  if negb in_handoff then
    reply <- getAIReply waId text ;;
    send_reply waId reply
  else ret tt.

(* ------------------------------------------------------------------ *)
(** ** [Basic]: src/server.js *)

Definition basic_message (m : json) : M unit :=
  tm <- text_message m ;;
  match tm with
  | None => ret tt
  | Some (waId, text) =>
      reply <- getAIReply waId text ;;
      send_reply waId reply
  end.

(** The handler [app.post("/wa", ...)] in three parts: the verification
    and the response; the forward to Chatwoot, not awaited; the parsing of
    the payload and the loop over its messages. *)

Definition basic_fan_out (raw : buf) : M unit :=
  if opt_truthy (CHATWOOT_WEBHOOK_URL cfg) then
    try_catch
      (forwardRawJSON (CHATWOOT_WEBHOOK_URL cfg) raw chatwoot_headers ;;; ret tt)
      (fun _ => ret tt)
  else ret tt.

Definition basic_route (raw : buf) : M unit :=
  text <- Buffer_read raw ;;
  match JSON_parse text with
  | None => ret tt
  | Some payload =>
      messages <- messages_of payload ;;
      for_of messages basic_message
  end.

(** [body] is the raw request body, of which [bodyParser.raw] makes the
    buffer [req.body]. *)
Definition basic_post_wa (sig : option string) (body : string) : M unit :=
  raw <- Buffer_alloc body ;;
  rawBytes <- Buffer_read raw ;;
  verified <- lift (verifySignature rawBytes sig) ;;
  if negb verified then sendStatus 401
  else
    sendStatus 200 ;;;
    basic_fan_out raw ;;;
    basic_route raw.

(* ------------------------------------------------------------------ *)
(** ** [Bridge]: src/unnamed/part_002, first file *)

(** The condition of the loop of [injectSummaryIntoPayload]:
    [m?.type === "text" && m?.text?.body]. *)
Definition injectable (m : json) : bool :=
  is_string (opt_member (Some m) "type") "text"
  && truthy (opt_member (opt_member (Some m) "text") "body").

Definition annotation (placeholderSummary : string) : string :=
  LF ++ LF ++ "---" ++ LF ++ "[Summary for agents]" ++ LF ++ placeholderSummary.

(** [m.text.body = `${m.text.body}...`]. *)
Definition annotate (placeholderSummary : string) (m : json) : json :=
  match member m "text" with
  | Some t =>
      match member t "body" with
      | Some b =>
          set_member m "text"
            (set_member t "body"
               (JString (ToString b ++ annotation placeholderSummary)))
      | None => m
      end
  | None => m
  end.

(** The loop: the first message that qualifies is annotated, and the loop
    breaks. *)
Fixpoint annotate_first (placeholderSummary : string) (l : list json) : list json :=
  match l with
  | [] => []
  | m :: r =>
      if injectable m then annotate placeholderSummary m :: r
      else m :: annotate_first placeholderSummary r
  end.

(** The assignment is made in place to a message reached from [obj] by
    [entry[0].changes[0].value.messages]; [obj] is a tree, so the effect on
    [obj] is the update of that path. *)
Definition set_first_change_messages (obj : json) (msgs : json) : json :=
  match member obj "entry" with
  | None => obj
  | Some entry =>
  match index0 entry with
  | None => obj
  | Some entry0 =>
  match member entry0 "changes" with
  | None => obj
  | Some changes =>
  match index0 changes with
  | None => obj
  | Some change0 =>
  match member change0 "value" with
  | None => obj
  | Some v =>
      set_member obj "entry"
        (set_index0 entry
           (set_member entry0 "changes"
              (set_index0 changes
                 (set_member change0 "value" (set_member v "messages" msgs)))))
  end end end end end.

(** What the function does to the parsed payload [obj]. *)
Definition annotate_payload (placeholderSummary : string) (obj : json) : json :=
  match first_change_messages obj with
  | Some (JArray l) =>
      set_first_change_messages obj (JArray (annotate_first placeholderSummary l))
  | _ => obj
  end.

Definition injectSummaryIntoPayload (rawBuffer : buf) (placeholderSummary : string)
  : M buf :=
  try_catch
    (s <- Buffer_read rawBuffer ;;
     obj <- parse s ;;
     Buffer_alloc (JSON_stringify (annotate_payload placeholderSummary obj)))
    (fun e => ret rawBuffer).

Definition sendTemplateFrom3cxNumber (to : json) : M bool :=
  if negb (opt_truthy (THREE_CX_META_PHONE_NUMBER_ID cfg))
     || negb (opt_truthy (THREE_CX_META_PERM_TOKEN cfg))
  then ret false
  else
    let url := graph_url (THREE_CX_META_PHONE_NUMBER_ID cfg) in
    let headers := [bearer (THREE_CX_META_PERM_TOKEN cfg); content_type] in
    sent <-
      (if str_truthy (HANDOFF_TEMPLATE_NAME cfg) then
         let lang :=
           if str_truthy (HANDOFF_TEMPLATE_LANG cfg)
           then HANDOFF_TEMPLATE_LANG cfg else "en" in
         let payload :=
           JObject [("messaging_product", JString "whatsapp"); ("to", to);
                    ("type", JString "template");
                    ("template",
                     JObject [("name", JString (HANDOFF_TEMPLATE_NAME cfg));
                              ("language", JObject [("code", JString lang)])])] in
         r <- fetch (PSendTemplate to) (mkRequest url headers (JSON_stringify payload)) ;;
         if negb (resp_ok r) then
           err <- text_of r ;;
           ret false
         else ret true
       else ret false) ;;
    if sent then ret true
    else
      let payload :=
        JObject [("messaging_product", JString "whatsapp"); ("to", to);
                 ("type", JString "text");
                 ("text", JObject [("body", JString "A human will assist you shortly.")])] in
      r <- fetch (PSendWindowText to) (mkRequest url headers (JSON_stringify payload)) ;;
      if negb (resp_ok r) then
        err <- text_of r ;;
        ret false
      else ret true.

Definition bridge_message (raw : buf) (m : json) : M unit :=
  tm <- text_message m ;;
  match tm with
  | None => ret tt
  | Some (waId, text) =>
      if RegExp_test (handoffRegex cfg) text then
        handoff_set waId ;;;
        (if opt_truthy (THREE_CX_WEBHOOK_URL cfg) then
           injectedRaw <- injectSummaryIntoPayload raw "this is the summary" ;;
           forwardRawJSON (THREE_CX_WEBHOOK_URL cfg) injectedRaw [] ;;;
           ret tt
         else ret tt) ;;;
        ok <- sendTemplateFrom3cxNumber waId ;;
        ret tt
      else ai_control_path waId text
  end.

Definition bridge_fan_out (raw : buf) : M unit :=
  try_catch
    (allSettled
       [forwardRawJSON (CHATWOOT_WEBHOOK_URL cfg) raw chatwoot_headers] ;;;
     ret tt)
    (fun _ => ret tt).

Definition bridge_route (raw : buf) : M unit :=
  text <- Buffer_read raw ;;
  match JSON_parse text with
  | None => ret tt
  | Some payload =>
      messages <- messages_of payload ;;
      for_of messages (bridge_message raw)
  end.

Definition bridge_post_wa (sig : option string) (body : string) : M unit :=
  raw <- Buffer_alloc body ;;
  rawBytes <- Buffer_read raw ;;
  verified <- lift (verifySignature rawBytes sig) ;;
  if negb verified then sendStatus 401
  else
    sendStatus 200 ;;;
    bridge_fan_out raw ;;;
    bridge_route raw.

(* ------------------------------------------------------------------ *)
(** ** [Summary]: src/unnamed/part_002, second file *)

Definition summary_unavailable : json := JString "Summary not available.".

Definition getAISummary (waId : json) : M json :=
  if negb (opt_truthy (OPENAI_SUMMARY_ENDPOINT cfg)) then ret summary_unavailable
  else
    try_catch
      (r <- fetch (PAISummary waId)
              (mkRequest (env_str (OPENAI_SUMMARY_ENDPOINT cfg))
                 (content_type :: maybeAuthHeader)
                 (JSON_stringify (JObject [("waId", waId)]))) ;;
       txt <- text_of r ;;
       if negb (resp_ok r) then ret summary_unavailable
       else
         data <- parse txt ;;
         summary <- strict_member data "summary" ;;
         ret (if truthy summary
              then match summary with Some s => s | None => summary_unavailable end
              else summary_unavailable))
      (fun e => ret summary_unavailable).

(** The text of the first handoff message, with the bytes the source file
    holds between its two halves. *)
Definition connecting_notice : string :=
  "Okay " ++
  string_of_list_ascii
    (map ascii_of_byte [0xC3; 0xA2; 0xE2; 0x82; 0xAC; 0xE2; 0x80; 0x9D]) ++
  " connecting you with a human.".

Definition summary_message (m : json) : M unit :=
  tm <- text_message m ;;
  match tm with
  | None => ret tt
  | Some (waId, text) =>
      if RegExp_test (handoffRegex cfg) text then
        handoff_set waId ;;;
        sendWaText waId (JString connecting_notice) ;;;
        summary <- getAISummary waId ;;
        sendWaText waId (JString ("Summary so far:" ++ LF ++ ToString summary)) ;;;
        ret tt
      else ai_control_path waId text
  end.

Definition summary_fan_out (raw : buf) : M unit :=
  try_catch
    (allSettled
       [forwardRawJSON (THREE_CX_WEBHOOK_URL cfg) raw [];
        forwardRawJSON (CHATWOOT_WEBHOOK_URL cfg) raw chatwoot_headers] ;;;
     ret tt)
    (fun _ => ret tt).

Definition summary_route (raw : buf) : M unit :=
  text <- Buffer_read raw ;;
  match JSON_parse text with
  | None => ret tt
  | Some payload =>
      messages <- messages_of payload ;;
      for_of messages summary_message
  end.

Definition summary_post_wa (sig : option string) (body : string) : M unit :=
  raw <- Buffer_alloc body ;;
  rawBytes <- Buffer_read raw ;;
  verified <- lift (verifySignature rawBytes sig) ;;
  if negb verified then sendStatus 401
  else
    sendStatus 200 ;;;
    summary_fan_out raw ;;;
    summary_route raw.

(** The events of a run of the process: requests handled one after the
    other by the same handler, on the same [handoff] map. *)
Fixpoint serve (handler : option string -> string -> M unit)
    (requests : list (option string * string)) (st : state) : state :=
  match requests with
  | [] => st
  | (sig, body) :: r => serve handler r (snd (handler sig body st))
  end.

(* ------------------------------------------------------------------ *)
(** ** The two [GET] routes, the same in the three variants *)

(** A value of [req.query]: a string or, for a parameter that is repeated
    or written with brackets, an array or an object. *)
Inductive qvalue : Type :=
| QString (s : string)
| QArray (elems : list qvalue)
| QObject (props : list (string * qvalue)).

(** [req.query]. *)
Definition query : Type := list (string * qvalue).

(** [req.query[k]]. *)
Fixpoint query_get (k : string) (q : query) : option qvalue :=
  match q with
  | [] => None
  | (k', v) :: r => if String.eqb k' k then Some v else query_get k r
  end.

(** [v === s] for a value of the query and a string or [undefined]:
    [undefined] equals itself, a string equals the same string, and an
    array or an object equals neither. *)
Definition strict_equal (v : option qvalue) (s : option string) : bool :=
  match v, s with
  | None, None => true
  | Some (QString a), Some b => String.eqb a b
  | _, _ => false
  end.

(** What a route hands to the response: [res.sendStatus(status)], or
    [res.status(status).send(body)]. *)
Inductive reply : Type :=
| ReplyStatus (status : Z)
| ReplySend (status : Z) (body : option qvalue).

(** [app.get("/healthz", ...)]. *)
Definition get_healthz : reply := ReplySend 200 (Some (QString "ok")).

(** [app.get("/wa", ...)]: the verification of the webhook. *)
Definition get_wa (q : query) : reply :=
  let mode := query_get "hub.mode" q in
  let token := query_get "hub.verify_token" q in
  let challenge := query_get "hub.challenge" q in
  if strict_equal mode (Some "subscribe") && strict_equal token (VERIFY_TOKEN cfg)
  then ReplySend 200 challenge
  else ReplyStatus 403.

(* ================================================================== *)
(** * The vocabulary of the properties *)

Local Open Scope list_scope.

(** One byte of [a] replaced by a different byte gives [b]. *)
Definition single_byte_mutation (a b : string) : Prop :=
  exists (pre : string) (c c' : ascii) (post : string),
    a = (pre ++ String c post)%string /\ b = (pre ++ String c' post)%string /\ c <> c'.

Definition preserves {A : Type} (R : state -> state -> Prop) (m : M A) : Prop :=
  forall st, R st (snd (m st)).

(** The state after further events. *)
Definition add_events (t : list event) (st : state) : state :=
  mkState (handoff st) (buffers st) (trace st ++ t).

(** [grows Q st st']: from [st] to [st'] buffers were only added, and the
    trace was extended by events that satisfy [Q]. *)
Definition grows (Q : event -> Prop) (st st' : state) : Prop :=
  (exists b, buffers st' = buffers st ++ b)%list /\
  (exists t, trace st' = trace st ++ t /\ Forall Q t)%list.

(** The state in which the handler continues after [res.sendStatus(200)]:
    the request body is in a new buffer and the response is on the trace. *)
Definition after_ack (body : string) (st : state) : state :=
  mkState (handoff st) (buffers st ++ [body]) (trace st ++ [Respond 200]).

Definition rejected (body : string) (st : state) : state :=
  mkState (handoff st) (buffers st ++ [body]) (trace st ++ [Respond 401]).

Definition not_response (e : event) : Prop := forall status, e <> Respond status.

(** The response 200 is the first event the handler adds, and the only
    response. *)
Definition acknowledged_first (st st' : state) : Prop :=
  exists t, trace st' = trace st ++ Respond 200 :: t /\ Forall not_response t.

(** What [forwardRawJSON] makes of the outcome of its call. *)
Definition forward_outcome (fr : fetch_result) : forward_result :=
  match fr with
  | NetworkError m => FailedError m
  | Response r =>
      if resp_ok r then Delivered
      else
        match resp_text r with
        | Some _ => FailedStatus (resp_status r)
        | None => FailedError "body stream error"
        end
  end.

Definition forward_call (url : option string) (extraHeaders : list (string * string))
    (body : string) : event :=
  Call PForward (mkRequest (env_str url) (content_type :: extraHeaders) body).

(** A fan-out target: its URL and its extra headers. *)
Definition target : Type := option string * list (string * string).

(** [Promise.allSettled] over one [forwardRawJSON] per target. *)
Definition fan_out (targets : list target) (raw : buf)
  : M (list (result forward_result)) :=
  allSettled (map (fun t => forwardRawJSON (fst t) raw (snd t)) targets).

(** Is the event a call to the AI backend for the conversation [k]?  Is it
    the setting of the flag of [k]? *)
Definition is_ai_call_for (k : string) (e : event) : bool :=
  match e with
  | Call (PAIReply (JString s) _) _ => String.eqb s k
  | _ => false
  end.

Definition is_handoff_set (k : string) (e : event) : bool :=
  match e with
  | HandoffSet (JString s) => String.eqb s k
  | _ => false
  end.

(** Reads a trace from a state in which the flag of [k] is [flag]: [None]
    if the AI backend is called for [k] while the flag is set, the flag at
    the end otherwise. *)
Fixpoint obeys (k : string) (flag : bool) (t : list event) : option bool :=
  match t with
  | [] => Some flag
  | e :: t' =>
      if flag && is_ai_call_for k e then None
      else obeys k (flag || is_handoff_set k e) t'
  end.

Definition handoff_respected (k : string) (st st' : state) : Prop :=
  exists t,
    trace st' = trace st ++ t /\
    obeys k (Map_get (JString k) (handoff st)) t
    = Some (Map_get (JString k) (handoff st')).

(** Over any sequence of requests: once the flag of a conversation is set,
    at the start or by an event of the run, it is set at the end, and no
    later event of the run is a call to the AI backend for that
    conversation. *)
Definition handoff_is_final (handler : option string -> string -> M unit) : Prop :=
  forall (requests : list (option string * string)) (st : state) (waId : string),
    let st' := serve handler requests st in
    (Map_get (JString waId) (handoff st) = true ->
     Map_get (JString waId) (handoff st') = true)
    /\ (forall t1 t2,
          trace st' = trace st ++ t1 ++ t2 ->
          Map_get (JString waId) (handoff st) = true
          \/ In (HandoffSet (JString waId)) t1 ->
          Map_get (JString waId) (handoff st') = true
          /\ forall text r, ~ In (Call (PAIReply (JString waId) text) r) t2).

(** Does the first change of the first entry hold a message that the
    injector annotates (a text message with a body)? *)
Definition has_text_message (obj : json) : bool :=
  match first_change_messages obj with
  | Some (JArray l) => existsb injectable l
  | _ => false
  end.

(** The bytes of the buffer a computation returns. *)
Definition returned_bytes (r : result buf * state) : option string :=
  match fst r with
  | Ok b => Some (nth b (buffers (snd r)) EmptyString)
  | Thrown _ => None
  end.

(** The call [forwardRawJSON] makes, if the target has a URL. *)
Definition forward_events (url : option string) (extraHeaders : list (string * string))
    (body : string) : list event :=
  if opt_truthy url then [forward_call url extraHeaders body] else [].

Definition not_forward (e : event) : Prop := forall r, e <> Call PForward r.

(** A forward, if the event is one, goes to the 3CX webhook and carries no
    extra header. *)
Definition bridge_forward_only (e : event) : Prop :=
  forall r,
    e = Call PForward r ->
    req_url r = env_str (THREE_CX_WEBHOOK_URL cfg) /\ req_headers r = [content_type].

(** An event without the bytes it forwards. *)
Definition forget_body (e : event) : event :=
  match e with
  | Call PForward r => Call PForward (mkRequest (req_url r) (req_headers r) EmptyString)
  | _ => e
  end.

Definition parses (s : string) : bool :=
  match JSON_parse s with Some _ => true | None => false end.

(** Two states of two runs that differ at most in the contents of their
    buffers and in the bytes forwarded so far; [raw] is the request buffer
    of both. *)
Record similar (raw : buf) (st1 st2 : state) : Prop := mkSimilar {
  sim_handoff : handoff st1 = handoff st2;
  sim_buffers : List.length (buffers st1) = List.length (buffers st2);
  sim_trace : map forget_body (trace st1) = map forget_body (trace st2);
  sim_raw : (raw < List.length (buffers st1))%nat;
  sim_parses :
    parses (nth raw (buffers st1) EmptyString)
    = parses (nth raw (buffers st2) EmptyString)
}.

(** The same computation, run from similar states, gives the same result
    and similar states. *)
Definition agrees {A : Type} (raw : buf) (m : M A) : Prop :=
  forall st1 st2,
    similar raw st1 st2 ->
    fst (m st1) = fst (m st2) /\ similar raw (snd (m st1)) (snd (m st2)).

(** Two runs of a handler that route alike: same outcome, same flags, same
    events up to the bytes forwarded. *)
Definition same_routing (r1 r2 : result unit * state) : Prop :=
  fst r1 = fst r2
  /\ handoff (snd r1) = handoff (snd r2)
  /\ map forget_body (trace (snd r1)) = map forget_body (trace (snd r2)).

(* ------------------------------------------------------------------ *)
(** ** Messages and networks *)

(** A message over which the loops pass at once: it is not [null], and its
    [type] is not [text]. *)
Definition not_text (m : json) : bool :=
  match m with
  | JNull => false
  | _ => negb (is_string (member m "type") "text")
  end.

(** A payload whose first change holds no text message: no messages at
    all, or messages that are all passed over. *)
Definition carries_no_text (payload : json) : bool :=
  match first_change_messages payload with
  | Some (JArray l) => forallb not_text l
  | Some (JString _) => true
  | v => negb (truthy v)
  end.

(** The state in which a handler that only mirrors the event ends: the
    acknowledgment, then the forwards [fan] of the fan-out. *)
Definition mirrored (fan : list event) (body : string) (st : state) : state :=
  add_events fan (after_ack body st).

(** The call is answered, with any status, and the body of the answer can
    be read. *)
Definition answered (fr : fetch_result) : Prop :=
  exists r t, fr = Response r /\ resp_text r = Some t.

(** A message on which the start of the loop body raises no [TypeError]:
    it is not [null] and, if it is a text message with a body, the body is
    a string. *)
Definition well_typed (m : json) : bool :=
  match m with
  | JNull => false
  | _ =>
      negb (is_string (member m "type") "text")
      || match opt_member (member m "text") "body" with
         | Some (JString _) => true
         | body => negb (truthy body)
         end
  end.

(** The computation returns, with a value that satisfies [P], from every
    state. *)
Definition yields {A : Type} (P : A -> Prop) (m : M A) : Prop :=
  forall st, exists a, fst (m st) = Ok a /\ P a.

(* ------------------------------------------------------------------ *)
(** ** Whom an event concerns *)

(** The conversation an event is about: the recipient of a send, the
    subject of a call to the AI or to the summary backend, the key of a
    write to the handoff map.  A response and a forward are about none. *)
Definition addressee (e : event) : option json :=
  match e with
  | HandoffSet w => Some w
  | Call (PAIReply w _) _ => Some w
  | Call (PAISummary w) _ => Some w
  | Call (PSendText w _) _ => Some w
  | Call (PSendTemplate w) _ => Some w
  | Call (PSendWindowText w) _ => Some w
  | _ => None
  end.

(** [m] is a text message of the sender [w], a value that is not falsy,
    and its body is the string [s], which is not blank. *)
Definition text_message_from (m w : json) (s : string) : Prop :=
  is_string (member m "type") "text" = true
  /\ member m "from" = Some w
  /\ truthy (Some w) = true
  /\ opt_member (member m "text") "body" = Some (JString s)
  /\ trim s <> EmptyString.

(** The body parses, and [l] is the array of the messages of the first
    change of its first entry. *)
Definition routed_messages (body : string) (l : list json) : Prop :=
  exists payload,
    JSON_parse body = Some payload
    /\ first_change_messages payload = Some (JArray l).

(** The event, if it is about a conversation, is about the sender of a
    text message of the body; if it is a call to the AI backend, it carries
    the trimmed text of that message; if it is a write to the handoff map,
    the classifier matches that text. *)
Definition attributed (body : string) (e : event) : Prop :=
  forall w,
    addressee e = Some w ->
    exists l m s,
      routed_messages body l /\ In m l /\ text_message_from m w s
      /\ (forall text r, e = Call (PAIReply w text) r -> text = trim s)
      /\ (e = HandoffSet w -> RegExp_test (handoffRegex cfg) (trim s) = true).

(** The same, for one message. *)
Definition from_message (m : json) (e : event) : Prop :=
  forall w,
    addressee e = Some w ->
    exists s,
      text_message_from m w s
      /\ (forall text r, e = Call (PAIReply w text) r -> text = trim s)
      /\ (e = HandoffSet w -> RegExp_test (handoffRegex cfg) (trim s) = true).

(** The event, if it is about a conversation, is about [w]; if it is a
    call to the AI backend, it carries [text]; if it is a write to the
    handoff map, the classifier matches [text]. *)
Definition about (w : json) (text : string) (e : event) : Prop :=
  forall w',
    addressee e = Some w' ->
    w' = w
    /\ (forall t r, e = Call (PAIReply w' t) r -> t = text)
    /\ (e = HandoffSet w' -> RegExp_test (handoffRegex cfg) text = true).

(* ------------------------------------------------------------------ *)
(** ** The calls of the helpers *)

(** The call [getAIReply] makes for the sender [w] and the text [text]. *)
Definition ai_call (w : json) (text : string) : event :=
  Call (PAIReply w text)
    (mkRequest (env_str (OPENAI_ENDPOINT cfg)) (content_type :: maybeAuthHeader)
       (JSON_stringify (JObject [("waId", w); ("text", JString text)]))).

(** The call [sendWaText] makes to send [body] to [w]. *)
Definition send_call (w body : json) : event :=
  Call (PSendText w body)
    (mkRequest (graph_url (META_PHONE_NUMBER_ID cfg))
       [bearer (META_PERM_TOKEN cfg); content_type]
       (JSON_stringify
          (JObject [("messaging_product", JString "whatsapp"); ("to", w);
                    ("type", JString "text"); ("text", JObject [("body", body)])]))).

(** The call [getAISummary] makes for [w]. *)
Definition summary_call (w : json) : event :=
  Call (PAISummary w)
    (mkRequest (env_str (OPENAI_SUMMARY_ENDPOINT cfg)) (content_type :: maybeAuthHeader)
       (JSON_stringify (JObject [("waId", w)]))).

(** The two calls of [sendTemplateFrom3cxNumber]: the template, and the
    free-form text. *)
Definition template_call (to : json) : event :=
  Call (PSendTemplate to)
    (mkRequest (graph_url (THREE_CX_META_PHONE_NUMBER_ID cfg))
       [bearer (THREE_CX_META_PERM_TOKEN cfg); content_type]
       (JSON_stringify
          (JObject [("messaging_product", JString "whatsapp"); ("to", to);
                    ("type", JString "template");
                    ("template",
                     JObject
                       [("name", JString (HANDOFF_TEMPLATE_NAME cfg));
                        ("language",
                         JObject
                           [("code",
                             JString
                               (if str_truthy (HANDOFF_TEMPLATE_LANG cfg)
                                then HANDOFF_TEMPLATE_LANG cfg else "en"))])])]))).

Definition window_text_call (to : json) : event :=
  Call (PSendWindowText to)
    (mkRequest (graph_url (THREE_CX_META_PHONE_NUMBER_ID cfg))
       [bearer (THREE_CX_META_PERM_TOKEN cfg); content_type]
       (JSON_stringify
          (JObject [("messaging_product", JString "whatsapp"); ("to", to);
                    ("type", JString "text");
                    ("text",
                     JObject [("body", JString "A human will assist you shortly.")])]))).

(** What a send makes of the outcome of its call: it throws on a
    transport error and when the body of an error response cannot be
    read. *)
Definition send_outcome (fr : fetch_result) : result bool :=
  match fr with
  | NetworkError m => Thrown (FetchError m)
  | Response r =>
      if resp_ok r then Ok true
      else
        match resp_text r with
        | Some _ => Ok false
        | None => Thrown (FetchError "body stream error")
        end
  end.

Definition is_ai_call (e : event) : bool :=
  match e with Call (PAIReply _ _) _ => true | _ => false end.

Definition is_forward (e : event) : bool :=
  match e with Call PForward _ => true | _ => false end.

Definition is_flag_write (e : event) : bool :=
  match e with HandoffSet _ => true | _ => false end.

(** How many events of a trace satisfy [f]. *)
Definition count (f : event -> bool) (t : list event) : nat :=
  List.length (filter f t).

(** One of the two calls that open the window of [to]. *)
Definition window_event (to : json) (e : event) : Prop :=
  e = template_call to \/ e = window_text_call to.

(** Are the two settings of the 3CX sender number present? *)
Definition window_credentials : bool :=
  opt_truthy (THREE_CX_META_PHONE_NUMBER_ID cfg)
  && opt_truthy (THREE_CX_META_PERM_TOKEN cfg).

(** From [st] to [st'] the 3CX webhook was forwarded to as many times as
    the handoff map was written to, if the webhook is configured, and never
    otherwise. *)
Definition balanced (st st' : state) : Prop :=
  exists t,
    trace st' = trace st ++ t
    /\ count is_forward t
       = if opt_truthy (THREE_CX_WEBHOOK_URL cfg) then count is_flag_write t else 0%nat.

(* ------------------------------------------------------------------ *)
(** ** Keywords *)

(** The keywords of which [handoffRegex] is the alternation: the entries
    of the configured list, trimmed, without the empty ones. *)
Definition configured_keywords : list string :=
  filter str_truthy (map trim (str_split "," (HANDOFF_KEYWORDS cfg))).

(** The characters that a pattern does not read literally. *)
Definition is_meta (c : ascii) : bool :=
  existsb (Ascii.eqb c) (list_ascii_of_string "\^$.|?*+()[]{}").

(** A keyword that the pattern reads literally, and whose letters fold as
    the model folds them: ASCII characters, none of them special in a
    pattern. *)
Fixpoint literal_keyword (s : string) : bool :=
  match s with
  | EmptyString => true
  | String c r => (byte_of_ascii c <? 128) && negb (is_meta c) && literal_keyword r
  end.

(** Does the character occur in the string? *)
Fixpoint has_char (c : ascii) (s : string) : bool :=
  match s with
  | EmptyString => false
  | String c' r => Ascii.eqb c' c || has_char c r
  end.

(** The string with its letters folded as a case-insensitive pattern
    folds them. *)
Fixpoint fold_string (s : string) : string :=
  match s with
  | EmptyString => EmptyString
  | String c r => String (fold_case c) (fold_string r)
  end.

(* ------------------------------------------------------------------ *)
(** ** Reading base64 *)

(** The value of a digit of the base64 alphabet. *)
Definition base64_value (c : ascii) : option Z :=
  let n := byte_of_ascii c in
  if (65 <=? n) && (n <=? 90) then Some (n - 65)
  else if (97 <=? n) && (n <=? 122) then Some (n - 71)
  else if (48 <=? n) && (n <=? 57) then Some (n + 4)
  else if n =? 43 then Some 62
  else if n =? 47 then Some 63
  else None.

(** The bytes a padded base64 text stands for. *)
Fixpoint base64_decode (s : string) : option (list Z) :=
  match s with
  | EmptyString => Some []
  | String c1 (String c2 (String c3 (String c4 r))) =>
      match base64_value c1, base64_value c2 with
      | Some v1, Some v2 =>
          let a := v1 * 4 + v2 / 16 in
          match base64_value c3, base64_value c4 with
          | Some v3, Some v4 =>
              match base64_decode r with
              | Some l =>
                  Some (a :: (v2 mod 16) * 16 + v3 / 4 :: (v3 mod 4) * 64 + v4 :: l)
              | None => None
              end
          | Some v3, None =>
              if Ascii.eqb c4 "=" && String.eqb r EmptyString
              then Some [a; (v2 mod 16) * 16 + v3 / 4] else None
          | None, _ =>
              if Ascii.eqb c3 "=" && Ascii.eqb c4 "=" && String.eqb r EmptyString
              then Some [a] else None
          end
      | _, _ => None
      end
  | _ => None
  end.

(* ================================================================== *)
(** * Facts about the signature verifier *)

Lemma timingSafeEqual_same (a : string) : timingSafeEqual a a = Ok true.
Proof.
  unfold timingSafeEqual. now rewrite Nat.eqb_refl, String.eqb_refl.
Qed.

Lemma length_be_bytes (n : nat) (x : Z) : List.length (Crypto.be_bytes n x) = n.
Proof. induction n; simpl; congruence. Qed.

Lemma length_compress (h block : list Z) :
  List.length h = 8%nat -> List.length (Crypto.compress h block) = 8%nat.
Proof.
  intros H. unfold Crypto.compress.
  rewrite length_map, length_combine, H. reflexivity.
Qed.

Lemma length_blocks (n : nat) : forall h l,
  List.length h = 8%nat -> List.length (Crypto.blocks n h l) = 8%nat.
Proof.
  induction n as [|n IH]; intros h l H; simpl; [assumption|].
  destruct l; [assumption|]. apply IH. now apply length_compress.
Qed.

Lemma length_flat_be_bytes (l : list Z) :
  List.length (flat_map (Crypto.be_bytes 4) l) = (4 * List.length l)%nat.
Proof.
  induction l as [|x l IH]; [reflexivity|].
  cbn [flat_map]. rewrite length_app, length_be_bytes, IH. simpl. lia.
Qed.

Lemma length_sha256 (msg : list Z) : List.length (Crypto.sha256 msg) = 32%nat.
Proof.
  unfold Crypto.sha256. rewrite length_flat_be_bytes, length_blocks; reflexivity.
Qed.

Lemma length_hex (l : list Z) :
  String.length (Crypto.hex l) = (2 * List.length l)%nat.
Proof. induction l as [|b l IH]; simpl; [reflexivity|]. rewrite IH. lia. Qed.

Lemma length_append (a b : string) :
  String.length (a ++ b)%string = (String.length a + String.length b)%nat.
Proof. induction a as [|c a IH]; simpl; congruence. Qed.

(** The expected header value is [sha256=] followed by 64 digits. *)
Lemma length_expected_signature (secret rawBody : string) :
  String.length (expected_signature secret rawBody) = 71%nat.
Proof.
  unfold expected_signature, Crypto.hmac_sha256.
  rewrite length_append, length_hex, length_sha256. reflexivity.
Qed.

(** The verifier accepts a header exactly when the secret is set and the
    header is the expected value. *)
Lemma verifySignature_iff (rawBody : string) (headerSig : option string) :
  verifySignature rawBody headerSig = Ok true <->
  exists secret,
    META_APP_SECRET cfg = Some secret /\ str_truthy secret = true /\
    headerSig = Some (expected_signature secret rawBody).
Proof.
  unfold verifySignature. split.
  - destruct headerSig as [sig|]; simpl; [|discriminate].
    destruct (str_truthy sig) eqn:Hs; simpl; [|discriminate].
    destruct (META_APP_SECRET cfg) as [secret|]; simpl; [|discriminate].
    destruct (str_truthy secret) eqn:Hk; simpl; [|discriminate].
    unfold timingSafeEqual.
    destruct (Nat.eqb _ _); [|discriminate].
    destruct (String.eqb sig _) eqn:He; [|discriminate].
    intros _. exists secret. repeat split; trivial.
    f_equal. now apply String.eqb_eq.
  - intros (secret & Hk & Ht & ->). rewrite Hk. simpl. rewrite Ht. simpl.
    now rewrite timingSafeEqual_same.
Qed.

Lemma verifySignature_total (rawBody : string) (headerSig : option string) :
  exists b, verifySignature rawBody headerSig = Ok b.
Proof.
  unfold verifySignature.
  destruct (negb (opt_truthy headerSig) || negb (opt_truthy (META_APP_SECRET cfg))).
  - now exists false.
  - destruct (timingSafeEqual _ _) as [b|e]; eauto.
Qed.

Lemma append_inj_l (p a b : string) : (p ++ a = p ++ b)%string -> a = b.
Proof. induction p as [|c p IH]; simpl; intros H; [assumption|]. injection H. auto. Qed.

Lemma single_byte_mutation_neq (a b : string) : single_byte_mutation a b -> a <> b.
Proof.
  intros (pre & c & c' & post & -> & -> & Hc) H.
  apply append_inj_l in H. injection H. auto.
Qed.

(** A header that is not the expected value is rejected. *)
Lemma verifySignature_rejects (secret rawBody sig : string) :
  META_APP_SECRET cfg = Some secret ->
  sig <> expected_signature secret rawBody ->
  verifySignature rawBody (Some sig) = Ok false.
Proof.
  intros Hk Hne.
  destruct (verifySignature_total rawBody (Some sig)) as [[|] Hb]; [|assumption].
  apply verifySignature_iff in Hb. destruct Hb as (secret' & Hk' & _ & He).
  rewrite Hk in Hk'. injection Hk' as <-. injection He as ->. now elim Hne.
Qed.

Lemma verifySignature_accepts (secret rawBody : string) :
  META_APP_SECRET cfg = Some secret -> str_truthy secret = true ->
  verifySignature rawBody (Some (expected_signature secret rawBody)) = Ok true.
Proof. intros Hk Ht. apply verifySignature_iff. eauto. Qed.

(** Hexadecimal digits tell the bytes apart. *)
Lemma hex_digit_inj (a b : Z) :
  0 <= a < 16 -> 0 <= b < 16 -> Crypto.hex_digit a = Crypto.hex_digit b -> a = b.
Proof.
  intros Ha Hb H.
  assert (Hd : forall n, 0 <= n < 16 ->
            byte_of_ascii (Crypto.hex_digit n) = if n <? 10 then 48 + n else 87 + n).
  { intros n Hn. unfold Crypto.hex_digit, byte_of_ascii, ascii_of_byte.
    destruct (Z.ltb_spec n 10); rewrite N_ascii_embedding; lia. }
  apply (f_equal byte_of_ascii) in H. rewrite !Hd in H by assumption.
  destruct (Z.ltb_spec a 10), (Z.ltb_spec b 10); lia.
Qed.

Lemma hex_inj (l1 : list Z) : forall l2,
  Forall (fun b => 0 <= b < 256) l1 -> Forall (fun b => 0 <= b < 256) l2 ->
  Crypto.hex l1 = Crypto.hex l2 -> l1 = l2.
Proof.
  induction l1 as [|a l1 IH]; intros [|b l2] H1 H2 H; simpl in H;
    try discriminate; [reflexivity|].
  inversion H1; inversion H2; subst.
  injection H as Hhi Hlo Hr.
  apply hex_digit_inj in Hhi;
    [| split; [apply Z.div_pos | apply Z.div_lt_upper_bound]; lia ..].
  apply hex_digit_inj in Hlo; [| apply Z.mod_pos_bound; lia ..].
  f_equal; [| now apply IH].
  rewrite (Z.div_mod a 16), (Z.div_mod b 16) by lia. congruence.
Qed.

Lemma be_bytes_range (n : nat) (x : Z) :
  Forall (fun b => 0 <= b < 256) (Crypto.be_bytes n x).
Proof.
  induction n; simpl; constructor; [apply Z.mod_pos_bound; lia | assumption].
Qed.

Lemma sha256_range (msg : list Z) :
  Forall (fun b => 0 <= b < 256) (Crypto.sha256 msg).
Proof.
  unfold Crypto.sha256. apply Forall_flat_map, Forall_forall.
  intros x _. apply be_bytes_range.
Qed.

(** Two bodies have the same expected header only if they have the same
    MAC. *)
Lemma expected_signature_inj (secret b1 b2 : string) :
  expected_signature secret b1 = expected_signature secret b2 ->
  Crypto.hmac_sha256 (bytes_of_string secret) (bytes_of_string b1)
  = Crypto.hmac_sha256 (bytes_of_string secret) (bytes_of_string b2).
Proof.
  unfold expected_signature. intros H. apply append_inj_l in H.
  apply hex_inj in H; [assumption | apply sha256_range ..].
Qed.

(* ================================================================== *)
(** * Reasoning about effects

    A relation between the state before and the state after is kept by a
    computation when it is kept by each of its steps; the relations used
    below are reflexive and transitive. *)

Section Preserves.

Variable R : state -> state -> Prop.
Hypothesis R_refl : forall st, R st st.
Hypothesis R_trans : forall a b c, R a b -> R b c -> R a c.

Lemma preserves_ret {A : Type} (a : A) : preserves R (ret a).
Proof. intros st. apply R_refl. Qed.

Lemma preserves_throw {A : Type} (e : exn) : preserves R (@throw A e).
Proof. intros st. apply R_refl. Qed.

Lemma preserves_lift {A : Type} (r : result A) : preserves R (lift r).
Proof. intros st. apply R_refl. Qed.

Lemma preserves_bind {A B : Type} (m : M A) (k : A -> M B) :
  preserves R m -> (forall a, preserves R (k a)) -> preserves R (bind m k).
Proof.
  intros Hm Hk st. unfold bind. specialize (Hm st).
  destruct (m st) as [[a|e] st']; simpl in *; [|assumption].
  eapply R_trans; [eassumption | apply Hk].
Qed.

Lemma preserves_try_catch {A : Type} (m : M A) (h : exn -> M A) :
  preserves R m -> (forall e, preserves R (h e)) -> preserves R (try_catch m h).
Proof.
  intros Hm Hh st. unfold try_catch. specialize (Hm st).
  destruct (m st) as [[a|e] st']; simpl in *; [assumption|].
  eapply R_trans; [eassumption | apply Hh].
Qed.

Lemma preserves_for_of {A : Type} (l : list A) (body : A -> M unit) :
  (forall a, preserves R (body a)) -> preserves R (for_of l body).
Proof.
  intros Hb. induction l as [|a l IH]; simpl.
  - apply preserves_ret.
  - apply preserves_bind; [apply Hb | intros _; apply IH].
Qed.

Lemma preserves_settle {A : Type} (m : M A) :
  preserves R m -> preserves R (settle m).
Proof.
  intros Hm st. unfold settle. specialize (Hm st). now destruct (m st).
Qed.

Lemma preserves_allSettled {A : Type} (ps : list (M A)) :
  Forall (preserves R) ps -> preserves R (allSettled ps).
Proof.
  induction 1 as [|p ps Hp _ IH]; simpl.
  - apply preserves_ret.
  - apply preserves_bind; [now apply preserves_settle | intros x].
    apply preserves_bind; [apply IH | intros xs; apply preserves_ret].
Qed.

Lemma preserves_Buffer_read (b : buf) : preserves R (Buffer_read b).
Proof. intros st. apply R_refl. Qed.

Lemma preserves_handoff_get (w : json) : preserves R (handoff_get w).
Proof. intros st. apply R_refl. Qed.

Lemma preserves_parse (s : string) : preserves R (parse s).
Proof. unfold parse. destruct (JSON_parse s); [apply preserves_ret | apply preserves_throw]. Qed.

Lemma preserves_text_of (r : response) : preserves R (text_of r).
Proof. unfold text_of. destruct (resp_text r); [apply preserves_ret | apply preserves_throw]. Qed.

Lemma preserves_strict_member (v : json) (k : string) :
  preserves R (strict_member v k).
Proof. destruct v; simpl; first [apply preserves_ret | apply preserves_throw]. Qed.

Lemma preserves_message_text (m : json) : preserves R (message_text m).
Proof.
  unfold message_text. destruct (truthy _); [|apply preserves_ret].
  destruct (opt_member _ _) as [[]|]; first [apply preserves_ret | apply preserves_throw].
Qed.

Lemma preserves_messages_of (payload : json) : preserves R (messages_of payload).
Proof.
  unfold messages_of. destruct (truthy _); [|apply preserves_ret].
  destruct (first_change_messages _) as [[]|]; first [apply preserves_ret | apply preserves_throw].
Qed.

Lemma preserves_text_message (m : json) : preserves R (text_message m).
Proof.
  unfold text_message.
  apply preserves_bind; [apply preserves_strict_member | intros type].
  destruct (negb _); [apply preserves_ret|].
  apply preserves_bind; [apply preserves_message_text | intros text].
  destruct (_ || _); [apply preserves_ret|].
  destruct (member m "from"); apply preserves_ret.
Qed.

End Preserves.

Lemma grows_refl (Q : event -> Prop) (st : state) : grows Q st st.
Proof.
  split; [exists [] | exists []]; rewrite ?app_nil_r; auto.
Qed.

Lemma grows_trans (Q : event -> Prop) (a b c : state) :
  grows Q a b -> grows Q b c -> grows Q a c.
Proof.
  intros [[b1 Hb1] (t1 & Ht1 & HQ1)] [[b2 Hb2] (t2 & Ht2 & HQ2)]. split.
  - exists (b1 ++ b2)%list. now rewrite Hb2, Hb1, app_assoc.
  - exists (t1 ++ t2)%list. split; [now rewrite Ht2, Ht1, app_assoc|].
    apply Forall_app. auto.
Qed.

Lemma grows_add_events (Q : event -> Prop) (t : list event) (st : state) :
  Forall Q t -> grows Q st (add_events t st).
Proof.
  intros H. split; [exists []; simpl; now rewrite app_nil_r | exists t; auto].
Qed.

(** Buffers that exist keep their contents. *)
Lemma grows_nth (Q : event -> Prop) (st st' : state) (b : buf) :
  grows Q st st' -> (b < List.length (buffers st))%nat ->
  nth b (buffers st') EmptyString = nth b (buffers st) EmptyString.
Proof.
  intros [[bs Hb] _] Hlt. rewrite Hb. now apply app_nth1.
Qed.

Section Grows.

Variable Q : event -> Prop.

Lemma grows_emit (e : event) : Q e -> preserves (grows Q) (emit e).
Proof. intros H st. apply (grows_add_events Q [e]). auto. Qed.

Lemma grows_fetch (p : purpose) (r : request) :
  Q (Call p r) -> preserves (grows Q) (fetch p r).
Proof.
  intros H st. unfold fetch.
  destruct (net _); apply (grows_add_events Q [Call p r]); auto.
Qed.

Lemma grows_handoff_set (w : json) : Q (HandoffSet w) -> preserves (grows Q) (handoff_set w).
Proof.
  intros H st. split; [exists []; simpl; now rewrite app_nil_r|].
  exists [HandoffSet w]. auto.
Qed.

Lemma grows_Buffer_alloc (c : string) : preserves (grows Q) (Buffer_alloc c).
Proof.
  intros st. split; [exists [c]; reflexivity|].
  exists []. simpl. rewrite app_nil_r. auto.
Qed.

End Grows.

(** Decomposes a goal [preserves R m] along [m]; [refl] and [trans] prove
    that [R] is reflexive and transitive, [leaf] proves the steps that
    depend on [R]. *)
Ltac preserves_steps refl trans leaf :=
  lazymatch goal with
  | |- preserves _ (bind _ _) =>
      apply (preserves_bind _ trans);
      [ preserves_steps refl trans leaf
      | intros; preserves_steps refl trans leaf ]
  | |- preserves _ (try_catch _ _) =>
      apply (preserves_try_catch _ trans);
      [ preserves_steps refl trans leaf
      | intros; preserves_steps refl trans leaf ]
  | |- preserves _ (for_of _ _) =>
      apply (preserves_for_of _ refl trans); intros;
      preserves_steps refl trans leaf
  | |- preserves _ (allSettled _) =>
      apply (preserves_allSettled _ refl trans);
      repeat (apply Forall_cons || apply Forall_nil);
      preserves_steps refl trans leaf
  | |- preserves _ (ret _) => apply (preserves_ret _ refl)
  | |- preserves _ (throw _) => apply (preserves_throw _ refl)
  | |- preserves _ (lift _) => apply (preserves_lift _ refl)
  | |- preserves _ (Buffer_read _) => apply (preserves_Buffer_read _ refl)
  | |- preserves _ (handoff_get _) => apply (preserves_handoff_get _ refl)
  | |- preserves _ (parse _) => apply (preserves_parse _ refl)
  | |- preserves _ (text_of _) => apply (preserves_text_of _ refl)
  | |- preserves _ (strict_member _ _) => apply (preserves_strict_member _ refl)
  | |- preserves _ (text_message _) => apply (preserves_text_message _ refl trans)
  | |- preserves _ (messages_of _) => apply (preserves_messages_of _ refl)
  | |- preserves _ (if ?b then _ else _) =>
      destruct b; preserves_steps refl trans leaf
  | |- preserves _ (match ?x with _ => _ end) =>
      destruct x; preserves_steps refl trans leaf
  | |- preserves _ (let _ := _ in _) =>
      cbv zeta; preserves_steps refl trans leaf
  | |- _ => first [leaf | idtac]
  end.

Section GrowsProgram.

Variable Q : event -> Prop.
Hypothesis Q_call : forall p r, p <> PForward -> Q (Call p r).
Hypothesis Q_set : forall w, Q (HandoffSet w).

Ltac grows_leaf :=
  first
    [ apply grows_fetch; apply Q_call; discriminate
    | apply grows_handoff_set; apply Q_set
    | apply grows_Buffer_alloc
    | assumption ].

Ltac grows_steps :=
  preserves_steps (grows_refl Q) (grows_trans Q) ltac:(grows_leaf).

Lemma grows_sendWaText (waId body : json) : preserves (grows Q) (sendWaText waId body).
Proof. unfold sendWaText. grows_steps. Qed.

Lemma grows_getAIReply (waId : json) (text : string) :
  preserves (grows Q) (getAIReply waId text).
Proof. unfold getAIReply. grows_steps. Qed.

Lemma grows_send_reply (waId : json) (reply : value) :
  preserves (grows Q) (send_reply waId reply).
Proof. unfold send_reply. grows_steps; apply grows_sendWaText. Qed.

Lemma grows_getAISummary (waId : json) : preserves (grows Q) (getAISummary waId).
Proof. unfold getAISummary. grows_steps. Qed.

Lemma grows_sendTemplateFrom3cxNumber (to : json) :
  preserves (grows Q) (sendTemplateFrom3cxNumber to).
Proof. unfold sendTemplateFrom3cxNumber. grows_steps. Qed.

Lemma grows_injectSummaryIntoPayload (rawBuffer : buf) (summary : string) :
  preserves (grows Q) (injectSummaryIntoPayload rawBuffer summary).
Proof. unfold injectSummaryIntoPayload. grows_steps. Qed.

Lemma grows_forwardRawJSON (url : option string) (rawBody : buf)
    (extraHeaders : list (string * string)) :
  (forall body,
     Q (Call PForward (mkRequest (env_str url) (content_type :: extraHeaders) body))) ->
  preserves (grows Q) (forwardRawJSON url rawBody extraHeaders).
Proof.
  intros H. unfold forwardRawJSON. grows_steps. apply grows_fetch, H.
Qed.

Lemma grows_ai_control_path (waId : json) (text : string) :
  preserves (grows Q) (ai_control_path waId text).
Proof.
  unfold ai_control_path. grows_steps;
    first [apply grows_getAIReply | apply grows_send_reply].
Qed.

Lemma grows_basic_message (m : json) : preserves (grows Q) (basic_message m).
Proof.
  unfold basic_message. grows_steps;
    first [apply grows_getAIReply | apply grows_send_reply].
Qed.

Lemma grows_summary_message (m : json) : preserves (grows Q) (summary_message m).
Proof.
  unfold summary_message. grows_steps;
    first [ apply grows_ai_control_path
          | apply grows_sendWaText | apply grows_getAISummary ].
Qed.

Lemma grows_bridge_message (raw : buf) (m : json) :
  (forall body,
     Q (Call PForward
          (mkRequest (env_str (THREE_CX_WEBHOOK_URL cfg)) [content_type] body))) ->
  preserves (grows Q) (bridge_message raw m).
Proof.
  intros H. unfold bridge_message. grows_steps;
    first [ apply grows_ai_control_path
          | apply grows_injectSummaryIntoPayload
          | apply grows_sendTemplateFrom3cxNumber
          | now apply grows_forwardRawJSON ].
Qed.

End GrowsProgram.

(* ================================================================== *)
(** * The handler, once the signature is checked *)

Ltac handler_prefix H :=
  unfold bind, Buffer_alloc, Buffer_read, lift, sendStatus, emit; simpl;
  rewrite nth_middle, H; reflexivity.

Lemma basic_post_wa_verified (sig : option string) (body : string) (st : state) :
  verifySignature body sig = Ok true ->
  basic_post_wa sig body st =
  (basic_fan_out (List.length (buffers st)) ;;;
   basic_route (List.length (buffers st))) (after_ack body st).
Proof. intros H. unfold basic_post_wa. handler_prefix H. Qed.

Lemma bridge_post_wa_verified (sig : option string) (body : string) (st : state) :
  verifySignature body sig = Ok true ->
  bridge_post_wa sig body st =
  (bridge_fan_out (List.length (buffers st)) ;;;
   bridge_route (List.length (buffers st))) (after_ack body st).
Proof. intros H. unfold bridge_post_wa. handler_prefix H. Qed.

Lemma summary_post_wa_verified (sig : option string) (body : string) (st : state) :
  verifySignature body sig = Ok true ->
  summary_post_wa sig body st =
  (summary_fan_out (List.length (buffers st)) ;;;
   summary_route (List.length (buffers st))) (after_ack body st).
Proof. intros H. unfold summary_post_wa. handler_prefix H. Qed.

Lemma basic_post_wa_rejected (sig : option string) (body : string) (st : state) :
  verifySignature body sig = Ok false ->
  basic_post_wa sig body st = (Ok tt, rejected body st).
Proof. intros H. unfold basic_post_wa. handler_prefix H. Qed.

Lemma bridge_post_wa_rejected (sig : option string) (body : string) (st : state) :
  verifySignature body sig = Ok false ->
  bridge_post_wa sig body st = (Ok tt, rejected body st).
Proof. intros H. unfold bridge_post_wa. handler_prefix H. Qed.

Lemma summary_post_wa_rejected (sig : option string) (body : string) (st : state) :
  verifySignature body sig = Ok false ->
  summary_post_wa sig body st = (Ok tt, rejected body st).
Proof. intros H. unfold summary_post_wa. handler_prefix H. Qed.

(* ------------------------------------------------------------------ *)
(** ** Nothing after the acknowledgment writes a response *)

Lemma not_response_call (p : purpose) (r : request) : not_response (Call p r).
Proof. intros s. discriminate. Qed.

Lemma not_response_set (w : json) : not_response (HandoffSet w).
Proof. intros s. discriminate. Qed.

Ltac quiet_steps :=
  preserves_steps (grows_refl not_response) (grows_trans not_response)
    ltac:(first
      [ apply grows_forwardRawJSON | apply grows_basic_message
      | apply grows_summary_message | apply grows_bridge_message ];
      intros; first [apply not_response_call | apply not_response_set]).

Lemma quiet_basic (raw : buf) :
  preserves (grows not_response) (basic_fan_out raw ;;; basic_route raw).
Proof. unfold basic_fan_out, basic_route. quiet_steps. Qed.

Lemma quiet_bridge (raw : buf) :
  preserves (grows not_response) (bridge_fan_out raw ;;; bridge_route raw).
Proof. unfold bridge_fan_out, bridge_route. quiet_steps. Qed.

Lemma quiet_summary (raw : buf) :
  preserves (grows not_response) (summary_fan_out raw ;;; summary_route raw).
Proof. unfold summary_fan_out, summary_route. quiet_steps. Qed.

Lemma quiet_summary_route (raw : buf) :
  preserves (grows not_response) (summary_route raw).
Proof. unfold summary_route. quiet_steps. Qed.

Lemma acknowledged_first_after_ack (body : string) (st st' : state) :
  grows not_response (after_ack body st) st' -> acknowledged_first st st'.
Proof.
  intros [_ (t & Ht & HQ)]. exists t. split; [|assumption].
  rewrite Ht. simpl. now rewrite <- app_assoc.
Qed.

(** C1. For every POST whose signature verifies, in each of the three
    variants and whatever the network answers to the calls that follow, the
    first event the handler adds to the trace is the response 200; every
    outbound call (observer fan-out, AI backend, summary backend, messaging
    API) comes after it, and no other response is written. *)
Theorem ack_precedes_every_outbound_call :
  forall (sig : option string) (body : string) (st : state),
    verifySignature body sig = Ok true ->
    acknowledged_first st (snd (basic_post_wa sig body st))
    /\ acknowledged_first st (snd (bridge_post_wa sig body st))
    /\ acknowledged_first st (snd (summary_post_wa sig body st)).
Proof.
  intros sig body st H. repeat split.
  - rewrite basic_post_wa_verified by assumption.
    apply (acknowledged_first_after_ack body), quiet_basic.
  - rewrite bridge_post_wa_verified by assumption.
    apply (acknowledged_first_after_ack body), quiet_bridge.
  - rewrite summary_post_wa_verified by assumption.
    apply (acknowledged_first_after_ack body), quiet_summary.
Qed.

(* ================================================================== *)
(** * The fan-out *)

Lemma forwardRawJSON_skips (url : option string) (raw : buf)
    (extraHeaders : list (string * string)) (st : state) :
  opt_truthy url = false ->
  forwardRawJSON url raw extraHeaders st = (Ok Skipped, st).
Proof. intros H. unfold forwardRawJSON. now rewrite H. Qed.

Lemma forwardRawJSON_calls (url : option string) (raw : buf)
    (extraHeaders : list (string * string)) (st : state) :
  opt_truthy url = true ->
  forwardRawJSON url raw extraHeaders st =
  (Ok (forward_outcome (net (List.length (trace st)))),
   add_events [forward_call url extraHeaders (nth raw (buffers st) EmptyString)] st).
Proof.
  intros H. unfold forwardRawJSON. rewrite H. simpl.
  unfold try_catch, bind, Buffer_read, fetch, forward_outcome. simpl.
  destruct (net _) as [m|r]; [reflexivity|].
  destruct (resp_ok r); simpl; [reflexivity|].
  unfold text_of. destruct (resp_text r); reflexivity.
Qed.

Lemma fan_out_configured (targets : list target) (raw : buf) : forall st,
  Forall (fun t => opt_truthy (fst t) = true) targets ->
  fan_out targets raw st =
  (Ok (map (fun i => Ok (forward_outcome (net (List.length (trace st) + i))))
         (seq 0 (List.length targets))),
   add_events
     (map (fun t => forward_call (fst t) (snd t) (nth raw (buffers st) EmptyString))
        targets)
     st).
Proof.
  unfold fan_out.
  induction targets as [|[url hdrs] targets IH]; intros st H.
  - unfold add_events. simpl. rewrite app_nil_r. now destruct st.
  - inversion H as [|? ? Hu Hr]; subst. simpl in Hu.
    cbn [map allSettled List.length seq fst snd].
    unfold bind at 1. unfold settle at 1.
    rewrite forwardRawJSON_calls by assumption.
    unfold bind at 1. rewrite IH by assumption.
    unfold ret, add_events. cbn [trace buffers handoff].
    rewrite length_app. cbn [List.length].
    rewrite <- seq_shift, map_map, <- app_assoc. cbn [app].
    rewrite Nat.add_0_r. do 3 f_equal.
    apply map_ext. intros i. do 3 f_equal. lia.
Qed.

Lemma forward_outcome_delivered (fr : fetch_result) :
  forward_outcome fr = Delivered <-> exists r, fr = Response r /\ resp_ok r = true.
Proof.
  split.
  - destruct fr as [m|r]; simpl; [discriminate|].
    destruct (resp_ok r) eqn:Hok; [eauto|]. destruct (resp_text r); discriminate.
  - intros (r & -> & Hok). simpl. now rewrite Hok.
Qed.

Lemma summary_fan_out_configured (raw : buf) (st : state) :
  opt_truthy (THREE_CX_WEBHOOK_URL cfg) = true ->
  opt_truthy (CHATWOOT_WEBHOOK_URL cfg) = true ->
  summary_fan_out raw st =
  (Ok tt,
   add_events
     [forward_call (THREE_CX_WEBHOOK_URL cfg) [] (nth raw (buffers st) EmptyString);
      forward_call (CHATWOOT_WEBHOOK_URL cfg) chatwoot_headers
        (nth raw (buffers st) EmptyString)]
     st).
Proof.
  intros H3 Hc. unfold summary_fan_out.
  change (allSettled _)
    with (fan_out [(THREE_CX_WEBHOOK_URL cfg, []);
                   (CHATWOOT_WEBHOOK_URL cfg, chatwoot_headers)] raw).
  unfold try_catch, bind. rewrite fan_out_configured; [reflexivity|].
  repeat constructor; assumption.
Qed.

Lemma summary_post_wa_fan_out (sig : option string) (body : string) (st : state) :
  verifySignature body sig = Ok true ->
  opt_truthy (THREE_CX_WEBHOOK_URL cfg) = true ->
  opt_truthy (CHATWOOT_WEBHOOK_URL cfg) = true ->
  exists t,
    trace (snd (summary_post_wa sig body st)) =
    trace st ++
    Respond 200
    :: forward_call (THREE_CX_WEBHOOK_URL cfg) [] body
    :: forward_call (CHATWOOT_WEBHOOK_URL cfg) chatwoot_headers body
    :: t
    /\ Forall not_response t.
Proof.
  intros Hv H3 Hc. rewrite summary_post_wa_verified by assumption.
  unfold bind at 1. rewrite summary_fan_out_configured by assumption.
  match goal with |- context [summary_route ?r ?s] =>
    destruct (quiet_summary_route r s) as [_ (t & Ht & HQ)] end.
  exists t. split; [|assumption]. rewrite Ht.
  unfold add_events, after_ack. cbn [trace buffers].
  rewrite nth_middle, <- !app_assoc. reflexivity.
Qed.

(** C6. A missing target URL makes [forwardRawJSON] return at once, with no
    call and no failure.  With a URL it makes one call and resolves to a
    result that depends on the outcome of that call alone: a response whose
    status is not a success and a transport exception are results
    ([ok: false]), never exceptions.  Over any list of configured targets,
    every target is called, in order, and the result for each is the one
    its own call gives, whatever happens to the others.  In the handler the
    fan-out comes after the response 200, which stays the only response. *)
Theorem fan_out_isolates_failures :
  (forall url raw extraHeaders st,
     opt_truthy url = false ->
     forwardRawJSON url raw extraHeaders st = (Ok Skipped, st))
  /\ (forall url raw extraHeaders st,
        opt_truthy url = true ->
        forwardRawJSON url raw extraHeaders st =
        (Ok (forward_outcome (net (List.length (trace st)))),
         add_events
           [forward_call url extraHeaders (nth raw (buffers st) EmptyString)] st))
  /\ (forall fr,
        forward_outcome fr = Delivered <->
        exists r, fr = Response r /\ resp_ok r = true)
  /\ (forall targets raw st,
        Forall (fun t => opt_truthy (fst t) = true) targets ->
        fan_out targets raw st =
        (Ok (map (fun i => Ok (forward_outcome (net (List.length (trace st) + i))))
               (seq 0 (List.length targets))),
         add_events
           (map (fun t =>
                   forward_call (fst t) (snd t) (nth raw (buffers st) EmptyString))
              targets)
           st))
  /\ (forall sig body st,
        verifySignature body sig = Ok true ->
        opt_truthy (THREE_CX_WEBHOOK_URL cfg) = true ->
        opt_truthy (CHATWOOT_WEBHOOK_URL cfg) = true ->
        exists t,
          trace (snd (summary_post_wa sig body st)) =
          trace st ++
          Respond 200
          :: forward_call (THREE_CX_WEBHOOK_URL cfg) [] body
          :: forward_call (CHATWOOT_WEBHOOK_URL cfg) chatwoot_headers body
          :: t
          /\ Forall not_response t).
Proof.
  split; [exact forwardRawJSON_skips|].
  split; [exact forwardRawJSON_calls|].
  split; [exact forward_outcome_delivered|].
  split; [intros; now apply fan_out_configured|].
  exact summary_post_wa_fan_out.
Qed.

(* ================================================================== *)
(** * The verifier and the classifier *)


Lemma filter_all_falsy (l : list string) :
  Forall (fun kw => trim kw = EmptyString) l ->
  filter str_truthy (map trim l) = [].
Proof.
  induction 1 as [|kw l Hkw _ IH]; simpl; [reflexivity|].
  now rewrite Hkw, IH.
Qed.

(** C3, which the code violates. When every entry of the configured
    keyword list is empty or white space, the pattern compiled from the
    list is the empty pattern, and [handoffRegex.test] returns [true] for
    every text: the classifier matches everything instead of nothing. *)
Theorem empty_keywords_match_every_text :
  forall (text : string),
    Forall (fun kw => trim kw = EmptyString) (str_split "," (HANDOFF_KEYWORDS cfg)) ->
    source (handoffRegex cfg) = EmptyString
    /\ RegExp_test (handoffRegex cfg) text = true.
Proof.
  intros text H. unfold RegExp_test, handoffRegex. cbn [source].
  rewrite (filter_all_falsy _ H). split; [reflexivity|].
  cbn. now destruct text.
Qed.

(* ================================================================== *)
(** * The handoff flag *)

Lemma obeys_app (k : string) (t1 t2 : list event) : forall flag,
  obeys k flag (t1 ++ t2) =
  match obeys k flag t1 with
  | Some flag1 => obeys k flag1 t2
  | None => None
  end.
Proof.
  induction t1 as [|e t1 IH]; intros flag; simpl; [reflexivity|].
  destruct (flag && is_ai_call_for k e); [reflexivity | apply IH].
Qed.

Lemma obeys_true (k : string) (t : list event) (flag : bool) :
  obeys k true t = Some flag ->
  flag = true /\ forall e, In e t -> is_ai_call_for k e = false.
Proof.
  revert flag. induction t as [|e t IH]; intros flag; simpl.
  - intros [= <-]. split; [reflexivity | intros e []].
  - destruct (is_ai_call_for k e) eqn:He; [discriminate|].
    intros H. destruct (IH _ H) as [-> Hall]. split; [reflexivity|].
    intros e' [<-|Hin]; auto.
Qed.

Lemma obeys_set (k : string) (t : list event) : forall flag flag',
  obeys k flag t = Some flag' ->
  (exists e, In e t /\ is_handoff_set k e = true) -> flag' = true.
Proof.
  induction t as [|e t IH]; intros flag flag' H (e' & Hin & He'); [destruct Hin|].
  simpl in H. destruct (flag && is_ai_call_for k e); [discriminate|].
  destruct Hin as [<-|Hin].
  - rewrite He', orb_true_r in H. now apply obeys_true in H.
  - eapply IH; eauto.
Qed.

Lemma handoff_respected_refl (k : string) (st : state) : handoff_respected k st st.
Proof. exists []. now rewrite app_nil_r. Qed.

Lemma handoff_respected_trans (k : string) (a b c : state) :
  handoff_respected k a b -> handoff_respected k b c -> handoff_respected k a c.
Proof.
  intros (t1 & Ht1 & H1) (t2 & Ht2 & H2). exists (t1 ++ t2). split.
  - now rewrite Ht2, Ht1, app_assoc.
  - now rewrite obeys_app, H1.
Qed.

Lemma same_value_zero_string (w : json) (k : string) :
  same_value_zero w (JString k) = is_handoff_set k (HandoffSet w).
Proof. destruct w; reflexivity. Qed.

Lemma same_value_zero_string_eq (w : json) (k : string) :
  same_value_zero w (JString k) = true -> w = JString k.
Proof.
  destruct w; simpl; try discriminate. intros H. f_equal. now apply String.eqb_eq.
Qed.

(** The flag of [k] after [handoff.set(w, true)]. *)
Lemma Map_get_set (k : string) (w : json) (m : list (json * bool)) :
  Map_get (JString k) (Map_set w true m)
  = Map_get (JString k) m || same_value_zero w (JString k).
Proof.
  induction m as [|[k' v'] m IH]; simpl.
  - now destruct (same_value_zero w (JString k)).
  - destruct (same_value_zero k' w) eqn:Hw; simpl.
    + destruct (same_value_zero k' (JString k)) eqn:Hk.
      * apply same_value_zero_string_eq in Hk. subst k'.
        destruct w; simpl in Hw; try discriminate.
        simpl. rewrite String.eqb_sym, Hw. now rewrite orb_true_r.
      * destruct (same_value_zero w (JString k)) eqn:Hwk; [|now rewrite orb_false_r].
        apply same_value_zero_string_eq in Hwk. subst w. congruence.
    + destruct (same_value_zero k' (JString k)) eqn:Hk; [|apply IH].
      destruct v'; [reflexivity|].
      simpl. destruct (same_value_zero w (JString k)) eqn:Hwk; [|reflexivity].
      apply same_value_zero_string_eq in Hwk. subst w. congruence.
Qed.

Section Respected.

Variable k : string.

Lemma respected_add_event (e : event) (st : state) :
  is_ai_call_for k e = false -> is_handoff_set k e = false ->
  handoff_respected k st (add_events [e] st).
Proof.
  intros Ha Hs. exists [e]. split; [reflexivity|].
  simpl. now rewrite Ha, Hs, andb_false_r, orb_false_r.
Qed.

Lemma respected_emit (e : event) :
  is_ai_call_for k e = false -> is_handoff_set k e = false ->
  preserves (handoff_respected k) (emit e).
Proof. intros Ha Hs st. now apply respected_add_event. Qed.

Lemma respected_fetch (p : purpose) (r : request) :
  is_ai_call_for k (Call p r) = false -> preserves (handoff_respected k) (fetch p r).
Proof.
  intros Ha st. unfold fetch.
  destruct (net _); now apply (respected_add_event (Call p r)).
Qed.

Lemma respected_Buffer_alloc (c : string) : preserves (handoff_respected k) (Buffer_alloc c).
Proof. intros st. exists []. simpl. now rewrite app_nil_r. Qed.

Lemma respected_handoff_set (w : json) : preserves (handoff_respected k) (handoff_set w).
Proof.
  intros st. exists [HandoffSet w]. split; [reflexivity|].
  simpl. rewrite andb_false_r, Map_get_set. now destruct w.
Qed.

Ltac respected_steps :=
  preserves_steps (handoff_respected_refl k) (handoff_respected_trans k)
    ltac:(first
      [ apply respected_fetch; reflexivity
      | apply respected_emit; reflexivity
      | apply respected_Buffer_alloc
      | apply respected_handoff_set
      | assumption ]).

Lemma respected_sendWaText (waId body : json) : preserves (handoff_respected k) (sendWaText waId body).
Proof. unfold sendWaText. respected_steps. Qed.

Lemma respected_send_reply (waId : json) (reply : value) :
  preserves (handoff_respected k) (send_reply waId reply).
Proof. unfold send_reply. respected_steps. apply respected_sendWaText. Qed.

Lemma respected_getAISummary (waId : json) : preserves (handoff_respected k) (getAISummary waId).
Proof. unfold getAISummary. respected_steps. Qed.

Lemma respected_sendTemplateFrom3cxNumber (to : json) :
  preserves (handoff_respected k) (sendTemplateFrom3cxNumber to).
Proof. unfold sendTemplateFrom3cxNumber. respected_steps. Qed.

Lemma respected_injectSummaryIntoPayload (rawBuffer : buf) (summary : string) :
  preserves (handoff_respected k) (injectSummaryIntoPayload rawBuffer summary).
Proof. unfold injectSummaryIntoPayload. respected_steps. Qed.

Lemma respected_forwardRawJSON (url : option string) (rawBody : buf)
    (extraHeaders : list (string * string)) :
  preserves (handoff_respected k) (forwardRawJSON url rawBody extraHeaders).
Proof. unfold forwardRawJSON. respected_steps. Qed.

(** [getAIReply] makes one call, whatever comes back. *)
Lemma getAIReply_state (waId : json) (text : string) (st : state) :
  exists r, snd (getAIReply waId text st) = add_events [Call (PAIReply waId text) r] st.
Proof.
  eexists. unfold getAIReply, try_catch, bind, fetch.
  destruct (net _) as [m|r]; [reflexivity|].
  unfold text_of. destruct (resp_text r) as [t|]; [|reflexivity].
  cbn. destruct (resp_ok r); cbn; [|reflexivity].
  unfold parse. destruct (JSON_parse t) as [data|]; [|reflexivity].
  cbn. destruct data; reflexivity.
Qed.

(** The AI backend is called only when the flag of the sender is not set. *)
Lemma respected_ai_control_path (waId : json) (text : string) :
  preserves (handoff_respected k) (ai_control_path waId text).
Proof.
  intros st. unfold ai_control_path, bind at 1, handoff_get.
  destruct (Map_get waId (handoff st)) eqn:Hflag; cbn [negb].
  - apply handoff_respected_refl.
  - eapply handoff_respected_trans with (b := snd (getAIReply waId text st)).
    + destruct (getAIReply_state waId text st) as [r ->].
      exists [Call (PAIReply waId text) r]. split; [reflexivity|].
      cbn [obeys add_events handoff].
      destruct (is_ai_call_for k (Call (PAIReply waId text) r)) eqn:Hk.
      * destruct waId; try discriminate. cbn in Hk.
        apply String.eqb_eq in Hk. subst. now rewrite Hflag.
      * now rewrite andb_false_r, orb_false_r.
    + unfold bind. destruct (getAIReply waId text st) as [[reply|e] st1]; cbn [snd].
      * apply respected_send_reply.
      * apply handoff_respected_refl.
Qed.

Lemma respected_bridge_message (raw : buf) (m : json) :
  preserves (handoff_respected k) (bridge_message raw m).
Proof.
  unfold bridge_message. respected_steps;
    first [ apply respected_ai_control_path
          | apply respected_injectSummaryIntoPayload
          | apply respected_forwardRawJSON
          | apply respected_sendTemplateFrom3cxNumber ].
Qed.

Lemma respected_summary_message (m : json) : preserves (handoff_respected k) (summary_message m).
Proof.
  unfold summary_message. respected_steps;
    first [ apply respected_ai_control_path
          | apply respected_sendWaText
          | apply respected_getAISummary ].
Qed.

Lemma respected_bridge_post_wa (sig : option string) (body : string) :
  preserves (handoff_respected k) (bridge_post_wa sig body).
Proof.
  unfold bridge_post_wa, bridge_fan_out, bridge_route, sendStatus.
  respected_steps;
    first [apply respected_forwardRawJSON | apply respected_bridge_message].
Qed.

Lemma respected_summary_post_wa (sig : option string) (body : string) :
  preserves (handoff_respected k) (summary_post_wa sig body).
Proof.
  unfold summary_post_wa, summary_fan_out, summary_route, sendStatus.
  respected_steps;
    first [apply respected_forwardRawJSON | apply respected_summary_message].
Qed.

Lemma respected_serve (handler : option string -> string -> M unit)
    (requests : list (option string * string)) :
  (forall sig body, preserves (handoff_respected k) (handler sig body)) ->
  forall st, handoff_respected k st (serve handler requests st).
Proof.
  intros H. induction requests as [|[sig body] requests IH]; intros st; simpl.
  - apply handoff_respected_refl.
  - eapply handoff_respected_trans; [apply H | apply IH].
Qed.

End Respected.

Lemma handoff_respected_final (handler : option string -> string -> M unit) :
  (forall k requests st, handoff_respected k st (serve handler requests st)) ->
  handoff_is_final handler.
Proof.
  intros H requests st waId st'.
  destruct (H waId requests st) as (t & Ht & Hobeys). fold st' in Ht, Hobeys.
  assert (Hsplit : forall t1 t2,
             trace st' = trace st ++ t1 ++ t2 ->
             Map_get (JString waId) (handoff st) = true
             \/ In (HandoffSet (JString waId)) t1 ->
             Map_get (JString waId) (handoff st') = true
             /\ forall text r, ~ In (Call (PAIReply (JString waId) text) r) t2).
  { intros t1 t2 Heq Hset. rewrite Ht in Heq. apply app_inv_head in Heq. subst t.
    rewrite obeys_app in Hobeys.
    destruct (obeys waId _ t1) as [flag1|] eqn:H1; [|discriminate].
    assert (flag1 = true) as ->.
    { destruct Hset as [H0|Hin].
      - rewrite H0 in H1. now apply obeys_true in H1.
      - apply (obeys_set _ _ _ _ H1). exists (HandoffSet (JString waId)).
        split; [assumption|]. cbn. apply String.eqb_refl. }
    apply obeys_true in Hobeys. destruct Hobeys as [Hflag Hall].
    split; [assumption|]. intros text r Hin. apply Hall in Hin.
    cbn in Hin. now rewrite String.eqb_refl in Hin. }
  split; [|exact Hsplit].
  intros H0. apply (Hsplit [] t); [exact Ht | now left].
Qed.

(** C2. In the two variants that keep a handoff flag, and over any
    sequence of inbound events: once the flag of a conversation id is set,
    no later message of any event makes the handler call the AI backend
    for that id, whatever its text, and the flag stays set. *)
Theorem no_ai_call_after_handoff :
  handoff_is_final bridge_post_wa /\ handoff_is_final summary_post_wa.
Proof.
  split; apply handoff_respected_final; intros k requests st;
    apply respected_serve; intros sig body.
  - apply respected_bridge_post_wa.
  - apply respected_summary_post_wa.
Qed.

(* ================================================================== *)
(** * The summary injector *)

Lemma assoc_set_same (k : string) (x : json) (ps : list (string * json)) :
  assoc k ps = Some x -> assoc_set k x ps = ps.
Proof.
  induction ps as [|[k' v] ps IH]; simpl; [reflexivity|].
  destruct (String.eqb k' k); [now intros [= ->] | intros H; now rewrite IH].
Qed.

Lemma set_member_same (v : json) (k : string) (x : json) :
  member v k = Some x -> set_member v k x = v.
Proof.
  destruct v; simpl; try discriminate. intros H. now rewrite assoc_set_same.
Qed.

Lemma set_index0_same (v x : json) : index0 v = Some x -> set_index0 v x = v.
Proof.
  destruct v as [| | | |[|y l]|ps]; simpl; try discriminate; try reflexivity.
  - now intros [= ->].
  - intros H. now rewrite assoc_set_same.
Qed.

Lemma set_first_change_messages_same (obj msgs : json) :
  first_change_messages obj = Some msgs ->
  set_first_change_messages obj msgs = obj.
Proof.
  unfold first_change_messages, set_first_change_messages, opt_member, opt_index0.
  destruct (member obj "entry") as [entry|] eqn:H1; [|discriminate].
  destruct (index0 entry) as [entry0|] eqn:H2; [|discriminate].
  destruct (member entry0 "changes") as [changes|] eqn:H3; [|discriminate].
  destruct (index0 changes) as [change0|] eqn:H4; [|discriminate].
  destruct (member change0 "value") as [v|] eqn:H5; [|discriminate].
  intros H6.
  rewrite (set_member_same _ _ _ H6), (set_member_same _ _ _ H5),
    (set_index0_same _ _ H4), (set_member_same _ _ _ H3),
    (set_index0_same _ _ H2).
  now apply set_member_same.
Qed.

Lemma annotate_first_none (summary : string) (l : list json) :
  existsb injectable l = false -> annotate_first summary l = l.
Proof.
  induction l as [|m l IH]; simpl; [reflexivity|].
  destruct (injectable m); [discriminate|]. intros H. now rewrite IH.
Qed.

Lemma annotate_payload_none (summary : string) (obj : json) :
  has_text_message obj = false -> annotate_payload summary obj = obj.
Proof.
  unfold has_text_message, annotate_payload.
  destruct (first_change_messages obj) as [[| | | |l|]|] eqn:Hm; try reflexivity.
  intros H. rewrite annotate_first_none by assumption.
  now apply set_first_change_messages_same.
Qed.

Lemma inject_parse_fails (rawBuffer : buf) (summary : string) (st : state) :
  JSON_parse (nth rawBuffer (buffers st) EmptyString) = None ->
  injectSummaryIntoPayload rawBuffer summary st = (Ok rawBuffer, st).
Proof.
  intros H. unfold injectSummaryIntoPayload, try_catch, bind, Buffer_read, parse.
  now rewrite H.
Qed.

Lemma inject_parse_ok (rawBuffer : buf) (summary : string) (st : state) (obj : json) :
  JSON_parse (nth rawBuffer (buffers st) EmptyString) = Some obj ->
  injectSummaryIntoPayload rawBuffer summary st =
  (Ok (List.length (buffers st)),
   mkState (handoff st)
     (buffers st ++ [JSON_stringify (annotate_payload summary obj)]) (trace st)).
Proof.
  intros H. unfold injectSummaryIntoPayload, try_catch, bind, Buffer_read, parse.
  now rewrite H.
Qed.

(** C4, amended. When the input does not parse, the injector returns its
    input buffer, and so the same bytes.  When the input parses to a
    payload [obj] in which no message of the first change of the first
    entry is a text message with a body, it returns a new buffer holding
    [JSON.stringify(obj)]: the payload without annotation, serialised
    anew. *)
Theorem inject_without_text_message :
  forall (rawBuffer : buf) (summary : string) (st : state),
    let raw := nth rawBuffer (buffers st) EmptyString in
    let out := injectSummaryIntoPayload rawBuffer summary st in
    (JSON_parse raw = None ->
     out = (Ok rawBuffer, st) /\ returned_bytes out = Some raw)
    /\ (forall obj,
          JSON_parse raw = Some obj -> has_text_message obj = false ->
          fst out = Ok (List.length (buffers st))
          /\ returned_bytes out = Some (JSON_stringify obj)).
Proof.
  intros rawBuffer summary st raw out. split.
  - intros H. unfold out. rewrite inject_parse_fails by assumption. now split.
  - intros obj H Hno. unfold out. rewrite (inject_parse_ok _ _ _ obj) by assumption.
    split; [reflexivity|]. unfold returned_bytes. cbn [fst snd buffers].
    now rewrite nth_middle, annotate_payload_none.
Qed.

(* ================================================================== *)
(** * What each sink receives *)

Lemma forwardRawJSON_state (url : option string) (raw : buf)
    (extraHeaders : list (string * string)) (st : state) :
  exists res,
    forwardRawJSON url raw extraHeaders st =
    (Ok res,
     add_events (forward_events url extraHeaders (nth raw (buffers st) EmptyString)) st).
Proof.
  unfold forward_events. destruct (opt_truthy url) eqn:H.
  - eexists. now apply forwardRawJSON_calls.
  - exists Skipped. rewrite forwardRawJSON_skips by assumption.
    unfold add_events. rewrite app_nil_r. now destruct st.
Qed.

Lemma basic_fan_out_eq (raw : buf) (st : state) :
  basic_fan_out raw st =
  (Ok tt,
   add_events
     (forward_events (CHATWOOT_WEBHOOK_URL cfg) chatwoot_headers
        (nth raw (buffers st) EmptyString)) st).
Proof.
  unfold basic_fan_out, forward_events.
  destruct (opt_truthy (CHATWOOT_WEBHOOK_URL cfg)) eqn:H.
  - unfold try_catch, bind. now rewrite forwardRawJSON_calls.
  - unfold add_events, ret. rewrite app_nil_r. now destruct st.
Qed.

Lemma bridge_fan_out_eq (raw : buf) (st : state) :
  bridge_fan_out raw st =
  (Ok tt,
   add_events
     (forward_events (CHATWOOT_WEBHOOK_URL cfg) chatwoot_headers
        (nth raw (buffers st) EmptyString)) st).
Proof.
  unfold bridge_fan_out, try_catch, bind, allSettled, settle, bind.
  destruct (forwardRawJSON_state (CHATWOOT_WEBHOOK_URL cfg) raw chatwoot_headers st)
    as [res ->].
  reflexivity.
Qed.

Lemma add_events_add_events (t1 t2 : list event) (st : state) :
  add_events t2 (add_events t1 st) = add_events (t1 ++ t2) st.
Proof. unfold add_events. cbn. now rewrite app_assoc. Qed.

Lemma summary_fan_out_eq (raw : buf) (st : state) :
  summary_fan_out raw st =
  (Ok tt,
   add_events
     (forward_events (THREE_CX_WEBHOOK_URL cfg) [] (nth raw (buffers st) EmptyString)
      ++ forward_events (CHATWOOT_WEBHOOK_URL cfg) chatwoot_headers
           (nth raw (buffers st) EmptyString)) st).
Proof.
  unfold summary_fan_out, try_catch, bind, allSettled, settle, bind.
  destruct (forwardRawJSON_state (THREE_CX_WEBHOOK_URL cfg) raw [] st) as [r1 ->].
  destruct (forwardRawJSON_state (CHATWOOT_WEBHOOK_URL cfg) raw chatwoot_headers
              (add_events
                 (forward_events (THREE_CX_WEBHOOK_URL cfg) []
                    (nth raw (buffers st) EmptyString)) st)) as [r2 ->].
  cbn [ret buffers add_events]. now rewrite add_events_add_events.
Qed.

Lemma not_forward_call (p : purpose) (r : request) :
  p <> PForward -> not_forward (Call p r).
Proof. intros H r' [= -> _]. now elim H. Qed.

Lemma not_forward_set (w : json) : not_forward (HandoffSet w).
Proof. intros r'. discriminate. Qed.

Lemma bridge_forward_only_call (p : purpose) (r : request) :
  p <> PForward -> bridge_forward_only (Call p r).
Proof. intros H r' [= -> _]. now elim H. Qed.

Lemma bridge_forward_only_set (w : json) : bridge_forward_only (HandoffSet w).
Proof. intros r'. discriminate. Qed.

Lemma bridge_forward_only_3cx (body : string) :
  bridge_forward_only
    (Call PForward (mkRequest (env_str (THREE_CX_WEBHOOK_URL cfg)) [content_type] body)).
Proof. intros r [= <-]. now split. Qed.

Lemma basic_route_no_forward (raw : buf) :
  preserves (grows not_forward) (basic_route raw).
Proof.
  unfold basic_route.
  preserves_steps (grows_refl not_forward) (grows_trans not_forward)
    ltac:(apply grows_basic_message;
          first [exact not_forward_call | exact not_forward_set]).
Qed.

Lemma summary_route_no_forward (raw : buf) :
  preserves (grows not_forward) (summary_route raw).
Proof.
  unfold summary_route.
  preserves_steps (grows_refl not_forward) (grows_trans not_forward)
    ltac:(apply grows_summary_message;
          first [exact not_forward_call | exact not_forward_set]).
Qed.

Lemma bridge_route_forwards (raw : buf) :
  preserves (grows bridge_forward_only) (bridge_route raw).
Proof.
  unfold bridge_route.
  preserves_steps (grows_refl bridge_forward_only) (grows_trans bridge_forward_only)
    ltac:(apply grows_bridge_message;
          first [ exact bridge_forward_only_call | exact bridge_forward_only_set
                | exact bridge_forward_only_3cx ]).
Qed.

(** The injector only adds a buffer: the trace, the map and every buffer
    that exists, its input among them, are as before. *)
Lemma inject_allocates_only (rawBuffer : buf) (summary : string) (st : state) :
  exists b new,
    injectSummaryIntoPayload rawBuffer summary st =
    (Ok b, mkState (handoff st) (buffers st ++ new) (trace st)).
Proof.
  destruct (JSON_parse (nth rawBuffer (buffers st) EmptyString)) as [obj|] eqn:H.
  - do 2 eexists. rewrite (inject_parse_ok _ _ _ obj H). reflexivity.
  - exists rawBuffer, []. rewrite inject_parse_fails by assumption.
    rewrite app_nil_r. now destruct st.
Qed.

(** After the acknowledgment: the fan-out [fan], then a route that keeps
    [Q]. *)
Lemma after_ack_trace (Q : event -> Prop) (fan_out_part route : buf -> M unit)
    (fan : string -> list event) (body : string) (st : state) :
  (forall raw s,
     fan_out_part raw s = (Ok tt, add_events (fan (nth raw (buffers s) EmptyString)) s)) ->
  (forall raw, preserves (grows Q) (route raw)) ->
  let raw := List.length (buffers st) in
  let st' := snd ((fan_out_part raw ;;; route raw) (after_ack body st)) in
  exists t,
    trace st' = trace st ++ Respond 200 :: fan body ++ t
    /\ Forall Q t
    /\ nth raw (buffers st') EmptyString = body.
Proof.
  intros Hfan Hroute raw st'. subst st'.
  assert (Heq : (fan_out_part raw ;;; route raw) (after_ack body st)
                = route raw
                    (add_events (fan (nth raw (buffers (after_ack body st)) EmptyString))
                       (after_ack body st))).
  { unfold bind. now rewrite Hfan. }
  rewrite Heq. clear Heq.
  match goal with |- context [route raw ?s] =>
    destruct (Hroute raw s) as [[b Hb] (t & Ht & HQ)] end.
  exists t. repeat split; [| assumption |].
  - rewrite Ht. cbn [add_events after_ack trace buffers].
    unfold raw. rewrite nth_middle, <- !app_assoc. reflexivity.
  - rewrite Hb. cbn [add_events after_ack buffers].
    rewrite <- app_assoc. unfold raw. apply nth_middle.
Qed.

(** C9. For every inbound event whose signature verifies, the forward made
    by the observer fan-out (to Chatwoot, and in [Summary] to 3CX as well)
    carries exactly the received bytes.  The only other forward is the one
    [Bridge] makes on a handoff, to the 3CX webhook, with the annotated
    copy; [Basic] and [Summary] make none.  The injector never writes to a
    buffer that exists: it returns its input or a new buffer, so the
    request buffer holds the received bytes when the handler ends. *)
Theorem observers_receive_the_received_bytes :
  forall (sig : option string) (body : string) (st : state),
    verifySignature body sig = Ok true ->
    let raw := List.length (buffers st) in
    (exists t,
       let st' := snd (basic_post_wa sig body st) in
       trace st' =
       trace st ++
       Respond 200
       :: forward_events (CHATWOOT_WEBHOOK_URL cfg) chatwoot_headers body ++ t
       /\ Forall not_forward t
       /\ nth raw (buffers st') EmptyString = body)
    /\ (exists t,
          let st' := snd (bridge_post_wa sig body st) in
          trace st' =
          trace st ++
          Respond 200
          :: forward_events (CHATWOOT_WEBHOOK_URL cfg) chatwoot_headers body ++ t
          /\ Forall bridge_forward_only t
          /\ nth raw (buffers st') EmptyString = body)
    /\ (exists t,
          let st' := snd (summary_post_wa sig body st) in
          trace st' =
          trace st ++
          Respond 200
          :: (forward_events (THREE_CX_WEBHOOK_URL cfg) [] body
              ++ forward_events (CHATWOOT_WEBHOOK_URL cfg) chatwoot_headers body)
             ++ t
          /\ Forall not_forward t
          /\ nth raw (buffers st') EmptyString = body)
    /\ (forall rawBuffer summary st0,
          exists b new,
            injectSummaryIntoPayload rawBuffer summary st0 =
            (Ok b, mkState (handoff st0) (buffers st0 ++ new) (trace st0))).
Proof.
  intros sig body st H raw. repeat split.
  - rewrite basic_post_wa_verified by assumption.
    apply (after_ack_trace not_forward basic_fan_out basic_route
             (forward_events (CHATWOOT_WEBHOOK_URL cfg) chatwoot_headers)).
    + exact basic_fan_out_eq.
    + exact basic_route_no_forward.
  - rewrite bridge_post_wa_verified by assumption.
    apply (after_ack_trace bridge_forward_only bridge_fan_out bridge_route
             (forward_events (CHATWOOT_WEBHOOK_URL cfg) chatwoot_headers)).
    + exact bridge_fan_out_eq.
    + exact bridge_route_forwards.
  - rewrite summary_post_wa_verified by assumption.
    apply (after_ack_trace not_forward summary_fan_out summary_route
             (fun b =>
                forward_events (THREE_CX_WEBHOOK_URL cfg) [] b
                ++ forward_events (CHATWOOT_WEBHOOK_URL cfg) chatwoot_headers b)).
    + exact summary_fan_out_eq.
    + exact summary_route_no_forward.
  - intros. apply inject_allocates_only.
Qed.

(* ================================================================== *)
(** * The messages that are routed *)

Lemma similar_trace_length (raw : buf) (st1 st2 : state) :
  similar raw st1 st2 -> List.length (trace st1) = List.length (trace st2).
Proof.
  intros H. rewrite <- (length_map forget_body (trace st1)), (sim_trace _ _ _ H).
  apply length_map.
Qed.

Lemma similar_add_events (raw : buf) (st1 st2 : state) (t1 t2 : list event) :
  similar raw st1 st2 -> map forget_body t1 = map forget_body t2 ->
  similar raw (add_events t1 st1) (add_events t2 st2).
Proof.
  intros [] Ht. constructor; cbn; try assumption.
  rewrite !map_app. congruence.
Qed.

Lemma similar_alloc (raw : buf) (st1 st2 : state) (c1 c2 : string) :
  similar raw st1 st2 ->
  similar raw
    (mkState (handoff st1) (buffers st1 ++ [c1]) (trace st1))
    (mkState (handoff st2) (buffers st2 ++ [c2]) (trace st2)).
Proof.
  intros []. constructor; cbn; try assumption.
  - rewrite !length_app. cbn. lia.
  - rewrite length_app. lia.
  - rewrite !app_nth1; [assumption | lia | lia].
Qed.

Section Agrees.

Variable raw : buf.

Lemma agrees_ret {A : Type} (a : A) : agrees raw (ret a).
Proof. intros st1 st2 H. now split. Qed.

Lemma agrees_throw {A : Type} (e : exn) : agrees raw (@throw A e).
Proof. intros st1 st2 H. now split. Qed.

Lemma agrees_bind {A B : Type} (m : M A) (k : A -> M B) :
  agrees raw m -> (forall a, agrees raw (k a)) -> agrees raw (bind m k).
Proof.
  intros Hm Hk st1 st2 H. unfold bind. destruct (Hm st1 st2 H) as [Hr Hs].
  destruct (m st1) as [[a1|e1] s1], (m st2) as [[a2|e2] s2]; cbn in *;
    try discriminate.
  - injection Hr as ->. now apply Hk.
  - injection Hr as ->. now split.
Qed.

Lemma agrees_try_catch {A : Type} (m : M A) (h : exn -> M A) :
  agrees raw m -> (forall e, agrees raw (h e)) -> agrees raw (try_catch m h).
Proof.
  intros Hm Hh st1 st2 H. unfold try_catch. destruct (Hm st1 st2 H) as [Hr Hs].
  destruct (m st1) as [[a1|e1] s1], (m st2) as [[a2|e2] s2]; cbn in *;
    try discriminate.
  - split; assumption.
  - injection Hr as ->. now apply Hh.
Qed.

Lemma agrees_for_of {A : Type} (l : list A) (body : A -> M unit) :
  (forall a, agrees raw (body a)) -> agrees raw (for_of l body).
Proof.
  intros Hb. induction l as [|a l IH]; simpl.
  - apply agrees_ret.
  - apply agrees_bind; [apply Hb | intros _; apply IH].
Qed.

Lemma agrees_fetch (p : purpose) (r : request) : agrees raw (fetch p r).
Proof.
  intros st1 st2 H. unfold fetch. rewrite (similar_trace_length _ _ _ H).
  assert (Hs : similar raw (add_events [Call p r] st1) (add_events [Call p r] st2))
    by now apply similar_add_events.
  destruct (net _); now split.
Qed.

Lemma agrees_handoff_get (w : json) : agrees raw (handoff_get w).
Proof.
  intros st1 st2 H. unfold handoff_get. cbn. now rewrite (sim_handoff _ _ _ H).
Qed.

Lemma agrees_handoff_set (w : json) : agrees raw (handoff_set w).
Proof.
  intros st1 st2 H. split; [reflexivity|].
  destruct H. constructor; cbn; try assumption.
  - congruence.
  - rewrite !map_app. congruence.
Qed.

Lemma agrees_parse (s : string) : agrees raw (parse s).
Proof. unfold parse. destruct (JSON_parse s); [apply agrees_ret | apply agrees_throw]. Qed.

Lemma agrees_text_of (r : response) : agrees raw (text_of r).
Proof. unfold text_of. destruct (resp_text r); [apply agrees_ret | apply agrees_throw]. Qed.

Lemma agrees_strict_member (v : json) (k : string) : agrees raw (strict_member v k).
Proof. destruct v; simpl; first [apply agrees_ret | apply agrees_throw]. Qed.

Lemma agrees_message_text (m : json) : agrees raw (message_text m).
Proof.
  unfold message_text. destruct (truthy _); [|apply agrees_ret].
  destruct (opt_member _ _) as [[]|]; first [apply agrees_ret | apply agrees_throw].
Qed.

Lemma agrees_messages_of (payload : json) : agrees raw (messages_of payload).
Proof.
  unfold messages_of. destruct (truthy _); [|apply agrees_ret].
  destruct (first_change_messages _) as [[]|]; first [apply agrees_ret | apply agrees_throw].
Qed.

Lemma agrees_text_message (m : json) : agrees raw (text_message m).
Proof.
  unfold text_message.
  apply agrees_bind; [apply agrees_strict_member | intros type].
  destruct (negb _); [apply agrees_ret|].
  apply agrees_bind; [apply agrees_message_text | intros text].
  destruct (_ || _); [apply agrees_ret|].
  destruct (member m "from"); apply agrees_ret.
Qed.

(** The forward of any buffer: the bytes may differ, nothing else does. *)
Lemma agrees_forwardRawJSON (url : option string) (b : buf)
    (extraHeaders : list (string * string)) :
  agrees raw (forwardRawJSON url b extraHeaders).
Proof.
  intros st1 st2 H. destruct (opt_truthy url) eqn:Hu.
  - rewrite !forwardRawJSON_calls by assumption. cbn [fst snd].
    rewrite (similar_trace_length _ _ _ H). split; [reflexivity|].
    now apply similar_add_events.
  - rewrite !forwardRawJSON_skips by assumption. now split.
Qed.

(** The injection into the request buffer: a new buffer in both runs, or in
    neither. *)
Lemma agrees_injectSummaryIntoPayload (summary : string) :
  agrees raw (injectSummaryIntoPayload raw summary).
Proof.
  intros st1 st2 H. pose proof (sim_parses _ _ _ H) as Hp. unfold parses in Hp.
  destruct (JSON_parse (nth raw (buffers st1) EmptyString)) as [o1|] eqn:H1;
    destruct (JSON_parse (nth raw (buffers st2) EmptyString)) as [o2|] eqn:H2;
    try discriminate.
  - rewrite (inject_parse_ok _ _ _ o1 H1), (inject_parse_ok _ _ _ o2 H2).
    cbn [fst snd]. rewrite (sim_buffers _ _ _ H). split; [reflexivity|].
    now apply similar_alloc.
  - rewrite !inject_parse_fails by assumption. now split.
Qed.

End Agrees.

Ltac agrees_steps leaf :=
  lazymatch goal with
  | |- agrees _ (bind _ _) =>
      apply agrees_bind; [agrees_steps leaf | intros; agrees_steps leaf]
  | |- agrees _ (try_catch _ _) =>
      apply agrees_try_catch; [agrees_steps leaf | intros; agrees_steps leaf]
  | |- agrees _ (for_of _ _) => apply agrees_for_of; intros; agrees_steps leaf
  | |- agrees _ (ret _) => apply agrees_ret
  | |- agrees _ (throw _) => apply agrees_throw
  | |- agrees _ (fetch _ _) => apply agrees_fetch
  | |- agrees _ (handoff_get _) => apply agrees_handoff_get
  | |- agrees _ (handoff_set _) => apply agrees_handoff_set
  | |- agrees _ (parse _) => apply agrees_parse
  | |- agrees _ (text_of _) => apply agrees_text_of
  | |- agrees _ (strict_member _ _) => apply agrees_strict_member
  | |- agrees _ (text_message _) => apply agrees_text_message
  | |- agrees _ (messages_of _) => apply agrees_messages_of
  | |- agrees _ (forwardRawJSON _ _ _) => apply agrees_forwardRawJSON
  | |- agrees _ (if ?b then _ else _) => destruct b; agrees_steps leaf
  | |- agrees _ (match ?x with _ => _ end) => destruct x; agrees_steps leaf
  | |- agrees _ (let _ := _ in _) => cbv zeta; agrees_steps leaf
  | |- _ => first [leaf | idtac]
  end.

Section AgreesProgram.

Variable raw : buf.

Lemma agrees_sendWaText (waId body : json) : agrees raw (sendWaText waId body).
Proof. unfold sendWaText. agrees_steps idtac. Qed.

Lemma agrees_getAIReply (waId : json) (text : string) :
  agrees raw (getAIReply waId text).
Proof. unfold getAIReply. agrees_steps idtac. Qed.

Lemma agrees_send_reply (waId : json) (reply : value) :
  agrees raw (send_reply waId reply).
Proof. unfold send_reply. agrees_steps ltac:(apply agrees_sendWaText). Qed.

Lemma agrees_ai_control_path (waId : json) (text : string) :
  agrees raw (ai_control_path waId text).
Proof.
  unfold ai_control_path.
  agrees_steps ltac:(first [apply agrees_getAIReply | apply agrees_send_reply]).
Qed.

Lemma agrees_getAISummary (waId : json) : agrees raw (getAISummary waId).
Proof. unfold getAISummary. agrees_steps idtac. Qed.

Lemma agrees_sendTemplateFrom3cxNumber (to : json) :
  agrees raw (sendTemplateFrom3cxNumber to).
Proof. unfold sendTemplateFrom3cxNumber. agrees_steps idtac. Qed.

Lemma agrees_basic_message (m : json) : agrees raw (basic_message m).
Proof.
  unfold basic_message.
  agrees_steps ltac:(first [apply agrees_getAIReply | apply agrees_send_reply]).
Qed.

Lemma agrees_bridge_message (m : json) : agrees raw (bridge_message raw m).
Proof.
  unfold bridge_message.
  agrees_steps ltac:(first
    [ apply agrees_ai_control_path
    | apply agrees_injectSummaryIntoPayload
    | apply agrees_sendTemplateFrom3cxNumber ]).
Qed.

Lemma agrees_summary_message (m : json) : agrees raw (summary_message m).
Proof.
  unfold summary_message.
  agrees_steps ltac:(first
    [ apply agrees_ai_control_path
    | apply agrees_sendWaText
    | apply agrees_getAISummary ]).
Qed.

End AgreesProgram.

(** Only the messages of the first change of the first entry count. *)
Lemma messages_of_first_change (payload1 payload2 : json) :
  first_change_messages payload1 = first_change_messages payload2 ->
  messages_of payload1 = messages_of payload2.
Proof. intros H. unfold messages_of. now rewrite H. Qed.

(** With arrays of entries and of changes, what comes after the first
    entry and after its first change is not read. *)
Lemma first_change_messages_arrays (payload entry change : json)
    (entries changes : list json) :
  member payload "entry" = Some (JArray (entry :: entries)) ->
  member entry "changes" = Some (JArray (change :: changes)) ->
  first_change_messages payload = opt_member (member change "value") "messages".
Proof.
  intros He Hc. unfold first_change_messages. cbn [opt_member].
  rewrite He. cbn [opt_index0 index0 opt_member]. now rewrite Hc.
Qed.

(** Two runs of a handler after the acknowledgment, on two bodies that
    parse to payloads with the same messages in their first change. *)
Lemma same_routing_after_ack
    (fan_out_part : buf -> M unit) (message : buf -> json -> M unit)
    (fan : string -> list event) (body1 body2 : string)
    (payload1 payload2 : json) (st : state) :
  (forall raw s,
     fan_out_part raw s = (Ok tt, add_events (fan (nth raw (buffers s) EmptyString)) s)) ->
  map forget_body (fan body1) = map forget_body (fan body2) ->
  (forall raw m, agrees raw (message raw m)) ->
  JSON_parse body1 = Some payload1 -> JSON_parse body2 = Some payload2 ->
  first_change_messages payload1 = first_change_messages payload2 ->
  let raw := List.length (buffers st) in
  let route :=
    fun b : buf =>
      text <- Buffer_read b ;;
      match JSON_parse text with
      | None => ret tt
      | Some payload =>
          messages <- messages_of payload ;;
          for_of messages (message b)
      end in
  same_routing
    ((fan_out_part raw ;;; route raw) (after_ack body1 st))
    ((fan_out_part raw ;;; route raw) (after_ack body2 st)).
Proof.
  intros Hfan Hforget Hmsg Hp1 Hp2 Hsame raw route.
  assert (Hrun : forall body payload,
             JSON_parse body = Some payload ->
             (fan_out_part raw ;;; route raw) (after_ack body st)
             = (messages <- messages_of payload ;; for_of messages (message raw))
                 (add_events (fan body) (after_ack body st))).
  { intros body payload Hp. unfold bind at 1. rewrite Hfan.
    unfold route, bind at 1, Buffer_read. cbn [add_events after_ack buffers].
    unfold raw. rewrite nth_middle, Hp. reflexivity. }
  rewrite (Hrun body1 payload1 Hp1), (Hrun body2 payload2 Hp2).
  rewrite (messages_of_first_change _ _ Hsame).
  assert (Hagree : agrees raw
            (messages <- messages_of payload2 ;; for_of messages (message raw))).
  { apply agrees_bind; [apply agrees_messages_of | intros l].
    apply agrees_for_of. intros m. apply Hmsg. }
  destruct (Hagree (add_events (fan body1) (after_ack body1 st))
              (add_events (fan body2) (after_ack body2 st))) as [Hr Hs].
  { constructor; cbn [add_events after_ack handoff buffers trace].
    - reflexivity.
    - rewrite !length_app. reflexivity.
    - rewrite !map_app. now rewrite Hforget.
    - rewrite length_app. cbn. unfold raw. lia.
    - unfold raw, parses. rewrite !nth_middle. now rewrite Hp1, Hp2. }
  repeat split; [assumption | apply (sim_handoff _ _ _ Hs) | apply (sim_trace _ _ _ Hs)].
Qed.

Lemma forget_forward_events (url : option string) (hdrs : list (string * string))
    (body1 body2 : string) :
  map forget_body (forward_events url hdrs body1)
  = map forget_body (forward_events url hdrs body2).
Proof. unfold forward_events. now destruct (opt_truthy url). Qed.

(** C10. The loop runs over the messages of the first change of the first
    entry and over nothing else: two verified events whose payloads have the
    same messages there are routed alike by each variant, with the same
    calls to the AI backend, the same writes to the handoff map and the
    same sends, whatever else the payloads hold in later entries or later
    changes.  Only the bytes forwarded differ. *)
Theorem only_first_change_is_routed :
  forall (sig1 sig2 : option string) (body1 body2 : string)
         (payload1 payload2 : json) (st : state),
    verifySignature body1 sig1 = Ok true ->
    verifySignature body2 sig2 = Ok true ->
    JSON_parse body1 = Some payload1 ->
    JSON_parse body2 = Some payload2 ->
    first_change_messages payload1 = first_change_messages payload2 ->
    same_routing (basic_post_wa sig1 body1 st) (basic_post_wa sig2 body2 st)
    /\ same_routing (bridge_post_wa sig1 body1 st) (bridge_post_wa sig2 body2 st)
    /\ same_routing (summary_post_wa sig1 body1 st) (summary_post_wa sig2 body2 st).
Proof.
  intros sig1 sig2 body1 body2 payload1 payload2 st Hv1 Hv2 Hp1 Hp2 Hsame.
  split; [|split].
  - rewrite !basic_post_wa_verified by assumption.
    apply (same_routing_after_ack basic_fan_out (fun _ => basic_message)
             (forward_events (CHATWOOT_WEBHOOK_URL cfg) chatwoot_headers)
             body1 body2 payload1 payload2);
      auto using basic_fan_out_eq, forget_forward_events, agrees_basic_message.
  - rewrite !bridge_post_wa_verified by assumption.
    apply (same_routing_after_ack bridge_fan_out bridge_message
             (forward_events (CHATWOOT_WEBHOOK_URL cfg) chatwoot_headers)
             body1 body2 payload1 payload2);
      auto using bridge_fan_out_eq, forget_forward_events, agrees_bridge_message.
  - rewrite !summary_post_wa_verified by assumption.
    apply (same_routing_after_ack summary_fan_out (fun _ => summary_message)
             (fun b =>
                forward_events (THREE_CX_WEBHOOK_URL cfg) [] b
                ++ forward_events (CHATWOOT_WEBHOOK_URL cfg) chatwoot_headers b)
             body1 body2 payload1 payload2);
      auto using summary_fan_out_eq, agrees_summary_message.
    rewrite !map_app. f_equal; apply forget_forward_events.
Qed.

(* ================================================================== *)
(** * Failures of the messaging API *)

(** The loop stops at the first message whose processing throws. *)
Lemma for_of_aborts {A : Type} (a : A) (l : list A) (body : A -> M unit)
    (e : exn) (st st' : state) :
  body a st = (Thrown e, st') -> for_of (a :: l) body st = (Thrown e, st').
Proof. intros H. cbn [for_of]. unfold bind. now rewrite H. Qed.

(** What [getAIReply] resolves to. *)
Lemma getAIReply_result (waId : json) (text : string) (st : state) :
  fst (getAIReply waId text st) =
  Ok match net (List.length (trace st)) with
     | NetworkError _ => None
     | Response r =>
         match resp_text r with
         | None => None
         | Some t =>
             if resp_ok r then
               match JSON_parse t with
               | None => None
               | Some JNull => None
               | Some data =>
                   if truthy (member data "reply") then member data "reply" else None
               end
             else None
         end
     end.
Proof.
  unfold getAIReply, try_catch, bind, fetch, text_of, parse.
  destruct (net _) as [m|r]; [reflexivity|].
  destruct (resp_text r) as [t|]; [|reflexivity].
  cbn. destruct (resp_ok r); cbn; [|reflexivity].
  destruct (JSON_parse t) as [data|]; [|reflexivity].
  destruct data; reflexivity.
Qed.

(** X4. A failure of the AI backend is the absence of a reply:
    [getAIReply] never throws, and it resolves to [null] when the call
    meets a transport error, when the status is not a success, when the
    body cannot be read and when the body is not JSON. *)
Theorem ai_backend_failure_is_no_reply :
  forall (waId : json) (text : string) (st : state),
    let outcome := net (List.length (trace st)) in
    let reply := fst (getAIReply waId text st) in
    (exists v, reply = Ok v)
    /\ (forall m, outcome = NetworkError m -> reply = Ok None)
    /\ (forall r, outcome = Response r -> resp_ok r = false -> reply = Ok None)
    /\ (forall r, outcome = Response r -> resp_text r = None -> reply = Ok None)
    /\ (forall r t,
          outcome = Response r -> resp_text r = Some t -> JSON_parse t = None ->
          reply = Ok None).
Proof.
  intros waId text st outcome reply. subst outcome reply.
  rewrite getAIReply_result. repeat split.
  - eauto.
  - now intros m ->.
  - intros r -> Hok. rewrite Hok. now destruct (resp_text r).
  - now intros r -> ->.
  - intros r t -> -> ->. now destruct (resp_ok r).
Qed.

(** [sendWaText] throws when the transport does. *)
Lemma sendWaText_throws (waId body : json) (st : state) (message : string) :
  net (List.length (trace st)) = NetworkError message ->
  fst (sendWaText waId body st) = Thrown (FetchError message).
Proof. intros H. unfold sendWaText, bind, fetch. now rewrite H. Qed.

(* ================================================================== *)
(** * More on the verifier *)

(** X1. Under a configuration that passes the check at start-up, the
    header made of the MAC of the body under the configured secret is
    accepted, for every body. *)
Theorem signature_round_trip :
  forall (rawBody : string),
    startup_ok cfg = true ->
    verifySignature rawBody
      (Some (expected_signature (env_str (META_APP_SECRET cfg)) rawBody))
    = Ok true.
Proof.
  intros rawBody H. unfold startup_ok in H.
  apply andb_prop in H. destruct H as [H _].
  apply andb_prop in H. destruct H as [H _].
  apply andb_prop in H. destruct H as [H _].
  apply andb_prop in H. destruct H as [_ H].
  destruct (META_APP_SECRET cfg) as [secret|] eqn:Hk; [|discriminate].
  rewrite <- Hk. apply verifySignature_iff. exists secret.
  rewrite Hk. repeat split; assumption.
Qed.

(** X2. A header that differs from the expected one in a single byte is
    rejected. *)
Theorem mutated_signature_is_rejected :
  forall (secret rawBody sig : string),
    META_APP_SECRET cfg = Some secret ->
    single_byte_mutation (expected_signature secret rawBody) sig ->
    verifySignature rawBody (Some sig) = Ok false.
Proof.
  intros secret rawBody sig Hk Hm. apply (verifySignature_rejects secret); [assumption|].
  intros ->. now apply single_byte_mutation_neq in Hm.
Qed.

(** X3. The header made for one body is rejected on another body exactly
    when the two bodies have different MACs. *)
Theorem other_body_is_rejected_iff_mac_differs :
  forall (secret body body' : string),
    META_APP_SECRET cfg = Some secret -> str_truthy secret = true ->
    (verifySignature body' (Some (expected_signature secret body)) = Ok false
     <->
     Crypto.hmac_sha256 (bytes_of_string secret) (bytes_of_string body')
     <> Crypto.hmac_sha256 (bytes_of_string secret) (bytes_of_string body)).
Proof.
  intros secret body body' Hk Ht. split.
  - intros Hf Heq.
    assert (He : expected_signature secret body = expected_signature secret body')
      by (unfold expected_signature; now rewrite Heq).
    rewrite He, verifySignature_accepts in Hf by assumption. discriminate.
  - intros Hne. apply (verifySignature_rejects secret); [assumption|].
    intros He. apply Hne. symmetry. now apply expected_signature_inj.
Qed.

(* ================================================================== *)
(** * Events that are not routed *)

(** Any header other than the expected one is refused. *)
Lemma verifySignature_other (rawBody : string) (headerSig : option string) :
  headerSig <> Some (expected_signature (env_str (META_APP_SECRET cfg)) rawBody) ->
  verifySignature rawBody headerSig = Ok false.
Proof.
  intros Hne.
  destruct (verifySignature_total rawBody headerSig) as [[|] Hb]; [|assumption].
  apply verifySignature_iff in Hb. destruct Hb as (secret & Hk & _ & He).
  rewrite Hk in Hne. now elim Hne.
Qed.


Lemma buffers_add_events (t : list event) (st : state) :
  buffers (add_events t st) = buffers st.
Proof. reflexivity. Qed.

Lemma nth_after_ack (body : string) (st : state) :
  nth (List.length (buffers st)) (buffers (after_ack body st)) EmptyString = body.
Proof. apply nth_middle. Qed.

(** The handler after the acknowledgment and the fan-out, when the body
    does not parse. *)
Lemma route_unparsable (message : buf -> json -> M unit) (raw : buf) (st : state) :
  JSON_parse (nth raw (buffers st) EmptyString) = None ->
  (text <- Buffer_read raw ;;
   match JSON_parse text with
   | None => ret tt
   | Some payload =>
       messages <- messages_of payload ;;
       for_of messages (message raw)
   end) st = (Ok tt, st).
Proof. intros H. unfold bind, Buffer_read. now rewrite H. Qed.

(** X6. A verified body that is not JSON is acknowledged and mirrored to
    the configured observers, byte for byte, and nothing else is done with
    it: the handler ends normally in the state reached after the
    fan-out. *)
Theorem unparsable_body_is_only_mirrored :
  forall (sig : option string) (body : string) (st : state),
    verifySignature body sig = Ok true ->
    JSON_parse body = None ->
    basic_post_wa sig body st =
    (Ok tt,
     mirrored (forward_events (CHATWOOT_WEBHOOK_URL cfg) chatwoot_headers body) body st)
    /\ bridge_post_wa sig body st =
       (Ok tt,
        mirrored (forward_events (CHATWOOT_WEBHOOK_URL cfg) chatwoot_headers body) body st)
    /\ summary_post_wa sig body st =
       (Ok tt,
        mirrored
          (forward_events (THREE_CX_WEBHOOK_URL cfg) [] body
           ++ forward_events (CHATWOOT_WEBHOOK_URL cfg) chatwoot_headers body)
          body st).
Proof.
  intros sig body st Hv Hp. unfold mirrored. split; [|split].
  - rewrite basic_post_wa_verified by assumption.
    unfold bind at 1. rewrite basic_fan_out_eq, nth_after_ack.
    apply (route_unparsable (fun _ => basic_message)).
    now rewrite buffers_add_events, nth_after_ack.
  - rewrite bridge_post_wa_verified by assumption.
    unfold bind at 1. rewrite bridge_fan_out_eq, nth_after_ack.
    apply (route_unparsable bridge_message).
    now rewrite buffers_add_events, nth_after_ack.
  - rewrite summary_post_wa_verified by assumption.
    unfold bind at 1. rewrite summary_fan_out_eq, nth_after_ack.
    apply (route_unparsable (fun _ => summary_message)).
    now rewrite buffers_add_events, nth_after_ack.
Qed.

Lemma text_message_not_text (m : json) (st : state) :
  not_text m = true -> text_message m st = (Ok None, st).
Proof.
  unfold not_text, text_message. intros H.
  destruct m; try discriminate; unfold bind; cbn [strict_member ret];
    now rewrite H.
Qed.

Lemma for_of_passes {A : Type} (l : list A) (body : A -> M unit) (st : state) :
  Forall (fun a => forall s, body a s = (Ok tt, s)) l ->
  for_of l body st = (Ok tt, st).
Proof.
  induction 1 as [|a l Ha _ IH]; cbn [for_of]; [reflexivity|].
  unfold bind. now rewrite Ha.
Qed.

Lemma route_without_text (message : json -> M unit) (payload : json) (st : state) :
  (forall m s, not_text m = true -> message m s = (Ok tt, s)) ->
  carries_no_text payload = true ->
  (messages <- messages_of payload ;; for_of messages message) st = (Ok tt, st).
Proof.
  intros Hm H. unfold carries_no_text in H. unfold messages_of, bind.
  destruct (first_change_messages payload) as [[| | | |l|]|] eqn:Hf;
    cbn [truthy] in *; try discriminate;
    try (apply negb_true_iff in H; rewrite H); try reflexivity.
  - destruct (str_truthy s); [|reflexivity]. cbn [ret].
    apply for_of_passes, Forall_forall. intros m Hin s'.
    apply in_map_iff in Hin. destruct Hin as (c & <- & _). now apply Hm.
  - cbn [ret]. apply for_of_passes, Forall_forall. intros m Hin s'.
    apply Hm. rewrite forallb_forall in H. now apply H.
Qed.

Lemma basic_message_passes (m : json) (s : state) :
  not_text m = true -> basic_message m s = (Ok tt, s).
Proof.
  intros H. unfold basic_message, bind. now rewrite text_message_not_text.
Qed.

Lemma bridge_message_passes (raw : buf) (m : json) (s : state) :
  not_text m = true -> bridge_message raw m s = (Ok tt, s).
Proof.
  intros H. unfold bridge_message, bind. now rewrite text_message_not_text.
Qed.

Lemma summary_message_passes (m : json) (s : state) :
  not_text m = true -> summary_message m s = (Ok tt, s).
Proof.
  intros H. unfold summary_message, bind. now rewrite text_message_not_text.
Qed.

Lemma route_parsed (message : buf -> json -> M unit) (raw : buf) (st : state)
    (payload : json) :
  JSON_parse (nth raw (buffers st) EmptyString) = Some payload ->
  (text <- Buffer_read raw ;;
   match JSON_parse text with
   | None => ret tt
   | Some payload =>
       messages <- messages_of payload ;;
       for_of messages (message raw)
   end) st
  = (messages <- messages_of payload ;; for_of messages (message raw)) st.
Proof. intros H. unfold bind at 1. unfold Buffer_read. now rewrite H. Qed.

(** X7. A verified event whose first change holds no text message (no
    [messages] field, as in a status notification, or only messages of
    another type, such as images) is acknowledged and mirrored to the
    configured observers, and nothing else: no call to the AI backend, no
    send, no write to the handoff map. *)
Theorem event_without_text_is_only_mirrored :
  forall (sig : option string) (body : string) (payload : json) (st : state),
    verifySignature body sig = Ok true ->
    JSON_parse body = Some payload ->
    carries_no_text payload = true ->
    basic_post_wa sig body st =
    (Ok tt,
     mirrored (forward_events (CHATWOOT_WEBHOOK_URL cfg) chatwoot_headers body) body st)
    /\ bridge_post_wa sig body st =
       (Ok tt,
        mirrored (forward_events (CHATWOOT_WEBHOOK_URL cfg) chatwoot_headers body) body st)
    /\ summary_post_wa sig body st =
       (Ok tt,
        mirrored
          (forward_events (THREE_CX_WEBHOOK_URL cfg) [] body
           ++ forward_events (CHATWOOT_WEBHOOK_URL cfg) chatwoot_headers body)
          body st).
Proof.
  intros sig body payload st Hv Hp Hno. unfold mirrored. split; [|split].
  - rewrite basic_post_wa_verified by assumption.
    unfold bind at 1. rewrite basic_fan_out_eq, nth_after_ack.
    unfold basic_route.
    rewrite (route_parsed (fun _ => basic_message) _ _ payload)
      by now rewrite buffers_add_events, nth_after_ack.
    apply route_without_text; [exact basic_message_passes | assumption].
  - rewrite bridge_post_wa_verified by assumption.
    unfold bind at 1. rewrite bridge_fan_out_eq, nth_after_ack.
    unfold bridge_route.
    rewrite (route_parsed bridge_message _ _ payload)
      by now rewrite buffers_add_events, nth_after_ack.
    apply route_without_text; [apply bridge_message_passes | assumption].
  - rewrite summary_post_wa_verified by assumption.
    unfold bind at 1. rewrite summary_fan_out_eq, nth_after_ack.
    unfold summary_route.
    rewrite (route_parsed (fun _ => summary_message) _ _ payload)
      by now rewrite buffers_add_events, nth_after_ack.
    apply route_without_text; [exact summary_message_passes | assumption].
Qed.

(* ================================================================== *)
(** * What can make the handler fail *)

Section Yields.

Lemma yields_ret {A : Type} (P : A -> Prop) (a : A) : P a -> yields P (ret a).
Proof. intros H st. now exists a. Qed.

Lemma yields_bind {A B : Type} (P : A -> Prop) (Q : B -> Prop) (m : M A) (k : A -> M B) :
  yields P m -> (forall a, P a -> yields Q (k a)) -> yields Q (bind m k).
Proof.
  intros Hm Hk st. unfold bind. destruct (Hm st) as (a & Ha & HP).
  destruct (m st) as [r st']. cbn in Ha. subst r. now apply Hk.
Qed.

Lemma yields_any {A : Type} (P : A -> Prop) (m : M A) :
  yields P m -> yields (fun _ => True) m.
Proof. intros H st. destruct (H st) as (a & Ha & _). now exists a. Qed.

Lemma yields_for_of {A : Type} (l : list A) (body : A -> M unit) :
  Forall (fun a => yields (fun _ => True) (body a)) l ->
  yields (fun _ => True) (for_of l body).
Proof.
  induction 1 as [|a l Ha _ IH]; cbn [for_of].
  - now apply yields_ret.
  - eapply yields_bind; [exact Ha | intros _ _; exact IH].
Qed.

Lemma yields_unit (m : M unit) (st : state) :
  yields (fun _ => True) m -> fst (m st) = Ok tt.
Proof. intros H. destruct (H st) as ([] & Ha & _). exact Ha. Qed.

Hypothesis net_answers : forall n, answered (net n).

Lemma yields_fetch (p : purpose) (r : request) :
  yields (fun resp => exists t, resp_text resp = Some t) (fetch p r).
Proof.
  intros st. unfold fetch.
  destruct (net_answers (List.length (trace st))) as (resp & t & -> & Ht).
  exists resp. split; [reflexivity | eauto].
Qed.

Lemma yields_text_of (r : response) :
  (exists t, resp_text r = Some t) -> yields (fun _ => True) (text_of r).
Proof. intros [t Ht]. unfold text_of. rewrite Ht. now apply yields_ret. Qed.

Lemma yields_sendWaText (waId body : json) :
  yields (fun _ => True) (sendWaText waId body).
Proof.
  unfold sendWaText. eapply yields_bind; [apply yields_fetch | intros r Hr].
  destruct (negb (resp_ok r)); [|now apply yields_ret].
  eapply yields_bind; [now apply yields_text_of | intros; now apply yields_ret].
Qed.

Lemma yields_send_reply (waId : json) (reply : value) :
  yields (fun _ => True) (send_reply waId reply).
Proof.
  unfold send_reply. destruct (truthy reply); [|now apply yields_ret].
  destruct reply; [apply yields_sendWaText | now apply yields_ret].
Qed.

Lemma yields_sendTemplateFrom3cxNumber (to : json) :
  yields (fun _ => True) (sendTemplateFrom3cxNumber to).
Proof.
  unfold sendTemplateFrom3cxNumber.
  destruct (_ || _); [now apply yields_ret|]. cbv zeta.
  eapply yields_bind with (P := fun _ => True).
  - destruct (str_truthy (HANDOFF_TEMPLATE_NAME cfg)); [|now apply yields_ret].
    eapply yields_bind; [apply yields_fetch | intros r Hr].
    destruct (negb (resp_ok r)); [|now apply yields_ret].
    eapply yields_bind; [now apply yields_text_of | intros; now apply yields_ret].
  - intros [|] _; [now apply yields_ret|].
    eapply yields_bind; [apply yields_fetch | intros r Hr].
    destruct (negb (resp_ok r)); [|now apply yields_ret].
    eapply yields_bind; [now apply yields_text_of | intros; now apply yields_ret].
Qed.

End Yields.

(** The three helpers that catch: they resolve whatever the network
    does. *)
Lemma yields_caught {A : Type} (m : M A) (a : A) :
  yields (fun _ => True) (try_catch m (fun _ => ret a)).
Proof.
  intros st. unfold try_catch.
  destruct (m st) as [[x|e] st']; eexists; (split; [reflexivity | exact I]).
Qed.

Lemma yields_getAIReply (waId : json) (text : string) :
  yields (fun _ => True) (getAIReply waId text).
Proof. apply yields_caught. Qed.

Lemma yields_getAISummary (waId : json) : yields (fun _ => True) (getAISummary waId).
Proof.
  unfold getAISummary. destruct (negb _); [now apply yields_ret | apply yields_caught].
Qed.

Lemma yields_forwardRawJSON (url : option string) (raw : buf)
    (extraHeaders : list (string * string)) :
  yields (fun _ => True) (forwardRawJSON url raw extraHeaders).
Proof.
  intros st. destruct (forwardRawJSON_state url raw extraHeaders st) as [res ->].
  eexists; split; [reflexivity | exact I].
Qed.

Lemma yields_injectSummaryIntoPayload (rawBuffer : buf) (summary : string) :
  yields (fun _ => True) (injectSummaryIntoPayload rawBuffer summary).
Proof.
  intros st. destruct (inject_allocates_only rawBuffer summary st) as (b & new & ->).
  eexists; split; [reflexivity | exact I].
Qed.

Lemma yields_text_message (m : json) :
  well_typed m = true -> yields (fun _ => True) (text_message m).
Proof.
  intros H. unfold text_message.
  apply yields_bind with (P := fun type => type = member m "type").
  - destruct m; try discriminate; now apply yields_ret.
  - intros type ->. destruct (negb _) eqn:Ht; [now apply yields_ret|].
    apply yields_bind with (P := fun _ => True).
    + unfold message_text. unfold well_typed in H.
      assert (Hb : match opt_member (member m "text") "body" with
                   | Some (JString _) => true
                   | body => negb (truthy body)
                   end = true).
      { destruct m; try discriminate; rewrite Ht in H; exact H. }
      destruct (opt_member (member m "text") "body") as [[]|]; cbn [truthy] in *;
        try (apply negb_true_iff in Hb; rewrite Hb); try discriminate;
        try (now apply yields_ret).
      destruct (str_truthy s); now apply yields_ret.
    + intros text _. destruct (_ || _); [now apply yields_ret|].
      destruct (member m "from"); now apply yields_ret.
Qed.

Section YieldsProgram.

Hypothesis net_answers : forall n, answered (net n).

Lemma yields_ai_control_path (waId : json) (text : string) :
  yields (fun _ => True) (ai_control_path waId text).
Proof.
  unfold ai_control_path.
  apply yields_bind with (P := fun _ => True); [intros st; eexists; split; [reflexivity | exact I] | intros flag _].
  destruct (negb flag); [|now apply yields_ret].
  eapply yields_bind; [apply yields_getAIReply | intros reply _].
  now apply yields_send_reply.
Qed.

Lemma yields_basic_message (m : json) :
  well_typed m = true -> yields (fun _ => True) (basic_message m).
Proof.
  intros H. unfold basic_message.
  eapply yields_bind; [now apply yields_text_message | intros [[waId text]|] _].
  - eapply yields_bind; [apply yields_getAIReply | intros reply _].
    now apply yields_send_reply.
  - now apply yields_ret.
Qed.

Lemma yields_bridge_message (raw : buf) (m : json) :
  well_typed m = true -> yields (fun _ => True) (bridge_message raw m).
Proof.
  intros H. unfold bridge_message.
  eapply yields_bind; [now apply yields_text_message | intros [[waId text]|] _].
  - destruct (RegExp_test _ _); [|now apply yields_ai_control_path].
    apply yields_bind with (P := fun _ => True); [intros st; eexists; split; [reflexivity | exact I] | intros _ _].
    apply yields_bind with (P := fun _ => True).
    + destruct (opt_truthy _); [|now apply yields_ret].
      eapply yields_bind; [apply yields_injectSummaryIntoPayload | intros b _].
      eapply yields_bind; [apply yields_forwardRawJSON | intros; now apply yields_ret].
    + intros _ _.
      eapply yields_bind;
        [now apply yields_sendTemplateFrom3cxNumber | intros; now apply yields_ret].
  - now apply yields_ret.
Qed.

Lemma yields_summary_message (m : json) :
  well_typed m = true -> yields (fun _ => True) (summary_message m).
Proof.
  intros H. unfold summary_message.
  eapply yields_bind; [now apply yields_text_message | intros [[waId text]|] _].
  - destruct (RegExp_test _ _); [|now apply yields_ai_control_path].
    apply yields_bind with (P := fun _ => True); [intros st; eexists; split; [reflexivity | exact I] | intros _ _].
    eapply yields_bind; [now apply yields_sendWaText | intros _ _].
    eapply yields_bind; [apply yields_getAISummary | intros summary _].
    eapply yields_bind; [now apply yields_sendWaText | intros; now apply yields_ret].
  - now apply yields_ret.
Qed.

End YieldsProgram.

Lemma messages_of_array (payload : json) (l : list json) (st : state) :
  first_change_messages payload = Some (JArray l) ->
  messages_of payload st = (Ok l, st).
Proof. intros H. unfold messages_of. now rewrite H. Qed.

(** The loop over the messages [l] of a parsed body, after the
    acknowledgment and the fan-out. *)
Lemma route_array (message : buf -> json -> M unit) (raw : buf) (st : state)
    (payload : json) (l : list json) :
  JSON_parse (nth raw (buffers st) EmptyString) = Some payload ->
  first_change_messages payload = Some (JArray l) ->
  (text <- Buffer_read raw ;;
   match JSON_parse text with
   | None => ret tt
   | Some payload =>
       messages <- messages_of payload ;;
       for_of messages (message raw)
   end) st
  = for_of l (message raw) st.
Proof.
  intros Hp Hl. rewrite (route_parsed _ _ _ payload Hp).
  unfold bind. now rewrite (messages_of_array _ l).
Qed.

Lemma verifySignature_cases (body : string) (sig : option string) :
  verifySignature body sig = Ok true \/ verifySignature body sig = Ok false.
Proof. destruct (verifySignature_total body sig) as [[|] H]; auto. Qed.


Lemma for_of_app {A : Type} (l1 l2 : list A) (body : A -> M unit) (st : state) :
  for_of (l1 ++ l2) body st = (for_of l1 body ;;; for_of l2 body) st.
Proof.
  revert st. induction l1 as [|a l1 IH]; intros st; cbn [for_of app].
  - reflexivity.
  - unfold bind. destruct (body a st) as [[[]|e] st']; [apply IH | reflexivity].
Qed.

(** The start of the loop body raises a [TypeError] on a message that is
    not well typed. *)
Lemma text_message_ill_typed (m : json) (st : state) :
  well_typed m = false -> exists e, text_message m st = (Thrown (TypeError e), st).
Proof.
  unfold well_typed, text_message, bind, message_text. intros H.
  destruct m as [| | | | |ps]; try discriminate; [eexists; reflexivity|].
  cbn [strict_member ret] in *. apply orb_false_iff in H. destruct H as [Ht Hb].
  rewrite Ht.
  destruct (opt_member (member (JObject ps) "text") "body") as [[| | |s| |]|];
    cbn [truthy] in *; try discriminate;
    try (apply negb_false_iff in Hb; rewrite Hb); eexists; reflexivity.
Qed.

(** The loop stops with a [TypeError] at the first message that is not
    well typed, if the messages before it are passed over. *)
Lemma for_of_ill_typed (message : json -> M unit) (pre : list json) (m : json)
    (post : list json) (st : state) :
  (forall m s, not_text m = true -> message m s = (Ok tt, s)) ->
  (forall s, exists e, message m s = (Thrown (TypeError e), s)) ->
  forallb not_text pre = true ->
  exists e, for_of (pre ++ m :: post) message st = (Thrown (TypeError e), st).
Proof.
  intros Hpass Hm Hpre. rewrite for_of_app. unfold bind at 1.
  rewrite for_of_passes.
  - destruct (Hm st) as [e He]. exists e. now apply for_of_aborts.
  - apply Forall_forall. intros x Hin s. apply Hpass.
    rewrite forallb_forall in Hpre. now apply Hpre.
Qed.

Lemma message_ill_typed (m : json) (k : json * string -> M unit) (s : state) :
  well_typed m = false ->
  exists e,
    (tm <- text_message m ;; match tm with None => ret tt | Some x => k x end) s
    = (Thrown (TypeError e), s).
Proof.
  intros H. destruct (text_message_ill_typed m s H) as [e He].
  exists e. unfold bind. now rewrite He.
Qed.

(** X9. A message that is [null], or a text message whose body is neither
    falsy nor a string, stops the handling of the event: when such a
    message comes before any text message, the handler, having acknowledged
    and mirrored the event, ends with a [TypeError], and the messages that
    follow, text messages included, are not routed. *)
Theorem ill_typed_message_aborts_the_event :
  forall (sig : option string) (body : string) (payload : json)
         (pre : list json) (m : json) (post : list json) (st : state),
    verifySignature body sig = Ok true ->
    JSON_parse body = Some payload ->
    first_change_messages payload = Some (JArray (pre ++ m :: post)) ->
    forallb not_text pre = true ->
    well_typed m = false ->
    (exists e,
       basic_post_wa sig body st =
       (Thrown (TypeError e),
        mirrored (forward_events (CHATWOOT_WEBHOOK_URL cfg) chatwoot_headers body)
          body st))
    /\ (exists e,
          bridge_post_wa sig body st =
          (Thrown (TypeError e),
           mirrored (forward_events (CHATWOOT_WEBHOOK_URL cfg) chatwoot_headers body)
             body st))
    /\ (exists e,
          summary_post_wa sig body st =
          (Thrown (TypeError e),
           mirrored
             (forward_events (THREE_CX_WEBHOOK_URL cfg) [] body
              ++ forward_events (CHATWOOT_WEBHOOK_URL cfg) chatwoot_headers body)
             body st)).
Proof.
  intros sig body payload pre m post st Hv Hp Hl Hpre Hm. unfold mirrored.
  split; [|split].
  - rewrite basic_post_wa_verified by assumption.
    unfold bind at 1. rewrite basic_fan_out_eq, nth_after_ack. unfold basic_route.
    rewrite (route_array (fun _ => basic_message) _ _ payload (pre ++ m :: post));
      [| now rewrite buffers_add_events, nth_after_ack | assumption].
    apply for_of_ill_typed; [exact basic_message_passes | | assumption].
    intros s. now apply message_ill_typed.
  - rewrite bridge_post_wa_verified by assumption.
    unfold bind at 1. rewrite bridge_fan_out_eq, nth_after_ack. unfold bridge_route.
    rewrite (route_array bridge_message _ _ payload (pre ++ m :: post));
      [| now rewrite buffers_add_events, nth_after_ack | assumption].
    apply for_of_ill_typed; [apply bridge_message_passes | | assumption].
    intros s. now apply message_ill_typed.
  - rewrite summary_post_wa_verified by assumption.
    unfold bind at 1. rewrite summary_fan_out_eq, nth_after_ack. unfold summary_route.
    rewrite (route_array (fun _ => summary_message) _ _ payload (pre ++ m :: post));
      [| now rewrite buffers_add_events, nth_after_ack | assumption].
    apply for_of_ill_typed; [exact summary_message_passes | | assumption].
    intros s. now apply message_ill_typed.
Qed.

(* ================================================================== *)
(** * Whom the handler talks to *)

Lemma grows_weaken (Q Q' : event -> Prop) (st st' : state) :
  (forall e, Q e -> Q' e) -> grows Q st st' -> grows Q' st st'.
Proof.
  intros H [Hb (t & Ht & HQ)]. split; [assumption|].
  exists t. split; [assumption|]. eapply Forall_impl; eauto.
Qed.

Lemma preserves_for_of_in {A : Type} (R : state -> state -> Prop)
    (l : list A) (body : A -> M unit) :
  (forall st, R st st) -> (forall a b c, R a b -> R b c -> R a c) ->
  Forall (fun a => preserves R (body a)) l -> preserves R (for_of l body).
Proof.
  intros Hrefl Htrans. induction 1 as [|a l Ha _ IH]; cbn [for_of].
  - now apply preserves_ret.
  - apply preserves_bind; [assumption | assumption | intros _; exact IH].
Qed.

(** [text_message] reads the message and leaves the state as it is. *)
Lemma text_message_state (m : json) (st : state) : snd (text_message m st) = st.
Proof.
  symmetry. exact (preserves_text_message eq (@eq_refl state) (@eq_trans state) m st).
Qed.

Lemma message_text_ok (m : json) (st : state) (text : string) :
  fst (message_text m st) = Ok text -> str_truthy text = true ->
  exists s, opt_member (member m "text") "body" = Some (JString s) /\ text = trim s.
Proof.
  unfold message_text.
  destruct (opt_member (member m "text") "body") as [[| | |s| |]|]; cbn [truthy];
    repeat match goal with
           | |- context [if ?b then _ else _] => destruct b
           end;
    cbn [ret throw fst]; intros [= <-]; try discriminate; eauto.
Qed.

Lemma text_message_some (m : json) (st : state) (w : json) (text : string) :
  fst (text_message m st) = Ok (Some (w, text)) ->
  exists s, text_message_from m w s /\ text = trim s.
Proof.
  unfold text_message, bind.
  destruct m as [| | | | |ps]; cbn [strict_member ret throw fst member is_string negb];
    try discriminate.
  destruct (is_string (assoc "type" ps) "text") eqn:Ht; cbn [negb]; [|discriminate].
  destruct (message_text (JObject ps) st) as [[a|e] st'] eqn:Hm; [|discriminate].
  destruct (truthy (assoc "from" ps)) eqn:Hw; cbn [negb orb]; [|discriminate].
  destruct (str_truthy a) eqn:Ha; cbn [negb]; [|discriminate].
  destruct (assoc "from" ps) as [w0|] eqn:Hf; [|discriminate].
  cbn [ret fst]. intros [= <- <-].
  destruct (message_text_ok (JObject ps) st a) as (s & Hs & ->);
    [now rewrite Hm | assumption |].
  exists s. split; [|reflexivity].
  unfold text_message_from. cbn [member]. repeat split; try assumption.
  intros Hblank. rewrite Hblank in Ha. discriminate.
Qed.

Section About.

Variable w : json.
Variable text : string.

Ltac about_event :=
  let Hw := fresh in
  let Heq := fresh in
  intros ? Hw; cbn in Hw;
  first
    [ discriminate
    | injection Hw as <-;
      split;
      [ reflexivity
      | split;
        [ intros ? ? Heq; first [discriminate | now injection Heq]
        | intros Heq; discriminate ] ] ].

Ltac about_steps :=
  preserves_steps (grows_refl (about w text)) (grows_trans (about w text))
    ltac:(first
      [ apply grows_fetch; about_event
      | apply grows_handoff_set; about_event
      | apply grows_Buffer_alloc
      | assumption ]).

Lemma about_sendWaText (body : json) : preserves (grows (about w text)) (sendWaText w body).
Proof. unfold sendWaText. about_steps. Qed.

Lemma about_getAIReply : preserves (grows (about w text)) (getAIReply w text).
Proof. unfold getAIReply. about_steps. Qed.

Lemma about_send_reply (reply : value) :
  preserves (grows (about w text)) (send_reply w reply).
Proof. unfold send_reply. about_steps. apply about_sendWaText. Qed.

Lemma about_getAISummary : preserves (grows (about w text)) (getAISummary w).
Proof. unfold getAISummary. about_steps. Qed.

Lemma about_sendTemplateFrom3cxNumber :
  preserves (grows (about w text)) (sendTemplateFrom3cxNumber w).
Proof. unfold sendTemplateFrom3cxNumber. about_steps. Qed.

Lemma about_injectSummaryIntoPayload (rawBuffer : buf) (summary : string) :
  preserves (grows (about w text)) (injectSummaryIntoPayload rawBuffer summary).
Proof. unfold injectSummaryIntoPayload. about_steps. Qed.

Lemma about_forwardRawJSON (url : option string) (rawBody : buf)
    (extraHeaders : list (string * string)) :
  preserves (grows (about w text)) (forwardRawJSON url rawBody extraHeaders).
Proof. unfold forwardRawJSON. about_steps. Qed.

Lemma about_ai_control_path : preserves (grows (about w text)) (ai_control_path w text).
Proof.
  unfold ai_control_path. about_steps;
    first [apply about_getAIReply | apply about_send_reply].
Qed.

End About.

Lemma about_from_message (m w : json) (text s : string) (e : event) :
  text_message_from m w s -> text = trim s -> about w text e -> from_message m e.
Proof.
  intros Hm -> Ha w' Hw'. destruct (Ha w' Hw') as (-> & Ht & Hs).
  exists s. split; [assumption|]. split; assumption.
Qed.

(** The loop bodies: every event is about the sender of the message. *)
Lemma from_message_body (m : json) (k : json -> string -> M unit) :
  (forall w text, preserves (grows (about w text)) (k w text)) ->
  preserves (grows (from_message m))
    (tm <- text_message m ;;
     match tm with
     | None => ret tt
     | Some (waId, text) => k waId text
     end).
Proof.
  intros Hk st. unfold bind.
  pose proof (text_message_state m st) as Hst.
  pose proof (text_message_some m st) as Hsome.
  destruct (text_message m st) as [[[[w text]|]|e] st1]; cbn [snd fst] in *; subst st1;
    try apply grows_refl.
  destruct (Hsome w text eq_refl) as (s & Hm & Ht).
  eapply grows_weaken; [|apply Hk].
  intros e. now apply (about_from_message m w text s).
Qed.

Lemma from_message_basic (m : json) :
  preserves (grows (from_message m)) (basic_message m).
Proof.
  apply (from_message_body m (fun waId text =>
           reply <- getAIReply waId text ;; send_reply waId reply)).
  intros w text.
  apply preserves_bind;
    [apply grows_trans | apply about_getAIReply | intros; apply about_send_reply].
Qed.

Lemma from_message_bridge (raw : buf) (m : json) :
  preserves (grows (from_message m)) (bridge_message raw m).
Proof.
  apply (from_message_body m (fun waId text =>
           if RegExp_test (handoffRegex cfg) text then
             handoff_set waId ;;;
             (if opt_truthy (THREE_CX_WEBHOOK_URL cfg) then
                injectedRaw <- injectSummaryIntoPayload raw "this is the summary" ;;
                forwardRawJSON (THREE_CX_WEBHOOK_URL cfg) injectedRaw [] ;;;
                ret tt
              else ret tt) ;;;
             ok <- sendTemplateFrom3cxNumber waId ;;
             ret tt
           else ai_control_path waId text)).
  intros w text. destruct (RegExp_test (handoffRegex cfg) text) eqn:Hre.
  - preserves_steps (grows_refl (about w text)) (grows_trans (about w text))
      ltac:(first
        [ apply about_injectSummaryIntoPayload
        | apply about_forwardRawJSON
        | apply about_sendTemplateFrom3cxNumber
        | apply grows_handoff_set; intros ? [= <-]; split;
          [reflexivity | split; [intros; discriminate | intros _; exact Hre]] ]).
  - apply about_ai_control_path.
Qed.

Lemma from_message_summary (m : json) :
  preserves (grows (from_message m)) (summary_message m).
Proof.
  apply (from_message_body m (fun waId text =>
           if RegExp_test (handoffRegex cfg) text then
             handoff_set waId ;;;
             sendWaText waId (JString connecting_notice) ;;;
             summary <- getAISummary waId ;;
             sendWaText waId (JString ("Summary so far:" ++ LF ++ ToString summary)) ;;;
             ret tt
           else ai_control_path waId text)).
  intros w text. destruct (RegExp_test (handoffRegex cfg) text) eqn:Hre.
  - preserves_steps (grows_refl (about w text)) (grows_trans (about w text))
      ltac:(first
        [ apply about_sendWaText
        | apply about_getAISummary
        | apply grows_handoff_set; intros ? [= <-]; split;
          [reflexivity | split; [intros; discriminate | intros _; exact Hre]] ]).
  - apply about_ai_control_path.
Qed.

(** The route on the buffer [raw]: every event is attributed to a message
    of the body the buffer holds. *)
Lemma route_attributed (message : buf -> json -> M unit) (raw : buf) (st : state) :
  (forall m, preserves (grows (from_message m)) (message raw m)) ->
  grows (attributed (nth raw (buffers st) EmptyString)) st
    (snd ((text <- Buffer_read raw ;;
           match JSON_parse text with
           | None => ret tt
           | Some payload =>
               messages <- messages_of payload ;;
               for_of messages (message raw)
           end) st)).
Proof.
  intros Hm. unfold bind at 1. unfold Buffer_read. cbn [fst snd].
  set (body := nth raw (buffers st) EmptyString).
  destruct (JSON_parse body) as [payload|] eqn:Hp; [|apply grows_refl].
  unfold bind, messages_of.
  destruct (first_change_messages payload) as [[| | |s| l |]|] eqn:Hf;
    cbn [truthy]; try apply grows_refl;
    try (match goal with |- context [if ?b then _ else _] => destruct b end;
         apply grows_refl).
  - destruct (str_truthy s); [|apply grows_refl]. cbn [ret].
    apply (preserves_for_of_in (grows (attributed body)));
      [apply grows_refl | apply grows_trans |].
    apply Forall_forall. intros m Hin s'.
    apply in_map_iff in Hin. destruct Hin as (c & <- & _).
    eapply grows_weaken; [|apply Hm].
    intros e He w Hw. destruct (He w Hw) as (s0 & (Ht & _) & _). discriminate.
  - cbn [ret].
    apply (preserves_for_of_in (grows (attributed body)));
      [apply grows_refl | apply grows_trans |].
    apply Forall_forall. intros m Hin s'.
    eapply grows_weaken; [|apply Hm].
    intros e He w Hw. destruct (He w Hw) as (s & Hs & Ht & Hset).
    exists l, m, s.
    split; [exists payload; now split|]. split; [assumption|].
    split; [assumption|]. now split.
Qed.

Lemma attributed_response (body : string) (status : Z) : attributed body (Respond status).
Proof. intros w [=]. Qed.

Lemma attributed_forward_events (body : string) (url : option string)
    (hdrs : list (string * string)) (b : string) :
  Forall (attributed body) (forward_events url hdrs b).
Proof.
  unfold forward_events. destruct (opt_truthy url); repeat constructor.
  intros w [=].
Qed.

(** The handler after the acknowledgment: the fan-out, then the route. *)
Lemma after_ack_attributed (fan_out_part route : buf -> M unit)
    (fan : string -> list event) (body : string) (st : state) :
  (forall raw s,
     fan_out_part raw s = (Ok tt, add_events (fan (nth raw (buffers s) EmptyString)) s)) ->
  (forall b, Forall (attributed body) (fan b)) ->
  (forall raw s,
     grows (attributed (nth raw (buffers s) EmptyString)) s (snd (route raw s))) ->
  let raw := List.length (buffers st) in
  exists t,
    trace (snd ((fan_out_part raw ;;; route raw) (after_ack body st))) = trace st ++ t
    /\ Forall (attributed body) t.
Proof.
  intros Hfan Hatt Hroute raw. unfold bind. rewrite Hfan. unfold raw.
  rewrite nth_after_ack.
  match goal with |- context [route ?r ?s] =>
    destruct (Hroute r s) as [_ (t & Ht & HQ)] end.
  rewrite buffers_add_events, nth_after_ack in HQ.
  exists (Respond 200 :: fan body ++ t). split.
  - rewrite Ht. cbn [add_events after_ack trace]. now rewrite <- !app_assoc.
  - constructor; [apply attributed_response|].
    apply Forall_app. split; [apply Hatt | assumption].
Qed.

Lemma rejected_attributed (body : string) (st : state) :
  exists t,
    trace (rejected body st) = trace st ++ t /\ Forall (attributed body) t.
Proof.
  exists [Respond 401]. split; [reflexivity|].
  repeat constructor. apply attributed_response.
Qed.

Lemma basic_post_wa_attributed (sig : option string) (body : string) (st : state) :
  exists t,
    trace (snd (basic_post_wa sig body st)) = trace st ++ t
    /\ Forall (attributed body) t.
Proof.
  destruct (verifySignature_cases body sig) as [Hv|Hv].
  - rewrite basic_post_wa_verified by assumption.
    apply (after_ack_attributed basic_fan_out basic_route
             (forward_events (CHATWOOT_WEBHOOK_URL cfg) chatwoot_headers)).
    + exact basic_fan_out_eq.
    + intros b. apply attributed_forward_events.
    + intros raw s. apply (route_attributed (fun _ => basic_message)).
      exact from_message_basic.
  - rewrite basic_post_wa_rejected by assumption. apply rejected_attributed.
Qed.

Lemma bridge_post_wa_attributed (sig : option string) (body : string) (st : state) :
  exists t,
    trace (snd (bridge_post_wa sig body st)) = trace st ++ t
    /\ Forall (attributed body) t.
Proof.
  destruct (verifySignature_cases body sig) as [Hv|Hv].
  - rewrite bridge_post_wa_verified by assumption.
    apply (after_ack_attributed bridge_fan_out bridge_route
             (forward_events (CHATWOOT_WEBHOOK_URL cfg) chatwoot_headers)).
    + exact bridge_fan_out_eq.
    + intros b. apply attributed_forward_events.
    + intros raw s. apply (route_attributed bridge_message).
      apply from_message_bridge.
  - rewrite bridge_post_wa_rejected by assumption. apply rejected_attributed.
Qed.

Lemma summary_post_wa_attributed (sig : option string) (body : string) (st : state) :
  exists t,
    trace (snd (summary_post_wa sig body st)) = trace st ++ t
    /\ Forall (attributed body) t.
Proof.
  destruct (verifySignature_cases body sig) as [Hv|Hv].
  - rewrite summary_post_wa_verified by assumption.
    apply (after_ack_attributed summary_fan_out summary_route
             (fun b =>
                forward_events (THREE_CX_WEBHOOK_URL cfg) [] b
                ++ forward_events (CHATWOOT_WEBHOOK_URL cfg) chatwoot_headers b)).
    + exact summary_fan_out_eq.
    + intros b. apply Forall_app. split; apply attributed_forward_events.
    + intros raw s. apply (route_attributed (fun _ => summary_message)).
      exact from_message_summary.
  - rewrite summary_post_wa_rejected by assumption. apply rejected_attributed.
Qed.


(** A flag that is set after a trace that obeys was set before, or was
    set by an event of the trace. *)
Lemma obeys_set_by (k : string) (t : list event) : forall flag,
  obeys k flag t = Some true ->
  flag = true \/ In (HandoffSet (JString k)) t.
Proof.
  induction t as [|e t IH]; intros flag H; cbn [obeys] in H.
  - left. now injection H.
  - destruct (flag && is_ai_call_for k e); [discriminate|].
    destruct (IH _ H) as [Hf|Hin]; [|right; now right].
    apply orb_prop in Hf. destruct Hf as [Hf|Hs]; [now left|].
    right. left. destruct e as [| |w]; try discriminate.
    destruct w; try discriminate. cbn in Hs. apply String.eqb_eq in Hs. now subst.
Qed.

Lemma flag_set_by_a_request (k : string) (body : string) (st st' : state) :
  handoff_respected k st st' ->
  (exists t, trace st' = trace st ++ t /\ Forall (attributed body) t) ->
  Map_get (JString k) (handoff st') = true ->
  Map_get (JString k) (handoff st) = true
  \/ exists l m s,
       routed_messages body l /\ In m l /\ text_message_from m (JString k) s
       /\ RegExp_test (handoffRegex cfg) (trim s) = true.
Proof.
  intros (t0 & Ht0 & Hobeys) (t & Ht & Hatt) Hflag.
  rewrite Ht0 in Ht. apply app_inv_head in Ht. subst t0.
  rewrite Hflag in Hobeys. apply obeys_set_by in Hobeys.
  destruct Hobeys as [H|Hin]; [now left | right].
  rewrite Forall_forall in Hatt.
  destruct (Hatt _ Hin (JString k) eq_refl) as (l & m & s & Hl & Hm & Hs & _ & Hre).
  exists l, m, s. repeat split; auto.
  all: apply Hs.
Qed.


(* ================================================================== *)
(** * The helpers that call the backends and the messaging API *)

Lemma fetch_eq (p : purpose) (r : request) (st : state) :
  fetch p r st =
  (match net (List.length (trace st)) with
   | NetworkError m => Thrown (FetchError m)
   | Response resp => Ok resp
   end,
   add_events [Call p r] st).
Proof. unfold fetch. now destruct (net _). Qed.

(** [sendWaText] makes one call; its outcome is that of the call. *)
Lemma sendWaText_eq (waId body : json) (st : state) :
  sendWaText waId body st =
  (match send_outcome (net (List.length (trace st))) with
   | Ok _ => Ok tt
   | Thrown e => Thrown e
   end,
   add_events [send_call waId body] st).
Proof.
  unfold sendWaText, bind. rewrite fetch_eq. unfold send_outcome, send_call.
  destruct (net _) as [m|r]; [reflexivity|].
  destruct (resp_ok r); cbn [negb]; [reflexivity|].
  unfold bind, text_of. now destruct (resp_text r).
Qed.

Lemma getAIReply_trace (waId : json) (text : string) (st : state) :
  snd (getAIReply waId text st) = add_events [ai_call waId text] st.
Proof.
  unfold getAIReply, try_catch, bind. rewrite fetch_eq. unfold ai_call.
  destruct (net _) as [m|r]; [reflexivity|].
  unfold text_of. destruct (resp_text r) as [t|]; [|reflexivity].
  cbn. destruct (resp_ok r); cbn; [|reflexivity].
  unfold parse. destruct (JSON_parse t) as [data|]; [|reflexivity].
  cbn. destruct data; reflexivity.
Qed.

Lemma send_reply_trace (waId : json) (reply : value) (st : state) :
  trace (snd (send_reply waId reply st)) =
  trace st ++
  match reply with
  | Some body => if truthy reply then [send_call waId body] else []
  | None => []
  end.
Proof.
  unfold send_reply. destruct reply as [body|].
  - destruct (truthy (Some body)).
    + now rewrite sendWaText_eq.
    + cbn [ret snd]. now rewrite app_nil_r.
  - cbn [truthy ret snd]. now rewrite app_nil_r.
Qed.

(** The exchange with the AI backend for one message. *)
Lemma exchange_trace (waId : json) (text : string) (st : state) :
  exists reply,
    fst (getAIReply waId text st) = Ok reply
    /\ trace (snd ((reply <- getAIReply waId text ;; send_reply waId reply) st)) =
       trace st ++
       ai_call waId text ::
       match reply with
       | Some body => if truthy reply then [send_call waId body] else []
       | None => []
       end.
Proof.
  pose proof (getAIReply_result waId text st) as Hres.
  pose proof (getAIReply_trace waId text st) as Htr.
  unfold bind. destruct (getAIReply waId text st) as [[reply|e] st1];
    cbn [fst snd] in *; [|discriminate].
  exists reply. split; [reflexivity|].
  rewrite send_reply_trace, Htr. cbn [add_events trace].
  now rewrite <- app_assoc.
Qed.


(** What [getAISummary] resolves to when the endpoint is configured. *)
Lemma getAISummary_eq (waId : json) (st : state) :
  opt_truthy (OPENAI_SUMMARY_ENDPOINT cfg) = true ->
  getAISummary waId st =
  (Ok match net (List.length (trace st)) with
      | NetworkError _ => summary_unavailable
      | Response r =>
          match resp_text r with
          | None => summary_unavailable
          | Some t =>
              if resp_ok r then
                match JSON_parse t with
                | None => summary_unavailable
                | Some JNull => summary_unavailable
                | Some data =>
                    match member data "summary" with
                    | Some s => if truthy (Some s) then s else summary_unavailable
                    | None => summary_unavailable
                    end
                end
              else summary_unavailable
          end
      end,
   add_events [summary_call waId] st).
Proof.
  intros H. unfold getAISummary. rewrite H. cbn [negb].
  unfold try_catch, bind. rewrite fetch_eq. unfold summary_call.
  destruct (net _) as [m|r]; [reflexivity|].
  unfold text_of. destruct (resp_text r) as [t|]; [|reflexivity].
  cbn. destruct (resp_ok r); cbn; [|reflexivity].
  unfold parse. destruct (JSON_parse t) as [data|]; [|reflexivity].
  cbn. destruct data; try reflexivity.
  cbn [strict_member member ret]. destruct (assoc "summary" props); reflexivity.
Qed.

Lemma getAISummary_unset (waId : json) (st : state) :
  opt_truthy (OPENAI_SUMMARY_ENDPOINT cfg) = false ->
  getAISummary waId st = (Ok summary_unavailable, st).
Proof. intros H. unfold getAISummary. now rewrite H. Qed.

(** [getAISummary] resolves to a value that is not falsy, after at most
    one call. *)
Lemma getAISummary_value (waId : json) (st : state) :
  exists v,
    fst (getAISummary waId st) = Ok v
    /\ truthy (Some v) = true
    /\ trace (snd (getAISummary waId st)) =
       trace st ++
       (if opt_truthy (OPENAI_SUMMARY_ENDPOINT cfg) then [summary_call waId] else []).
Proof.
  destruct (opt_truthy (OPENAI_SUMMARY_ENDPOINT cfg)) eqn:He.
  - rewrite (getAISummary_eq waId st He). cbn [fst snd].
    eexists. split; [reflexivity|]. split; [|reflexivity].
    destruct (net _) as [m|r]; [reflexivity|].
    destruct (resp_text r) as [t|]; [|reflexivity].
    destruct (resp_ok r); [|reflexivity].
    destruct (JSON_parse t) as [data|]; [|reflexivity].
    destruct data; try reflexivity. cbn [member].
    destruct (assoc "summary" props) as [s|]; [|reflexivity].
    destruct (truthy (Some s)) eqn:Hs; [assumption | reflexivity].
  - rewrite (getAISummary_unset waId st He). cbn [fst snd].
    eexists. split; [reflexivity|]. split; [reflexivity | now rewrite app_nil_r].
Qed.

(** X12. [getAISummary] never throws and never resolves to a falsy value.
    Without [OPENAI_SUMMARY_ENDPOINT] it makes no call and resolves to
    [Summary not available.]; with it, it makes exactly one call, and it
    resolves to the same text when the call meets a transport error, when
    the status is not a success, when the body cannot be read, when the
    body is not JSON and when its [summary] is missing or falsy. *)
Theorem summary_failure_is_a_fixed_text :
  forall (waId : json) (st : state),
    let outcome := net (List.length (trace st)) in
    let out := getAISummary waId st in
    (exists v, fst out = Ok v /\ truthy (Some v) = true)
    /\ (opt_truthy (OPENAI_SUMMARY_ENDPOINT cfg) = false ->
        out = (Ok summary_unavailable, st))
    /\ (opt_truthy (OPENAI_SUMMARY_ENDPOINT cfg) = true ->
        snd out = add_events [summary_call waId] st)
    /\ (forall m, outcome = NetworkError m -> fst out = Ok summary_unavailable)
    /\ (forall r, outcome = Response r -> resp_ok r = false ->
                  fst out = Ok summary_unavailable)
    /\ (forall r, outcome = Response r -> resp_text r = None ->
                  fst out = Ok summary_unavailable)
    /\ (forall r t,
          outcome = Response r -> resp_text r = Some t -> JSON_parse t = None ->
          fst out = Ok summary_unavailable)
    /\ (forall r t data,
          outcome = Response r -> resp_text r = Some t -> JSON_parse t = Some data ->
          truthy (opt_member (Some data) "summary") = false ->
          fst out = Ok summary_unavailable).
Proof.
  intros waId st outcome out. subst outcome out.
  destruct (opt_truthy (OPENAI_SUMMARY_ENDPOINT cfg)) eqn:He.
  - rewrite (getAISummary_eq waId st He). cbn [fst snd].
    split; [|split; [discriminate|split; [reflexivity|]]].
    + eexists. split; [reflexivity|].
      destruct (net _) as [m|r]; [reflexivity|].
      destruct (resp_text r) as [t|]; [|reflexivity].
      destruct (resp_ok r); [|reflexivity].
      destruct (JSON_parse t) as [data|]; [|reflexivity].
      destruct data; try reflexivity. cbn [member].
      destruct (assoc "summary" props) as [s|]; [|reflexivity].
      destruct (truthy (Some s)) eqn:Hs; [assumption | reflexivity].
    + split; [now intros m ->|].
      split; [intros r -> Hok; rewrite Hok; now destruct (resp_text r)|].
      split; [now intros r -> ->|].
      split; [intros r t -> -> ->; now destruct (resp_ok r)|].
      intros r t data -> -> -> Hs. destruct (resp_ok r); [|reflexivity].
      destruct data; try reflexivity. cbn [opt_member member] in *.
      destruct (assoc "summary" props) as [s|]; [|reflexivity]. now rewrite Hs.
  - rewrite (getAISummary_unset waId st He). cbn [fst snd].
    split; [eexists; split; reflexivity|].
    split; [reflexivity|]. split; [discriminate|].
    repeat split; reflexivity.
Qed.

(** One send of [sendTemplateFrom3cxNumber]: the call, then [false] on a
    status of failure. *)
Lemma window_send_eq (p : purpose) (r : request) (st : state) :
  (resp <- fetch p r ;;
   if negb (resp_ok resp) then err <- text_of resp ;; ret false else ret true) st
  = (send_outcome (net (List.length (trace st))), add_events [Call p r] st).
Proof.
  unfold bind. rewrite fetch_eq. unfold send_outcome.
  destruct (net _) as [m|resp]; [reflexivity|].
  destruct (resp_ok resp); cbn [negb]; [reflexivity|].
  unfold bind, text_of. now destruct (resp_text resp).
Qed.

Lemma sendTemplateFrom3cxNumber_eq (to : json) (st : state) :
  window_credentials = true ->
  sendTemplateFrom3cxNumber to st =
  let n := List.length (trace st) in
  if str_truthy (HANDOFF_TEMPLATE_NAME cfg) then
    match send_outcome (net n) with
    | Ok true => (Ok true, add_events [template_call to] st)
    | Ok false =>
        (send_outcome (net (S n)),
         add_events [template_call to; window_text_call to] st)
    | Thrown e => (Thrown e, add_events [template_call to] st)
    end
  else (send_outcome (net n), add_events [window_text_call to] st).
Proof.
  unfold window_credentials. intros H. apply andb_prop in H. destruct H as [Hid Htok].
  unfold sendTemplateFrom3cxNumber. rewrite Hid, Htok. cbn [negb orb]. cbv zeta.
  destruct (str_truthy (HANDOFF_TEMPLATE_NAME cfg)).
  - unfold bind at 1. rewrite window_send_eq. fold (template_call to).
    destruct (send_outcome (net (List.length (trace st)))) as [[|]|e]; try reflexivity.
    rewrite window_send_eq. fold (window_text_call to).
    rewrite add_events_add_events. cbn [add_events trace].
    rewrite length_app. cbn [List.length]. now rewrite Nat.add_1_r.
  - unfold bind at 1. cbn [ret]. rewrite window_send_eq. reflexivity.
Qed.

Lemma sendTemplateFrom3cxNumber_unset (to : json) (st : state) :
  window_credentials = false -> sendTemplateFrom3cxNumber to st = (Ok false, st).
Proof.
  unfold window_credentials. intros H. unfold sendTemplateFrom3cxNumber.
  rewrite <- negb_andb, H. reflexivity.
Qed.

(** X13. [sendTemplateFrom3cxNumber] sends nothing and returns [false]
    when the phone number id or the token of the 3CX number is missing.
    With a template name it sends the template first; answered with a
    status of success, it returns [true] and sends no free-form text;
    answered with a status of failure, it falls back to the free-form
    text, and its result is the outcome of that second call.  A transport
    error on the template is no fallback: the exception propagates and no
    free-form text is sent.  Without a template name the free-form text is
    the only call. *)
Theorem window_is_opened_by_template_or_text :
  forall (to : json) (st : state),
    let n := List.length (trace st) in
    let out := sendTemplateFrom3cxNumber to st in
    (window_credentials = false -> out = (Ok false, st))
    /\ (window_credentials = true ->
        str_truthy (HANDOFF_TEMPLATE_NAME cfg) = true ->
        send_outcome (net n) = Ok true ->
        out = (Ok true, add_events [template_call to] st))
    /\ (window_credentials = true ->
        str_truthy (HANDOFF_TEMPLATE_NAME cfg) = true ->
        send_outcome (net n) = Ok false ->
        out = (send_outcome (net (S n)),
               add_events [template_call to; window_text_call to] st))
    /\ (forall e,
          window_credentials = true ->
          str_truthy (HANDOFF_TEMPLATE_NAME cfg) = true ->
          send_outcome (net n) = Thrown e ->
          out = (Thrown e, add_events [template_call to] st))
    /\ (window_credentials = true ->
        str_truthy (HANDOFF_TEMPLATE_NAME cfg) = false ->
        out = (send_outcome (net n), add_events [window_text_call to] st)).
Proof.
  intros to st n out. subst n out.
  split; [apply sendTemplateFrom3cxNumber_unset|].
  split; [intros Hc Ht Hs; rewrite sendTemplateFrom3cxNumber_eq by assumption;
          cbv zeta; now rewrite Ht, Hs|].
  split; [intros Hc Ht Hs; rewrite sendTemplateFrom3cxNumber_eq by assumption;
          cbv zeta; now rewrite Ht, Hs|].
  split; [intros e Hc Ht Hs; rewrite sendTemplateFrom3cxNumber_eq by assumption;
          cbv zeta; now rewrite Ht, Hs|].
  intros Hc Ht. rewrite sendTemplateFrom3cxNumber_eq by assumption.
  cbv zeta. now rewrite Ht.
Qed.

(** The events of [sendTemplateFrom3cxNumber] are its two calls. *)
Lemma sendTemplateFrom3cxNumber_trace (to : json) (st : state) :
  exists t,
    trace (snd (sendTemplateFrom3cxNumber to st)) = trace st ++ t
    /\ Forall (window_event to) t.
Proof.
  destruct window_credentials eqn:Hc.
  - rewrite sendTemplateFrom3cxNumber_eq by assumption. cbv zeta.
    destruct (str_truthy _); [destruct (send_outcome _) as [[|]|e]|];
      eexists; (split; [reflexivity|]); repeat constructor;
      first [now left | now right].
  - rewrite sendTemplateFrom3cxNumber_unset by assumption.
    exists []. split; [cbn; now rewrite app_nil_r | constructor].
Qed.

(* ================================================================== *)
(** * The handoff *)

(** The branch of [Bridge] for a text that asks for a human. *)
Lemma bridge_handoff_trace (raw : buf) (w : json) (st : state) :
  exists b t,
    trace
      (snd ((handoff_set w ;;;
             (if opt_truthy (THREE_CX_WEBHOOK_URL cfg) then
                injectedRaw <- injectSummaryIntoPayload raw "this is the summary" ;;
                forwardRawJSON (THREE_CX_WEBHOOK_URL cfg) injectedRaw [] ;;;
                ret tt
              else ret tt) ;;;
             ok <- sendTemplateFrom3cxNumber w ;;
             ret tt) st))
    = trace st ++
      HandoffSet w :: forward_events (THREE_CX_WEBHOOK_URL cfg) [] b ++ t
    /\ Forall (window_event w) t.
Proof.
  unfold bind at 1. unfold handoff_set.
  set (st1 := mkState (Map_set w true (handoff st)) (buffers st)
                (trace st ++ [HandoffSet w])).
  assert (Hrest : forall b (s : state),
            trace s = trace st1 ++ forward_events (THREE_CX_WEBHOOK_URL cfg) [] b ->
            exists t,
              trace (snd ((ok <- sendTemplateFrom3cxNumber w ;; ret tt) s))
              = trace st ++
                HandoffSet w :: forward_events (THREE_CX_WEBHOOK_URL cfg) [] b ++ t
              /\ Forall (window_event w) t).
  { intros b s Hs. destruct (sendTemplateFrom3cxNumber_trace w s) as (t & Ht & HQ).
    exists t. split; [|assumption].
    unfold bind. destruct (sendTemplateFrom3cxNumber w s) as [[ok|e] s'];
      cbn [snd ret] in *; rewrite Ht, Hs; cbn [st1 trace];
      now rewrite <- !app_assoc. }
  unfold forward_events in *.
  destruct (opt_truthy (THREE_CX_WEBHOOK_URL cfg)) eqn:Hu.
  - destruct (inject_allocates_only raw "this is the summary" st1) as (b & new & Hi).
    unfold bind at 1. unfold bind at 1. rewrite Hi.
    unfold bind at 1. rewrite forwardRawJSON_calls by assumption. cbn [ret].
    eexists. apply Hrest. cbn [add_events trace]. reflexivity.
  - unfold bind at 1. cbn [ret]. exists EmptyString.
    apply (Hrest EmptyString). now rewrite app_nil_r.
Qed.

Lemma window_event_not_ai (w : json) (e : event) : window_event w e -> is_ai_call e = false.
Proof. now intros [-> | ->]. Qed.

(** The branch of [Summary] for a text that asks for a human. *)
Lemma summary_handoff_trace (w : json) (st : state) :
  exists t,
    trace
      (snd ((handoff_set w ;;;
             sendWaText w (JString connecting_notice) ;;;
             summary <- getAISummary w ;;
             sendWaText w (JString ("Summary so far:" ++ LF ++ ToString summary)) ;;;
             ret tt) st))
    = trace st ++ HandoffSet w :: t
    /\ Forall (fun e => is_ai_call e = false) t.
Proof.
  assert (H : preserves (grows (fun e => is_ai_call e = false))
            (sendWaText w (JString connecting_notice) ;;;
             summary <- getAISummary w ;;
             sendWaText w (JString ("Summary so far:" ++ LF ++ ToString summary)) ;;;
             ret tt)).
  { unfold sendWaText, getAISummary.
    preserves_steps (grows_refl (fun e => is_ai_call e = false))
                    (grows_trans (fun e => is_ai_call e = false))
      ltac:(apply grows_fetch; reflexivity). }
  unfold bind at 1. unfold handoff_set.
  match goal with |- context [snd (_ ?s)] =>
    destruct (H s) as [_ (t & Ht & HQ)] end.
  exists t. split; [|assumption].
  rewrite Ht. cbn [trace]. now rewrite <- app_assoc.
Qed.

Lemma flag_after_trace (k : string) (st st' : state) (t : list event) :
  handoff_respected k st st' ->
  trace st' = trace st ++ HandoffSet (JString k) :: t ->
  Map_get (JString k) (handoff st') = true.
Proof.
  intros (t0 & Ht0 & Hobeys) Ht. rewrite Ht0 in Ht. apply app_inv_head in Ht. subst t0.
  apply (obeys_set _ _ _ _ Hobeys). exists (HandoffSet (JString k)).
  split; [now left | cbn; apply String.eqb_refl].
Qed.


Lemma count_app (f : event -> bool) (t1 t2 : list event) :
  count f (t1 ++ t2) = (count f t1 + count f t2)%nat.
Proof. unfold count. now rewrite filter_app, length_app. Qed.

Lemma count_none (f : event -> bool) (t : list event) :
  Forall (fun e => f e = false) t -> count f t = 0%nat.
Proof.
  unfold count. induction 1 as [|e t He _ IH]; cbn [filter]; [reflexivity|].
  now rewrite He.
Qed.

Lemma balanced_refl (st : state) : balanced st st.
Proof.
  exists []. split; [now rewrite app_nil_r|]. now destruct (opt_truthy _).
Qed.

Lemma balanced_trans (a b c : state) : balanced a b -> balanced b c -> balanced a c.
Proof.
  intros (t1 & Ht1 & H1) (t2 & Ht2 & H2). exists (t1 ++ t2). split.
  - now rewrite Ht2, Ht1, app_assoc.
  - rewrite !count_app, H1, H2. now destruct (opt_truthy _).
Qed.

(** Events that are neither forwards nor writes to the map leave the
    balance as it is. *)
Lemma balanced_grows (st st' : state) :
  grows (fun e => is_forward e = false /\ is_flag_write e = false) st st' ->
  balanced st st'.
Proof.
  intros [_ (t & Ht & HQ)]. exists t. split; [assumption|].
  rewrite !count_none.
  - now destruct (opt_truthy _).
  - eapply Forall_impl; [|exact HQ]. now intros e [_ H].
  - eapply Forall_impl; [|exact HQ]. now intros e [H _].
Qed.

Lemma balanced_bridge_message (raw : buf) (m : json) :
  preserves balanced (bridge_message raw m).
Proof.
  intros st. unfold bridge_message, bind at 1.
  pose proof (text_message_state m st) as Hst.
  destruct (text_message m st) as [[[[w text]|]|e] st1]; cbn [snd] in *; subst st1;
    try apply balanced_refl.
  destruct (RegExp_test (handoffRegex cfg) text).
  - destruct (bridge_handoff_trace raw w st) as (b & t & Ht & HQ).
    eexists. split; [exact Ht|].
    change (HandoffSet w :: forward_events (THREE_CX_WEBHOOK_URL cfg) [] b ++ t)
      with ([HandoffSet w] ++ forward_events (THREE_CX_WEBHOOK_URL cfg) [] b ++ t).
    rewrite !count_app.
    rewrite (count_none is_forward t), (count_none is_flag_write t);
      try (eapply Forall_impl; [|exact HQ]; now intros e [-> | ->]).
    unfold forward_events. now destruct (opt_truthy _).
  - apply balanced_grows, grows_ai_control_path.
    intros p r Hp. destruct p; first [now split | now elim Hp].
Qed.

(** X15. In [Bridge], after the acknowledgment and the forward of the
    fan-out to Chatwoot, the handler forwards once for each write to the
    handoff map when [THREE_CX_WEBHOOK_URL] is set, and never when it is
    not: 3CX is sent one (annotated) payload per request for a human, and
    messages that ask for no human are never forwarded to it. *)
Theorem bridge_forwards_once_per_handoff :
  forall (sig : option string) (body : string) (st : state),
    verifySignature body sig = Ok true ->
    exists t,
      trace (snd (bridge_post_wa sig body st)) =
      trace st ++
      Respond 200
      :: forward_events (CHATWOOT_WEBHOOK_URL cfg) chatwoot_headers body ++ t
      /\ count is_forward t
         = if opt_truthy (THREE_CX_WEBHOOK_URL cfg)
           then count is_flag_write t else 0%nat.
Proof.
  intros sig body st Hv. rewrite bridge_post_wa_verified by assumption.
  unfold bind at 1. rewrite bridge_fan_out_eq, nth_after_ack.
  assert (H : preserves balanced (bridge_route (List.length (buffers st)))).
  { unfold bridge_route.
    preserves_steps balanced_refl balanced_trans ltac:(apply balanced_bridge_message). }
  match goal with |- context [snd (_ ?s)] => destruct (H s) as (t & Ht & Hc) end.
  exists t. split; [|assumption].
  rewrite Ht. cbn [add_events after_ack trace]. now rewrite <- !app_assoc.
Qed.

(** The handoff of [Summary], step by step. *)
Lemma summary_handoff_eq (w : json) (st : state) :
  let st1 := snd (handoff_set w st) in
  let n := List.length (trace st) in
  (handoff_set w ;;;
   sendWaText w (JString connecting_notice) ;;;
   summary <- getAISummary w ;;
   sendWaText w (JString ("Summary so far:" ++ LF ++ ToString summary)) ;;;
   ret tt) st
  = match send_outcome (net (S n)) with
    | Thrown e => (Thrown e, add_events [send_call w (JString connecting_notice)] st1)
    | Ok _ =>
        (summary <- getAISummary w ;;
         sendWaText w (JString ("Summary so far:" ++ LF ++ ToString summary)) ;;;
         ret tt)
          (add_events [send_call w (JString connecting_notice)] st1)
    end.
Proof.
  intros st1 n. subst st1. unfold bind at 1. unfold handoff_set. cbn [snd].
  unfold bind at 1. rewrite sendWaText_eq. cbn [trace].
  rewrite length_app. cbn [List.length]. rewrite Nat.add_1_r. fold n.
  now destruct (send_outcome (net (S n))).
Qed.


(* ================================================================== *)
(** * The annotation of the payload *)

Lemma assoc_assoc_set (k : string) (new : json) (ps : list (string * json)) :
  assoc k ps <> None -> assoc k (assoc_set k new ps) = Some new.
Proof.
  induction ps as [|[k' v] ps IH]; cbn [assoc assoc_set]; [congruence|].
  destruct (String.eqb k' k) eqn:Hk; cbn [assoc]; rewrite Hk; auto.
Qed.

Lemma assoc_assoc_set_other (k k' : string) (new : json) (ps : list (string * json)) :
  k' <> k -> assoc k' (assoc_set k new ps) = assoc k' ps.
Proof.
  intros Hne. induction ps as [|[k0 v] ps IH]; cbn [assoc assoc_set]; [reflexivity|].
  destruct (String.eqb k0 k) eqn:Hk; cbn [assoc].
  - apply String.eqb_eq in Hk. subst k0.
    destruct (String.eqb k k') eqn:Hk'; [|reflexivity].
    apply String.eqb_eq in Hk'. now elim Hne.
  - now rewrite IH.
Qed.

Lemma member_set_member (v : json) (k : string) (new x : json) :
  member v k = Some x -> member (set_member v k new) k = Some new.
Proof.
  destruct v; cbn [member set_member]; try discriminate.
  intros H. apply assoc_assoc_set. congruence.
Qed.

Lemma member_set_member_other (v : json) (k k' : string) (new : json) :
  k' <> k -> member (set_member v k new) k' = member v k'.
Proof.
  intros H. destruct v; cbn [member set_member]; try reflexivity.
  now apply assoc_assoc_set_other.
Qed.

(** The first element of a value whose first element has a property. *)
Lemma index0_set_index0 (v new x y : json) (k : string) :
  index0 v = Some x -> member x k = Some y -> index0 (set_index0 v new) = Some new.
Proof.
  destruct v as [| | |s|[|e l]|ps]; cbn [index0 set_index0]; try discriminate.
  - destruct s; [discriminate|]. intros [= <-]. discriminate.
  - reflexivity.
  - intros H _. apply assoc_assoc_set. congruence.
Qed.

(** Reading the messages after writing them gives what was written. *)
Lemma first_change_messages_set (obj old new : json) :
  first_change_messages obj = Some old ->
  first_change_messages (set_first_change_messages obj new) = Some new.
Proof.
  unfold first_change_messages, set_first_change_messages, opt_member, opt_index0.
  destruct (member obj "entry") as [entry|] eqn:H1; [|discriminate].
  destruct (index0 entry) as [entry0|] eqn:H2; [|discriminate].
  destruct (member entry0 "changes") as [changes|] eqn:H3; [|discriminate].
  destruct (index0 changes) as [change0|] eqn:H4; [|discriminate].
  destruct (member change0 "value") as [v|] eqn:H5; [|discriminate].
  intros H6.
  rewrite (member_set_member _ _ _ _ H1).
  rewrite (index0_set_index0 _ _ _ _ _ H2 H3).
  rewrite (member_set_member _ _ _ _ H3).
  rewrite (index0_set_index0 _ _ _ _ _ H4 H5).
  rewrite (member_set_member _ _ _ _ H5).
  apply (member_set_member _ _ _ _ H6).
Qed.

(** Nothing outside [entry] is written. *)
Lemma set_first_change_messages_other (obj new : json) (k : string) :
  k <> "entry" -> member (set_first_change_messages obj new) k = member obj k.
Proof.
  intros Hk. unfold set_first_change_messages.
  repeat match goal with
         | |- context [match ?x with Some _ => _ | None => _ end] =>
             destruct x; try reflexivity
         end.
  now apply member_set_member_other.
Qed.

Lemma annotate_first_at (summary : string) (pre : list json) (m : json) (post : list json) :
  existsb injectable pre = false -> injectable m = true ->
  annotate_first summary (pre ++ m :: post) = pre ++ annotate summary m :: post.
Proof.
  intros Hpre Hm. induction pre as [|x pre IH]; cbn [app annotate_first].
  - now rewrite Hm.
  - cbn [existsb] in Hpre. apply orb_false_iff in Hpre. destruct Hpre as [Hx Hpre].
    now rewrite Hx, IH.
Qed.

Lemma annotate_body (summary : string) (m b : json) :
  opt_member (member m "text") "body" = Some b ->
  opt_member (member (annotate summary m) "text") "body"
  = Some (JString (ToString b ++ annotation summary)).
Proof.
  unfold annotate, opt_member.
  destruct (member m "text") as [t|] eqn:Ht; [|discriminate].
  intros Hb. rewrite Hb.
  rewrite (member_set_member _ _ _ _ Ht).
  apply (member_set_member _ _ _ _ Hb).
Qed.

Lemma annotate_other (summary : string) (m : json) (k : string) :
  k <> "text" -> member (annotate summary m) k = member m k.
Proof.
  intros Hk. unfold annotate.
  destruct (member m "text") as [t|]; [|reflexivity].
  destruct (member t "body"); [|reflexivity].
  now apply member_set_member_other.
Qed.


(* ================================================================== *)
(** * The classifier *)

Lemma string_rev_onto_twice (s : string) : forall acc acc',
  string_rev_onto (string_rev_onto s acc) acc' = string_rev_onto acc (s ++ acc')%string.
Proof.
  induction s as [|c s IH]; intros acc acc'; cbn [string_rev_onto append].
  - reflexivity.
  - rewrite IH. reflexivity.
Qed.

Lemma append_nil_r (s : string) : (s ++ EmptyString)%string = s.
Proof. induction s as [|c s IH]; cbn; congruence. Qed.

Lemma string_rev_rev_onto (s : string) :
  string_rev (string_rev_onto s EmptyString) = s.
Proof. unfold string_rev. rewrite string_rev_onto_twice. cbn. apply append_nil_r. Qed.

Lemma split_on_append (sep : ascii) (s : string) : forall rest cur,
  has_char sep s = false ->
  split_on sep (s ++ rest)%string cur = split_on sep rest (string_rev_onto s cur).
Proof.
  induction s as [|c s IH]; intros rest cur H; cbn [append split_on string_rev_onto].
  - reflexivity.
  - cbn [has_char] in H. apply orb_false_iff in H. destruct H as [Hc Hs].
    rewrite Hc. now apply IH.
Qed.

(** Splitting what was joined gives the list back, when no element holds
    the separator. *)
Lemma str_split_join (sep : ascii) (l : list string) :
  l <> [] -> Forall (fun x => has_char sep x = false) l ->
  str_split sep (str_join (String sep EmptyString) l) = l.
Proof.
  intros Hne H. unfold str_split. induction H as [|x l Hx Hl IH]; [now elim Hne|].
  destruct l as [|y l].
  - cbn [str_join]. rewrite <- (append_nil_r x) at 1.
    rewrite split_on_append by assumption. cbn [split_on].
    now rewrite string_rev_rev_onto.
  - cbn [str_join]. rewrite split_on_append by assumption.
    cbn [append split_on]. rewrite Ascii.eqb_refl, string_rev_rev_onto.
    f_equal. apply IH. discriminate.
Qed.

Lemma literal_keyword_no_bar (kw : string) :
  literal_keyword kw = true -> has_char "|" kw = false.
Proof.
  induction kw as [|c kw IH]; cbn [literal_keyword has_char]; [reflexivity|].
  intros H. apply andb_prop in H. destruct H as [H Hr].
  apply andb_prop in H. destruct H as [_ Hc].
  rewrite (IH Hr), orb_false_r.
  destruct (Ascii.eqb c "|") eqn:He; [|reflexivity].
  apply Ascii.eqb_eq in He. subst c. discriminate Hc.
Qed.


Lemma fold_case_idempotent (c : ascii) : fold_case (fold_case c) = fold_case c.
Proof.
  clear JSON_parse JSON_stringify Number_toString cfg net.
  destruct ((97 <=? byte_of_ascii c) && (byte_of_ascii c <=? 122)) eqn:H.
  - assert (Hc : fold_case c = ascii_of_byte (byte_of_ascii c - 32))
      by (unfold fold_case; now rewrite H).
    rewrite Hc. apply andb_prop in H. destruct H as [H1 H2].
    apply Z.leb_le in H1. apply Z.leb_le in H2.
    unfold fold_case.
    assert (Hb : byte_of_ascii (ascii_of_byte (byte_of_ascii c - 32))
                 = byte_of_ascii c - 32).
    { unfold byte_of_ascii at 1, ascii_of_byte. rewrite N_ascii_embedding; lia. }
    rewrite Hb. destruct (Z.leb_spec 97 (byte_of_ascii c - 32)); [lia | reflexivity].
  - assert (Hc : fold_case c = c) by (unfold fold_case; now rewrite H).
    now rewrite !Hc.
Qed.

Lemma prefix_ci_fold (p : string) : forall s,
  prefix_ci p (fold_string s) = prefix_ci p s.
Proof.
  induction p as [|a p IH]; intros [|b s]; cbn [prefix_ci fold_string]; try reflexivity.
  now rewrite fold_case_idempotent, IH.
Qed.

Lemma includes_ci_fold (p s : string) : includes_ci p (fold_string s) = includes_ci p s.
Proof.
  induction s as [|b s IH].
  - reflexivity.
  - cbn [includes_ci fold_string].
    change (String (fold_case b) (fold_string s)) with (fold_string (String b s)).
    now rewrite prefix_ci_fold, IH.
Qed.

Lemma prefix_ci_append (p : string) : forall s post,
  prefix_ci p s = true -> prefix_ci p (s ++ post)%string = true.
Proof.
  induction p as [|a p IH]; intros s post H; [reflexivity|].
  destruct s as [|b s]; [discriminate|]. cbn [prefix_ci append] in *.
  apply andb_prop in H. destruct H as [H1 H2]. now rewrite H1, IH.
Qed.

Lemma includes_ci_append (p s post : string) :
  includes_ci p s = true -> includes_ci p (s ++ post)%string = true.
Proof.
  induction s as [|b s IH]; intros H.
  - cbn [includes_ci] in H. rewrite orb_false_r in H.
    destruct p; [|discriminate]. cbn [append]. now destruct post.
  - cbn [includes_ci] in H. apply orb_prop in H.
    change (String b s ++ post)%string with (String b (s ++ post)%string).
    cbn [includes_ci].
    destruct H as [H|H].
    + change (String b (s ++ post)%string) with (String b s ++ post)%string.
      now rewrite (prefix_ci_append p (String b s) post H).
    + rewrite IH by assumption. apply orb_true_r.
Qed.

Lemma includes_ci_prepend (p pre s : string) :
  includes_ci p s = true -> includes_ci p (pre ++ s)%string = true.
Proof.
  intros H. induction pre as [|c pre IH]; cbn [append]; [assumption|].
  cbn [includes_ci]. rewrite IH. apply orb_true_r.
Qed.

Lemma existsb_agree {A : Type} (f g : A -> bool) (l : list A) :
  (forall a, f a = g a) -> existsb f l = existsb g l.
Proof. intros H. induction l as [|a l IH]; cbn [existsb]; [reflexivity|]. now rewrite H, IH. Qed.

Lemma RegExp_test_ext (re : RegExp) (t1 t2 : string) :
  (forall p, includes_ci p t1 = true -> includes_ci p t2 = true) ->
  RegExp_test re t1 = true -> RegExp_test re t2 = true.
Proof.
  intros H. unfold RegExp_test. rewrite !existsb_exists.
  intros (p & Hin & Hp). exists p. split; [assumption | now apply H].
Qed.


(* ================================================================== *)
(** * The verification of the webhook *)

Lemma startup_ok_verify_token :
  startup_ok cfg = true ->
  exists t, VERIFY_TOKEN cfg = Some t /\ str_truthy t = true.
Proof.
  unfold startup_ok. intros H.
  repeat (apply andb_prop in H; destruct H as [H _]).
  destruct (VERIFY_TOKEN cfg) as [t|]; [eauto | discriminate].
Qed.

(** X20. The verification of the webhook ([GET /wa]) under a configuration
    that passes the check at start-up: the challenge is echoed with status
    200 exactly when [hub.mode] is the string [subscribe] and
    [hub.verify_token] is the string [VERIFY_TOKEN]; every other request
    is answered 403, and so are the requests without a token, with an
    empty token, and with a token given twice.  What is echoed is the
    challenge as the request gave it, also when it is missing. *)
Theorem webhook_verification_needs_the_token :
  forall (q : query),
    startup_ok cfg = true ->
    let mode := query_get "hub.mode" q in
    let token := query_get "hub.verify_token" q in
    let matches :=
      mode = Some (QString "subscribe")
      /\ exists t, token = Some (QString t) /\ VERIFY_TOKEN cfg = Some t in
    (matches -> get_wa q = ReplySend 200 (query_get "hub.challenge" q))
    /\ (~ matches -> get_wa q = ReplyStatus 403)
    /\ (token = None -> get_wa q = ReplyStatus 403)
    /\ (token = Some (QString EmptyString) -> get_wa q = ReplyStatus 403)
    /\ (forall l, token = Some (QArray l) -> get_wa q = ReplyStatus 403).
Proof.
  intros q Hok mode token matches.
  destruct (startup_ok_verify_token Hok) as (vt & Hvt & Hne).
  assert (Hyes : matches -> get_wa q = ReplySend 200 (query_get "hub.challenge" q)).
  { intros (Hmode & t & Htoken & Ht). unfold get_wa. fold mode token.
    rewrite Hmode, Htoken, Ht. cbn [strict_equal]. now rewrite !String.eqb_refl. }
  assert (Hno : ~ matches -> get_wa q = ReplyStatus 403).
  { intros Hn. unfold get_wa. fold mode token.
    destruct (strict_equal mode (Some "subscribe")) eqn:Hm; [|reflexivity].
    destruct (strict_equal token (VERIFY_TOKEN cfg)) eqn:Ht; [|reflexivity].
    elim Hn. split.
    - destruct mode as [[]|]; try discriminate.
      cbn in Hm. apply String.eqb_eq in Hm. now subst.
    - rewrite Hvt in Ht. destruct token as [[t| |]|]; try discriminate.
      cbn in Ht. apply String.eqb_eq in Ht. subst. eauto. }
  split; [assumption|]. split; [assumption|].
  split; [|split].
  - intros Ht. apply Hno. intros (_ & t & Ht' & _). congruence.
  - intros Ht. apply Hno. intros (_ & t & Ht' & Hcfg).
    rewrite Ht in Ht'. injection Ht' as <-. rewrite Hvt in Hcfg.
    injection Hcfg as ->. discriminate.
  - intros l Ht. apply Hno. intros (_ & t & Ht' & _). congruence.
Qed.

(* ================================================================== *)
(** * The credentials of the AI backend *)

Lemma base64_value_char (n : Z) :
  0 <= n < 64 -> base64_value (base64_char n) = Some n.
Proof.
  clear JSON_parse JSON_stringify Number_toString cfg net.
  intros Hn.
  assert (Hall : forallb (fun k => match base64_value (base64_char (Z.of_nat k)) with
                                   | Some v => v =? Z.of_nat k
                                   | None => false
                                   end) (seq 0 64) = true) by (vm_compute; reflexivity).
  rewrite forallb_forall in Hall.
  specialize (Hall (Z.to_nat n)). rewrite Z2Nat.id in Hall by lia.
  destruct (base64_value (base64_char n)) as [v|].
  - f_equal. apply Z.eqb_eq, Hall, in_seq. lia.
  - discriminate Hall. apply in_seq. lia.
Qed.

Lemma base64_decode_triple (a b c : Z) (r : string) (l : list Z) :
  0 <= a < 256 -> 0 <= b < 256 -> 0 <= c < 256 ->
  base64_decode r = Some l ->
  base64_decode
    (String (base64_char (a / 4))
       (String (base64_char ((a mod 4) * 16 + b / 16))
          (String (base64_char ((b mod 16) * 4 + c / 64))
             (String (base64_char (c mod 64)) r))))
  = Some (a :: b :: c :: l).
Proof.
  clear JSON_parse JSON_stringify Number_toString cfg net.
  intros Ha Hb Hc Hr. cbn [base64_decode].
  rewrite !base64_value_char, Hr
    by (Z.div_mod_to_equations; lia).
  repeat f_equal; Z.div_mod_to_equations; lia.
Qed.

Lemma base64_decode_encode_fuel (n : nat) : forall l,
  (List.length l <= n)%nat ->
  Forall (fun b => 0 <= b < 256) l ->
  base64_decode (base64 l) = Some l.
Proof.
  clear JSON_parse JSON_stringify Number_toString cfg net.
  induction n as [|n IH]; intros l Hlen Hl.
  - destruct l; [reflexivity | cbn in Hlen; lia].
  - destruct l as [|a [|b [|c r]]]; [reflexivity | | |].
    + inversion Hl as [|? ? Ha _]; subst.
      cbn [base64 base64_decode].
      rewrite !base64_value_char by (Z.div_mod_to_equations; lia).
      cbn. repeat f_equal. Z.div_mod_to_equations; lia.
    + inversion Hl as [|? ? Ha Hl']; subst. inversion Hl' as [|? ? Hb _]; subst.
      cbn [base64 base64_decode].
      rewrite !base64_value_char by (Z.div_mod_to_equations; lia).
      cbn. repeat f_equal; Z.div_mod_to_equations; lia.
    + inversion Hl as [|? ? Ha Hl']; subst. inversion Hl' as [|? ? Hb Hl'']; subst.
      inversion Hl'' as [|? ? Hc Hr]; subst.
      cbn [base64]. apply base64_decode_triple; try assumption.
      apply IH; [cbn in Hlen; lia | assumption].
Qed.

(** Decoding what [toString("base64")] gives returns the bytes. *)
Lemma base64_decode_encode (l : list Z) :
  Forall (fun b => 0 <= b < 256) l -> base64_decode (base64 l) = Some l.
Proof. apply (base64_decode_encode_fuel (List.length l)). apply Nat.le_refl. Qed.

Lemma bytes_of_string_range (s : string) :
  Forall (fun b => 0 <= b < 256) (bytes_of_string s).
Proof.
  clear JSON_parse JSON_stringify Number_toString cfg net.
  unfold bytes_of_string. induction s as [|c s IH]; cbn [list_ascii_of_string map];
    constructor; [|assumption].
  unfold byte_of_ascii. pose proof (N_ascii_bounded c). lia.
Qed.

(** X21. The credentials sent to the AI backend and to the summary
    backend: [maybeAuthHeader] gives no header unless [N8N_BASIC_USER] and
    [N8N_BASIC_PASS] are both set and not empty; when they are, it gives the
    single header [Authorization], made of [Basic], a space, and a base64
    text that decodes to the bytes of the user, a colon and the password. *)
Theorem basic_auth_header_round_trip :
  (opt_truthy (N8N_BASIC_USER cfg) && opt_truthy (N8N_BASIC_PASS cfg) = false ->
   maybeAuthHeader = [])
  /\ (forall user pass,
        N8N_BASIC_USER cfg = Some user -> str_truthy user = true ->
        N8N_BASIC_PASS cfg = Some pass -> str_truthy pass = true ->
        exists token,
          maybeAuthHeader = [("Authorization", "Basic " ++ token)%string]
          /\ base64_decode token = Some (bytes_of_string (user ++ ":" ++ pass))).
Proof.
  unfold maybeAuthHeader. split.
  - now intros ->.
  - intros user pass Hu Htu Hp Htp. rewrite Hu, Hp. cbn [opt_truthy env_str with_default].
    rewrite Htu, Htp. cbn [andb].
    eexists. split; [reflexivity|].
    apply base64_decode_encode, bytes_of_string_range.
Qed.

End Program.

(* ================================================================== *)
(** * The model on the sample events *)

Import Sample.
Local Open Scope list_scope.

(** The first scenario of the specification: a [hello] answered by the AI
    backend is relayed to the sender, and no flag is set. *)
Example scenario_ai_reply :
  let out :=
    basic_post_wa Reference.JSON_parse Reference.JSON_stringify config_min net_up
      (Some hello_sig) hello_body initial_state in
  fst out = Ok tt
  /\ calls (trace (snd out)) = [PAIReply user "hello"; PSendText user (JString "hi there")]
  /\ handoff (snd out) = [].
Proof. vm_compute. repeat split. Qed.

(** The second and third scenarios: a request for a human sets the flag,
    opens the window from the other number and calls no AI backend; the
    message that follows, of the same sender, is left unanswered. *)
Example scenario_handoff :
  let out :=
    bridge_post_wa Reference.JSON_parse Reference.JSON_stringify
      Reference.Number_toString config_all net_up
      (Some handoff_sig) handoff_body initial_state in
  fst out = Ok tt
  /\ calls (trace (snd out)) = [PForward; PForward; PSendWindowText user]
  /\ Map_get user (handoff (snd out)) = true.
Proof. vm_compute. repeat split. Qed.

(** The last scenario: without a valid signature the response is 401 and
    nothing else happens. *)
Example scenario_unauthorized :
  summary_post_wa Reference.JSON_parse Reference.JSON_stringify
    Reference.Number_toString config_all net_up
    (Some "sha256=00") hello_body initial_state
  = (Ok tt, mkState [] [hello_body] [Respond 401]).
Proof. vm_compute. reflexivity. Qed.

(** At a request with a valid signature, under a network whose first call
    fails. *)
Lemma ack_precedes_every_outbound_call_witness :
  acknowledged_first initial_state
    (snd (basic_post_wa Reference.JSON_parse Reference.JSON_stringify config_all
            (net_reset_at 1) (Some hello_sig) hello_body initial_state))
  /\ acknowledged_first initial_state
       (snd (bridge_post_wa Reference.JSON_parse Reference.JSON_stringify
               Reference.Number_toString config_all
               (net_reset_at 1) (Some hello_sig) hello_body initial_state))
  /\ acknowledged_first initial_state
       (snd (summary_post_wa Reference.JSON_parse Reference.JSON_stringify
               Reference.Number_toString config_all
               (net_reset_at 1) (Some hello_sig) hello_body initial_state)).
Proof.
  apply (ack_precedes_every_outbound_call Reference.JSON_parse
           Reference.JSON_stringify Reference.Number_toString config_all
           (net_reset_at 1) (Some hello_sig) hello_body initial_state).
  vm_compute. reflexivity.
Defined.

(** With [HANDOFF_KEYWORDS] set to a comma between two spaces, the text
    [hello] is classified as a request for a human. *)
Lemma empty_keywords_match_every_text_witness :
  source (handoffRegex config_blank_keywords) = EmptyString
  /\ RegExp_test (handoffRegex config_blank_keywords) "hello" = true.
Proof.
  apply (empty_keywords_match_every_text config_blank_keywords "hello").
  repeat constructor.
Defined.

(** With no keyword configured, [Bridge] hands every conversation off: the
    [hello] of the first scenario sets the flag and reaches no AI backend. *)
Example blank_keywords_hand_off_everything :
  let out :=
    bridge_post_wa Reference.JSON_parse Reference.JSON_stringify
      Reference.Number_toString config_blank_keywords net_up
      (Some hello_sig) hello_body initial_state in
  trace (snd out) = [Respond 200; HandoffSet user]
  /\ Map_get user (handoff (snd out)) = true.
Proof. vm_compute. split; reflexivity. Qed.

(** C4 as the specification states it fails: the body [{ }] parses to the empty
    object, which holds no text message, and the injector returns the
    bytes [{}], which are not the input. *)
Lemma inject_reserializes :
  Reference.JSON_parse "{ }" = Some (JObject [])
  /\ has_text_message (JObject []) = false
  /\ returned_bytes
       (injectSummaryIntoPayload Reference.JSON_parse Reference.JSON_stringify
          Reference.Number_toString 0%nat "this is the summary"
          (mkState [] ["{ }"] []))
     = Some "{}"
  /\ "{}" <> "{ }".
Proof. vm_compute. repeat split. discriminate. Qed.

(** C5, which the code violates. An event with two text messages of two
    senders; the AI backend answers, and the send of the first reply meets
    a transport error.  The handler ends with that exception, and the
    second message reaches neither the AI backend nor the messaging API,
    in [Basic] as in [Bridge].  When every call succeeds, both messages are
    answered. *)
Theorem send_exception_aborts_the_event :
  (let out :=
     basic_post_wa Reference.JSON_parse Reference.JSON_stringify config_min
       (net_reset_at 2) (Some two_senders_sig) two_senders_body initial_state in
   fst out = Thrown (FetchError "ECONNRESET")
   /\ calls (trace (snd out))
      = [PAIReply sender1 "first"; PSendText sender1 (JString "hi there")])
  /\ (let out :=
        bridge_post_wa Reference.JSON_parse Reference.JSON_stringify
          Reference.Number_toString config_min
          (net_reset_at 2) (Some two_senders_sig) two_senders_body initial_state in
      fst out = Thrown (FetchError "ECONNRESET")
      /\ calls (trace (snd out))
         = [PAIReply sender1 "first"; PSendText sender1 (JString "hi there")])
  /\ (let out :=
        basic_post_wa Reference.JSON_parse Reference.JSON_stringify config_min
          net_up (Some two_senders_sig) two_senders_body initial_state in
      fst out = Ok tt
      /\ calls (trace (snd out))
         = [PAIReply sender1 "first"; PSendText sender1 (JString "hi there");
            PAIReply sender2 "second"; PSendText sender2 (JString "hi there")]).
Proof. vm_compute. repeat split. Qed.

(** A response 500 of the messaging API is logged, and the loop goes on. *)
Example send_status_500_is_contained :
  let out :=
    basic_post_wa Reference.JSON_parse Reference.JSON_stringify config_min
      (net_500_at 2) (Some two_senders_sig) two_senders_body initial_state in
  fst out = Ok tt
  /\ calls (trace (snd out))
     = [PAIReply sender1 "first"; PSendText sender1 (JString "hi there");
        PAIReply sender2 "second"; PSendText sender2 (JString "hi there")].
Proof. vm_compute. repeat split. Qed.

Lemma observers_receive_the_received_bytes_witness :
  exists t,
    let st' :=
      snd (bridge_post_wa Reference.JSON_parse Reference.JSON_stringify
             Reference.Number_toString config_all net_up
             (Some handoff_sig) handoff_body initial_state) in
    trace st' =
    trace initial_state ++
    Respond 200
    :: forward_events (CHATWOOT_WEBHOOK_URL config_all) (chatwoot_headers config_all)
         handoff_body ++ t
    /\ Forall (bridge_forward_only config_all) t
    /\ nth 0 (buffers st') EmptyString = handoff_body.
Proof.
  refine (proj1 (proj2
    (observers_receive_the_received_bytes Reference.JSON_parse
       Reference.JSON_stringify Reference.Number_toString config_all net_up
       (Some handoff_sig) handoff_body initial_state _))).
  vm_compute. reflexivity.
Defined.

(** The payload with a second change and a second entry, both asking for a
    human, is routed as the payload that holds the first change alone. *)
Lemma only_first_change_is_routed_witness :
  same_routing
    (bridge_post_wa Reference.JSON_parse Reference.JSON_stringify
       Reference.Number_toString config_all net_up
       (Some later_entries_sig) later_entries_body initial_state)
    (bridge_post_wa Reference.JSON_parse Reference.JSON_stringify
       Reference.Number_toString config_all net_up
       (Some hello_sig) hello_body initial_state).
Proof.
  refine (proj1 (proj2
    (only_first_change_is_routed Reference.JSON_parse Reference.JSON_stringify
       Reference.Number_toString config_all net_up
       (Some later_entries_sig) (Some hello_sig) later_entries_body hello_body
       _ _ initial_state _ _ _ _ _)));
    vm_compute; reflexivity.
Defined.

(** What that run does: one call to the AI backend, for the sender of the
    first change; the two other senders are never seen. *)
Example later_entries_are_ignored :
  let out :=
    bridge_post_wa Reference.JSON_parse Reference.JSON_stringify
      Reference.Number_toString config_all net_up
      (Some later_entries_sig) later_entries_body initial_state in
  calls (trace (snd out))
  = [PForward; PAIReply user "hello"; PSendText user (JString "hi there")]
  /\ handoff (snd out) = [].
Proof. vm_compute. split; reflexivity. Qed.

Lemma signature_round_trip_witness :
  verifySignature config_all hello_body
    (Some (expected_signature (env_str (META_APP_SECRET config_all)) hello_body))
  = Ok true.
Proof. apply (signature_round_trip config_all hello_body). reflexivity. Defined.

(** The last digit of the header replaced by another one. *)
Lemma mutated_signature_is_rejected_witness :
  verifySignature config_all hello_body
    (Some "sha256=110130d7876e4f19cf1d40afaae7a791190500e3330ff3d4a6f46197620e681e")
  = Ok false.
Proof.
  apply (mutated_signature_is_rejected config_all "app-secret" hello_body);
    [reflexivity|].
  exists "sha256=110130d7876e4f19cf1d40afaae7a791190500e3330ff3d4a6f46197620e681",
    "f"%char, "e"%char, EmptyString.
  split; [vm_compute; reflexivity | split; [reflexivity | discriminate]].
Defined.

(** The header of [hello_body] on a body whose last byte is another one. *)
Lemma other_body_is_rejected_iff_mac_differs_witness :
  verifySignature config_all "{}" (Some (expected_signature "app-secret" "{ "))
  = Ok false
  <->
  Crypto.hmac_sha256 (bytes_of_string "app-secret") (bytes_of_string "{}")
  <> Crypto.hmac_sha256 (bytes_of_string "app-secret") (bytes_of_string "{ ").
Proof.
  apply (other_body_is_rejected_iff_mac_differs config_all "app-secret" "{ " "{}");
    reflexivity.
Defined.


(** A signed body that is not JSON. *)
Lemma unparsable_body_is_only_mirrored_witness :
  summary_post_wa Reference.JSON_parse Reference.JSON_stringify
    Reference.Number_toString config_all net_up (Some plain_sig) plain_body initial_state
  = (Ok tt,
     mirrored
       (forward_events (THREE_CX_WEBHOOK_URL config_all) [] plain_body
        ++ forward_events (CHATWOOT_WEBHOOK_URL config_all) (chatwoot_headers config_all)
             plain_body)
       plain_body initial_state).
Proof.
  refine (proj2 (proj2
    (unparsable_body_is_only_mirrored Reference.JSON_parse
       Reference.JSON_stringify Reference.Number_toString config_all net_up
       (Some plain_sig) plain_body initial_state _ _)));
    vm_compute; reflexivity.
Defined.

(** An image message. *)
Lemma event_without_text_is_only_mirrored_witness :
  bridge_post_wa Reference.JSON_parse Reference.JSON_stringify
    Reference.Number_toString config_all net_up (Some image_sig) image_body initial_state
  = (Ok tt,
     mirrored
       (forward_events (CHATWOOT_WEBHOOK_URL config_all) (chatwoot_headers config_all)
          image_body)
       image_body initial_state).
Proof.
  refine (proj1 (proj2
    (event_without_text_is_only_mirrored Reference.JSON_parse
       Reference.JSON_stringify Reference.Number_toString config_all net_up
       (Some image_sig) image_body _ initial_state _ _ _)));
    vm_compute; reflexivity.
Defined.


(** An image message, then [null], then a text message that is never
    answered. *)
Lemma ill_typed_message_aborts_the_event_witness :
  exists e,
    basic_post_wa Reference.JSON_parse Reference.JSON_stringify config_all net_up
      (Some null_message_sig) null_message_body initial_state
    = (Thrown (TypeError e),
       mirrored
         (forward_events (CHATWOOT_WEBHOOK_URL config_all) (chatwoot_headers config_all)
            null_message_body)
         null_message_body initial_state).
Proof.
  refine (proj1
    (ill_typed_message_aborts_the_event Reference.JSON_parse Reference.JSON_stringify
       Reference.Number_toString config_all net_up
       (Some null_message_sig) null_message_body _
       [JObject [("type", JString "image"); ("from", JString "15551234567")]]
       JNull
       [JObject [("type", JString "text"); ("from", JString "15551234567");
                 ("text", JObject [("body", JString "hello")])]]
       initial_state _ _ _ _ _));
    vm_compute; reflexivity.
Defined.



(** A request for a human and a later message of the same sender: one
    write to the map, one forward to 3CX. *)
Lemma bridge_forwards_once_per_handoff_witness :
  exists t,
    trace
      (snd (bridge_post_wa Reference.JSON_parse Reference.JSON_stringify
              Reference.Number_toString config_all net_up
              (Some handoff_sig) handoff_body initial_state))
    = trace initial_state ++
      Respond 200
      :: forward_events (CHATWOOT_WEBHOOK_URL config_all) (chatwoot_headers config_all)
           handoff_body ++ t
    /\ count is_forward t
       = if opt_truthy (THREE_CX_WEBHOOK_URL config_all)
         then count is_flag_write t else 0%nat.
Proof.
  apply (bridge_forwards_once_per_handoff Reference.JSON_parse
           Reference.JSON_stringify Reference.Number_toString config_all net_up
           (Some handoff_sig) handoff_body initial_state).
  vm_compute. reflexivity.
Defined.





(** The request Meta sends, with the configured token. *)
Lemma webhook_verification_needs_the_token_witness :
  get_wa config_all
    [("hub.mode", QString "subscribe"); ("hub.verify_token", QString "verify-token");
     ("hub.challenge", QString "1158201444")]
  = ReplySend 200 (Some (QString "1158201444")).
Proof.
  refine (proj1
    (webhook_verification_needs_the_token config_all
       [("hub.mode", QString "subscribe"); ("hub.verify_token", QString "verify-token");
        ("hub.challenge", QString "1158201444")] _) _).
  - reflexivity.
  - split; [reflexivity|]. exists "verify-token". split; reflexivity.
Defined.

(** The header for the user [user] and the password [pass]. *)
Example basic_auth_header_sample :
  maybeAuthHeader config_auth = [("Authorization", "Basic dXNlcjpwYXNz")].
Proof. vm_compute. reflexivity. Qed.

(** Without a summary endpoint. *)
Lemma summary_failure_is_a_fixed_text_witness :
  getAISummary Reference.JSON_parse Reference.JSON_stringify config_all net_up
    user initial_state
  = (Ok summary_unavailable, initial_state).
Proof.
  refine (proj1 (proj2
    (summary_failure_is_a_fixed_text Reference.JSON_parse Reference.JSON_stringify
       config_all net_up user initial_state)) _).
  reflexivity.
Defined.

(** With the token and the phone number id of the 3CX number, and no
    template name: the free-form text alone. *)
Lemma window_is_opened_by_template_or_text_witness :
  sendTemplateFrom3cxNumber Reference.JSON_stringify config_all net_up user initial_state
  = (send_outcome (net_up 0),
     add_events [window_text_call Reference.JSON_stringify config_all user] initial_state).
Proof.
  refine (proj2 (proj2 (proj2 (proj2
    (window_is_opened_by_template_or_text Reference.JSON_stringify config_all net_up
       user initial_state)))) _ _);
    reflexivity.
Defined.

(** The user [user] and the password [pass]. *)
Lemma basic_auth_header_round_trip_witness :
  exists token,
    maybeAuthHeader config_auth = [("Authorization", "Basic " ++ token)%string]
    /\ base64_decode token = Some (bytes_of_string ("user" ++ ":" ++ "pass")).
Proof.
  refine (proj2 (basic_auth_header_round_trip config_auth) "user" "pass" _ _ _ _);
    reflexivity.
Defined.

